(** * Susumam-AI: the unified-diff engine of [patcher.py]

    A shallow embedding of [parse_diff], [_apply_hunk], [apply_patch],
    [apply_diff_to_codebase] and [extract_diff_from_response], and of
    [walk_codebase] and [build_context] of [indexer.py], with the
    properties that the specification states about the patch engine and
    further properties of the code.

    Conventions of the embedding.
    - A Python [str] is a [string]: a sequence of code points below 256.
      Code points above that range (among them the line separators U+2028
      and U+2029) are outside the model.
    - A Python [int] is a [Z]; [int(s)] raises beyond 4300 digits, as
      CPython 3.11 does.
    - A Python list is a [list]; slices and indexing with negative numbers
      follow Python ([PyList]).
    - A call either returns a value or raises ([outcome]); the file system
      and the database are threaded explicitly.
    - The file system is a tree of directories and regular files on a
      POSIX system; a [pathlib] path is an anchor and its names, and the
      system walks the names, [..] included, from the root ([Path]). *)

From Stdlib Require Import ZArith String Ascii List Lia Bool DecimalString DecimalPos.
From stdpp Require Import base gmap strings list.

Local Open Scope string_scope.
Local Open Scope list_scope.
Local Open Scope Z_scope.

(** ** Exceptions *)

Inductive exc : Type :=
| IndexError
| OSError (msg : string)
| ValueError (msg : string).

Inductive outcome (A : Type) : Type :=
| Returns (a : A)
| Raises (e : exc).
Arguments Returns {A} a.
Arguments Raises {A} e.

(** A call after a call: an exception of the first leaves at once. *)
#[global] Instance outcome_ret : MRet outcome := @Returns.
#[global] Instance outcome_bind : MBind outcome :=
  fun A B k m => match m with Returns a => k a | Raises e => Raises e end.

(** ** Python strings *)

Module PyStr.

(** [s.startswith(p)] *)
Definition startswith (s p : string) : bool := String.prefix p s.

(** [s[n:]] for [n >= 0] *)
Fixpoint drop (n : nat) (s : string) : string :=
  match n, s with
  | O, _ => s
  | S _, EmptyString => EmptyString
  | S n', String _ s' => drop n' s'
  end.

(** [s.endswith(p)] *)
Definition endswith (s p : string) : bool :=
  String.eqb (drop (String.length s - String.length p) s) p
  && (String.length p <=? String.length s)%nat.

(** The line boundaries of [str.splitlines] below code point 256:
    LF, VT, FF, CR, FS, GS, RS and NEL. *)
Definition is_linebreak (c : ascii) : bool :=
  let n := nat_of_ascii c in
  ((n =? 10) || (n =? 11) || (n =? 12) || (n =? 13)
   || (n =? 28) || (n =? 29) || (n =? 30) || (n =? 133))%nat.

(** [s.splitlines()]: the lines without their terminators; CR LF is one
    boundary, and a final terminator opens no further line. *)
Fixpoint splitlines (s : string) : list string :=
  match s with
  | EmptyString => []
  | String c s' =>
      if is_linebreak c then
        EmptyString ::
          (if (nat_of_ascii c =? 13)%nat then
             match s' with
             | String c' s'' =>
                 if (nat_of_ascii c' =? 10)%nat then splitlines s''
                 else splitlines s'
             | EmptyString => splitlines s'
             end
           else splitlines s')
      else
        match splitlines s' with
        | [] => [String c EmptyString]
        | l :: ls => String c l :: ls
        end
  end.

(** The white space of [str.strip] below code point 256. *)
Definition is_space (c : ascii) : bool :=
  let n := nat_of_ascii c in
  (((9 <=? n) && (n <=? 13)) || ((28 <=? n) && (n <=? 32))
   || (n =? 133) || (n =? 160))%nat.

Fixpoint lstrip (s : string) : string :=
  match s with
  | EmptyString => EmptyString
  | String c s' => if is_space c then lstrip s' else s
  end.

Fixpoint rstrip (s : string) : string :=
  match s with
  | EmptyString => EmptyString
  | String c s' =>
      match rstrip s' with
      | EmptyString => if is_space c then EmptyString else String c EmptyString
      | r => String c r
      end
  end.

(** [s.strip()] *)
Definition strip (s : string) : string := rstrip (lstrip s).

(** [s.split("\t")[0]]: what precedes the first tab. *)
Fixpoint before_tab (s : string) : string :=
  match s with
  | EmptyString => EmptyString
  | String c s' =>
      if (nat_of_ascii c =? 9)%nat then EmptyString else String c (before_tab s')
  end.

(** The line terminator ["\n"]. *)
Definition LF : string := String (ascii_of_nat 10) EmptyString.

(** What reading in text mode makes of the stored text: CR LF and a
    lone CR become LF. *)
Fixpoint universal_newlines (s : string) : string :=
  match s with
  | EmptyString => EmptyString
  | String c s' =>
      if (nat_of_ascii c =? 13)%nat then
        match s' with
        | String c' s'' =>
            if (nat_of_ascii c' =? 10)%nat then String c' (universal_newlines s'')
            else String (ascii_of_nat 10) (universal_newlines s')
        | EmptyString => LF
        end
      else String c (universal_newlines s')
  end.

(** [sep.join(l)] *)
Definition join (sep : string) (l : list string) : string := String.concat sep l.

(** [str(n)] for an [int] *)
Definition of_int (n : Z) : string := NilZero.string_of_int (Z.to_int n).

Definition is_digit (c : ascii) : bool :=
  let n := nat_of_ascii c in ((48 <=? n) && (n <=? 57))%nat.

(** The number that a string of decimal digits writes, most significant
    digit first. *)
Fixpoint int_of_digits_from (acc : Z) (s : string) : Z :=
  match s with
  | EmptyString => acc
  | String c s' => int_of_digits_from (10 * acc + (Z.of_nat (nat_of_ascii c) - 48)) s'
  end.

Definition int_of_digits (s : string) : Z := int_of_digits_from 0 s.

(** [sys.get_int_max_str_digits()], as the interpreter starts. *)
Definition int_max_str_digits : Z := 4300.

(** [int(s)] for a string of decimal digits: the conversion is refused
    with a ValueError when the digits, leading zeros included, are more
    than [int_max_str_digits]. *)
Definition int (s : string) : outcome Z :=
  if int_max_str_digits <? Z.of_nat (String.length s) then
    Raises (ValueError
              ("Exceeds the limit (4300 digits) for integer string conversion: value has "
               +:+ of_int (Z.of_nat (String.length s))
               +:+ " digits; use sys.set_int_max_str_digits() to increase the limit"))
  else Returns (int_of_digits s).

End PyStr.

(** ** Python lists: slices and indexing with negative numbers *)

Module PyList.
Section Ops.
Context {A : Type}.

(** The position a slice bound [i] denotes in a list of length [n]. *)
Definition bound (n : nat) (i : Z) : nat :=
  if i <? 0 then Z.to_nat (Z.max 0 (Z.of_nat n + i))
  else Nat.min (Z.to_nat i) n.

(** [l[:i]] *)
Definition slice_to (l : list A) (i : Z) : list A :=
  firstn (bound (List.length l) i) l.

(** [l[i:]] *)
Definition slice_from (l : list A) (i : Z) : list A :=
  skipn (bound (List.length l) i) l.

(** [l[i]]: [None] stands for IndexError. *)
Definition index (l : list A) (i : Z) : option A :=
  if i <? 0 then
    if Z.of_nat (List.length l) + i <? 0 then None
    else nth_error l (Z.to_nat (Z.of_nat (List.length l) + i))
  else nth_error l (Z.to_nat i).
End Ops.
End PyList.

(** ** The data model of [patcher.py] *)

Record HunkLine : Type := mkHunkLine {
  op : string;     (* " " (context), "+" (add), "-" (remove) *)
  text : string
}.

Record Hunk : Type := mkHunk {
  old_start : Z;
  old_count : Z;
  new_start : Z;
  new_count : Z;
  lines : list HunkLine
}.

Record FilePatch : Type := mkFilePatch {
  old_path : string;
  new_path : string;
  hunks : list Hunk
}.

(** ** Parsing *)

Definition _strip_path_prefix (p : string) : string :=
  if PyStr.startswith p "a/" || PyStr.startswith p "b/" then PyStr.drop 2 p
  else if String.eqb p "/dev/null" then ""
  else p.

(** The regular expression of the hunk header,
    [^@@ -(\d+)(?:,(\d+))? \+(\d+)(?:,(\d+))? @@], matched at the start of a
    line.  Every [\d+] is followed in the pattern by a character that is no
    digit, so the greedy match is the only one and no backtracking is
    modelled. *)
Module HunkHeader.

(** A literal of the pattern. *)
Definition lit (l s : string) : option string :=
  if PyStr.startswith s l then Some (PyStr.drop (String.length l) s) else None.

(** The longest prefix of digits, and what follows it. *)
Fixpoint span_digits (s : string) : string * string :=
  match s with
  | EmptyString => (EmptyString, EmptyString)
  | String c s' =>
      if PyStr.is_digit c then
        let '(d, r) := span_digits s' in (String c d, r)
      else (EmptyString, s)
  end.

(** [(\d+)] *)
Definition digits (s : string) : option (string * string) :=
  let '(d, r) := span_digits s in
  if String.eqb d "" then None else Some (d, r).

(** [(?:,(\d+))?] *)
Definition opt_count (s : string) : option string * string :=
  match lit "," s with
  | Some r =>
      match digits r with
      | Some (d, r') => (Some d, r')
      | None => (None, s)
      end
  | None => (None, s)
  end.

(** The four groups of a match. *)
Definition re_match (line : string)
    : option (string * option string * string * option string) :=
  r1 ← lit "@@ -" line;
  '(g1, r2) ← digits r1;
  let '(g2, r3) := opt_count r2 in
  r4 ← lit " +" r3;
  '(g3, r5) ← digits r4;
  let '(g4, r6) := opt_count r5 in
  _ ← lit " @@" r6;
  Some (g1, g2, g3, g4).

(** [int(m.group(k) or 1)] *)
Definition count_or_1 (g : option string) : outcome Z :=
  match g with
  | Some d => PyStr.int d
  | None => Returns 1
  end.

End HunkHeader.

(** In the three loops of [parse_diff] the index [i] only moves forward
    and only [lines[i:]] is read: the loops carry that suffix.  The two
    outer loops resume where an inner loop stopped, so they recurse on
    [fuel]; one unit per iteration, and every iteration consumes a line. *)

(** The innermost loop: the operation lines of one hunk.  Returns the
    hunk lines and the lines left. *)
Fixpoint parse_hunk_lines (ls : list string) (hunk_lines : list HunkLine)
    (old_remaining new_remaining : Z) : list HunkLine * list string :=
  match ls with
  | [] => (hunk_lines, [])
  | line :: rest =>
      if (0 <? old_remaining) || (0 <? new_remaining) then
        if PyStr.startswith line "-" then
          parse_hunk_lines rest (hunk_lines ++ [mkHunkLine "-" (PyStr.drop 1 line)])
            (old_remaining - 1) new_remaining
        else if PyStr.startswith line "+" then
          parse_hunk_lines rest (hunk_lines ++ [mkHunkLine "+" (PyStr.drop 1 line)])
            old_remaining (new_remaining - 1)
        else if PyStr.startswith line " " || String.eqb line "" then
          parse_hunk_lines rest
            (hunk_lines ++ [mkHunkLine " " (if String.eqb line "" then "" else PyStr.drop 1 line)])
            (old_remaining - 1) (new_remaining - 1)
        else if PyStr.startswith line "\" then
          parse_hunk_lines rest hunk_lines old_remaining new_remaining
        else (hunk_lines, ls)
      else (hunk_lines, ls)
  end.

(** The loop over the hunks of one file block.  The four calls of [int]
    come in the order of the source, and the first that raises ends the
    parse. *)
Fixpoint parse_hunks (fuel : nat) (ls : list string) (hunks : list Hunk)
    : outcome (list Hunk * list string) :=
  match fuel with
  | O => Returns (hunks, ls)
  | S fuel' =>
      match ls with
      | [] => Returns (hunks, [])
      | line :: rest =>
          if PyStr.startswith line "---" then Returns (hunks, ls)
          else
            match HunkHeader.re_match line with
            | None => parse_hunks fuel' rest hunks
            | Some (g1, g2, g3, g4) =>
                old_start ← PyStr.int g1;
                old_count ← HunkHeader.count_or_1 g2;
                new_start ← PyStr.int g3;
                new_count ← HunkHeader.count_or_1 g4;
                let '(hunk_lines, rest') :=
                  parse_hunk_lines rest [] old_count new_count in
                parse_hunks fuel' rest'
                  (hunks ++ [mkHunk old_start old_count new_start new_count hunk_lines])
            end
      end
  end.

(** The loop over the file blocks. *)
Fixpoint parse_files (fuel : nat) (ls : list string) (patches : list FilePatch)
    : outcome (list FilePatch) :=
  match fuel with
  | O => Returns patches
  | S fuel' =>
      match ls with
      | [] => Returns patches
      | line :: rest =>
          if negb (PyStr.startswith line "---") then parse_files fuel' rest patches
          else
            let old_path_raw := PyStr.strip (PyStr.drop 4 line) in
            match rest with
            | [] => parse_files fuel' rest patches
            | line' :: rest' =>
                if negb (PyStr.startswith line' "+++") then parse_files fuel' rest patches
                else
                  let new_path_raw := PyStr.strip (PyStr.drop 4 line') in
                  let old_path := _strip_path_prefix (PyStr.before_tab old_path_raw) in
                  let new_path := _strip_path_prefix (PyStr.before_tab new_path_raw) in
                  '(hunks, rest'') ← parse_hunks (List.length rest') rest' [];
                  parse_files fuel' rest'' (patches ++ [mkFilePatch old_path new_path hunks])
            end
      end
  end.

Definition parse_diff (diff_text : string) : outcome (list FilePatch) :=
  let lines := PyStr.splitlines diff_text in
  parse_files (List.length lines) lines [].

(** ** Applying one hunk *)

(** The [for op, text in hunk.lines] loop of [_apply_hunk], with its two
    loop variables [result] and [src_idx].  [Returns None] is the
    mismatch; indexing before the start of the list raises. *)
Fixpoint apply_hunk_lines (file_lines : list string) (ls : list HunkLine)
    (result : list string) (src_idx : Z) : outcome (option (list string * Z)) :=
  match ls with
  | [] => Returns (Some (result, src_idx))
  | hl :: rest =>
      if String.eqb (op hl) " " then
        if Z.of_nat (List.length file_lines) <=? src_idx then Returns None
        else
          match PyList.index file_lines src_idx with
          | None => Raises IndexError
          | Some x => apply_hunk_lines file_lines rest (result ++ [x]) (src_idx + 1)
          end
      else if String.eqb (op hl) "-" then
        if Z.of_nat (List.length file_lines) <=? src_idx then Returns None
        else apply_hunk_lines file_lines rest result (src_idx + 1)
      else if String.eqb (op hl) "+" then
        apply_hunk_lines file_lines rest (result ++ [text hl]) src_idx
      else apply_hunk_lines file_lines rest result src_idx
  end.

Definition _apply_hunk (file_lines : list string) (hunk : Hunk)
    : outcome (option (list string)) :=
  let hunk_start := old_start hunk - 1 in
  let result := PyList.slice_to file_lines hunk_start in
  match apply_hunk_lines file_lines (lines hunk) result hunk_start with
  | Raises e => Raises e
  | Returns None => Returns None
  | Returns (Some (result, src_idx)) =>
      Returns (Some (result ++ PyList.slice_from file_lines src_idx))
  end.

(** ** The file system and the database *)

(** What a place of the tree holds: a regular file with its text, or a
    directory. *)
Inductive node : Type :=
| RegularFile (text : string)
| Directory.

(** The errors that the state of the tree decides. *)
Inductive errno : Type := ENOENT | ENOTDIR | EISDIR | EEXIST.

(** The disk of a POSIX system.
    - [nodes] is the tree: what every place holds, a place being the list
      of the names that lead to it from the root directory, which always
      exists.
    - [stat_err], [read_err], [open_err] and [mkdir_err] name the paths,
      by their text, on which the system refuses [stat], opening for
      reading, opening for writing and [mkdir] (permissions, a name too
      long, a name that the system cannot hold, a read-only file system),
      with the text of the error.
    - [write_err] names the paths on which a write fails after the file
      was opened, and so emptied: with the text of the [OSError], and what
      the failed write leaves in the file.
    - [strerror e p] is the text of the [OSError] for an error [e] that the
      tree decides on the path of text [p].
    Symbolic and hard links, and changes made by others during a call,
    are outside the model. *)
Record Disk : Type := mkDisk {
  nodes : gmap (list string) node;
  stat_err : gmap string string;
  read_err : gmap string string;
  open_err : gmap string string;
  write_err : gmap string (string * string);
  mkdir_err : gmap string string;
  strerror : errno -> string -> string
}.

Module Path.

(** *** Paths as [pathlib] holds them *)

(** A path: its anchor ([/], [//] or nothing) and its names. *)
Record PurePath : Type := mkPath {
  anchor : string;
  parts : list string
}.

(** [s.split("/")] *)
Fixpoint split (s : string) : list string :=
  match s with
  | EmptyString => [EmptyString]
  | String c s' =>
      if (nat_of_ascii c =? 47)%nat then EmptyString :: split s'
      else
        match split s' with
        | [] => [String c EmptyString]
        | x :: xs => String c x :: xs
        end
  end.

(** [Path(s)]: exactly two slashes at the start are an anchor of their
    own, and the empty names and the names [.] are dropped; a name [..]
    is kept. *)
Definition parse (s : string) : PurePath :=
  {| anchor :=
       if PyStr.startswith s "//" && negb (PyStr.startswith s "///") then "//"
       else if PyStr.startswith s "/" then "/"
       else "";
     parts :=
       List.filter (fun x => negb (String.eqb x "") && negb (String.eqb x "."))
         (split s) |}.

(** [p / rel]: an anchored [rel] replaces [p]. *)
Definition joinpath (p : PurePath) (rel : string) : PurePath :=
  let r := parse rel in
  if String.eqb (anchor r) "" then mkPath (anchor p) (parts p ++ parts r) else r.

(** [p.parent] *)
Definition parent (p : PurePath) : PurePath :=
  mkPath (anchor p) (removelast (parts p)).

(** [str(p)], for an anchored path. *)
Definition str (p : PurePath) : string := anchor p +:+ PyStr.join "/" (parts p).

(** *** The tree *)

(** What a place holds. *)
Definition node_at (fs : Disk) (k : list string) : option node :=
  match k with
  | [] => Some Directory
  | _ => nodes fs !! k
  end.

(** The kind of what a place holds, all that a walk looks at: a
    directory, a file, or nothing. *)
Definition kind (n : option node) : option bool :=
  match n with
  | Some Directory => Some true
  | Some (RegularFile _) => Some false
  | None => None
  end.

(** One name further from the place [cur]: [..] leads to the directory
    above, and to the root itself at the root. *)
Definition step (cur : list string) (c : string) : list string :=
  if String.eqb c ".." then removelast cur else cur ++ [c].

(** The walk of the system along the names [p] from the place [cur]: a
    name is looked up in a directory only.  Both anchors start at the
    root. *)
Fixpoint walk (fs : Disk) (cur p : list string) : errno + list string :=
  match p with
  | [] => inr cur
  | c :: rest =>
      match node_at fs cur with
      | Some Directory => walk fs (step cur c) rest
      | Some (RegularFile _) => inl ENOTDIR
      | None => inl ENOENT
      end
  end.

(** The place that a path names. *)
Definition reach (fs : Disk) (p : PurePath) : errno + list string :=
  walk fs [] (parts p).

(** The place and what it holds. *)
Definition lookup (fs : Disk) (p : PurePath) : errno + list string * node :=
  match reach fs p with
  | inl e => inl e
  | inr k =>
      match node_at fs k with
      | Some n => inr (k, n)
      | None => inl ENOENT
      end
  end.

(** The disk with [n] at the place [k]. *)
Definition put (k : list string) (n : node) (fs : Disk) : Disk :=
  {| nodes := <[k := n]> (nodes fs);
     stat_err := stat_err fs;
     read_err := read_err fs;
     open_err := open_err fs;
     write_err := write_err fs;
     mkdir_err := mkdir_err fs;
     strerror := strerror fs |}.

(** The place that the names [p] lead to from [cur] when every
    directory on the way is there, and the place of a path. *)
Definition place_from (cur p : list string) : list string := fold_left step p cur.

Definition place (p : PurePath) : list string := place_from [] (parts p).

(** The disk with a directory made at [k] if nothing is there. *)
Definition ensure_dir (k : list string) (fs : Disk) : Disk :=
  match node_at fs k with
  | None => put k Directory fs
  | Some _ => fs
  end.

(** The disk with a directory made at every place on the way along [p]
    from [cur], the last one included, where nothing is. *)
Fixpoint with_dirs_from (cur p : list string) (fs : Disk) : Disk :=
  match p with
  | [] => fs
  | c :: rest => with_dirs_from (step cur c) rest (ensure_dir (step cur c) fs)
  end.

Definition with_dirs (p : PurePath) (fs : Disk) : Disk :=
  with_dirs_from [] (parts p) fs.

(** *** The calls *)

(** [p.exists()]: a path that is not there, or that leads through a
    file, does not exist; any other error of [stat] is raised. *)
Definition exists_ (p : PurePath) (fs : Disk) : outcome bool :=
  match stat_err fs !! str p with
  | Some msg => Raises (OSError msg)
  | None =>
      Returns (match lookup fs p with
               | inr _ => true
               | inl _ => false
               end)
  end.

(** [p.is_dir()] *)
Definition is_dir (p : PurePath) (fs : Disk) : outcome bool :=
  match stat_err fs !! str p with
  | Some msg => Raises (OSError msg)
  | None =>
      Returns (match lookup fs p with
               | inr (_, Directory) => true
               | _ => false
               end)
  end.

(** [p.read_text(encoding="utf-8", errors="replace")] *)
Definition read_text (p : PurePath) (fs : Disk) : outcome string :=
  match read_err fs !! str p with
  | Some msg => Raises (OSError msg)
  | None =>
      match lookup fs p with
      | inr (_, RegularFile t) => Returns (PyStr.universal_newlines t)
      | inr (_, Directory) => Raises (OSError (strerror fs EISDIR (str p)))
      | inl e => Raises (OSError (strerror fs e (str p)))
      end
  end.

(** [p.write_text(content, encoding="utf-8")]: the file is opened, which
    creates it in its directory or empties it, and then written. *)
Definition write_text (p : PurePath) (content : string) (fs : Disk) : outcome unit * Disk :=
  match reach fs p with
  | inl e => (Raises (OSError (strerror fs e (str p))), fs)
  | inr k =>
      match node_at fs k with
      | Some Directory => (Raises (OSError (strerror fs EISDIR (str p))), fs)
      | _ =>
          match open_err fs !! str p with
          | Some msg => (Raises (OSError msg), fs)
          | None =>
              match write_err fs !! str p with
              | Some (msg, remains) => (Raises (OSError msg), put k (RegularFile remains) fs)
              | None => (Returns tt, put k (RegularFile content) fs)
              end
          end
      end
  end.

(** How [os.mkdir] fails: with an error that the tree decides, or
    refused. *)
Inductive failure : Type :=
| Errno (e : errno)
| Refused (msg : string).

Definition os_error (fs : Disk) (p : PurePath) (f : failure) : exc :=
  match f with
  | Errno e => OSError (strerror fs e (str p))
  | Refused msg => OSError msg
  end.

(** [os.mkdir(p)] *)
Definition os_mkdir (p : PurePath) (fs : Disk) : failure + Disk :=
  match reach fs p with
  | inl e => inl (Errno e)
  | inr k =>
      match mkdir_err fs !! str p with
      | Some msg => inl (Refused msg)
      | None =>
          match node_at fs k with
          | Some _ => inl (Errno EEXIST)
          | None => inr (put k Directory fs)
          end
      end
  end.

(** The handler [except OSError] of [Path.mkdir] with [exist_ok=True]:
    the error is dropped when the path is a directory. *)
Definition unless_is_dir (p : PurePath) (f : failure) (fs : Disk) : outcome unit * Disk :=
  match is_dir p fs with
  | Raises e => (Raises e, fs)
  | Returns true => (Returns tt, fs)
  | Returns false => (Raises (os_error fs p f), fs)
  end.

(** [p.mkdir(parents=False, exist_ok=True)] *)
Definition mkdir_exist_ok (p : PurePath) (fs : Disk) : outcome unit * Disk :=
  match os_mkdir p fs with
  | inr fs' => (Returns tt, fs')
  | inl (Errno ENOENT) => (Raises (os_error fs p (Errno ENOENT)), fs)
  | inl f => unless_is_dir p f fs
  end.

(** [p.mkdir(parents=True, exist_ok=True)] for the path of anchor [a]
    whose names are [names], the last one first: on FileNotFoundError the
    directory above is made in the same way, and [os.mkdir] is called
    once more. *)
Fixpoint mkdir_parents (a : string) (names : list string) (fs : Disk)
    : outcome unit * Disk :=
  let p := mkPath a (rev names) in
  match os_mkdir p fs with
  | inr fs' => (Returns tt, fs')
  | inl (Errno ENOENT) =>
      match names with
      | [] => (Raises (os_error fs p (Errno ENOENT)), fs)
      | _ :: above =>
          match mkdir_parents a above fs with
          | (Raises e, fs1) => (Raises e, fs1)
          | (Returns _, fs1) => mkdir_exist_ok p fs1
          end
      end
  | inl f => unless_is_dir p f fs
  end.

Definition mkdir (p : PurePath) (fs : Disk) : outcome unit * Disk :=
  mkdir_parents (anchor p) (rev (parts p)) fs.

End Path.

(** [str(e)] *)
Definition exc_str (e : exc) : string :=
  match e with
  | IndexError => "list index out of range"
  | OSError msg => msg
  | ValueError msg => msg
  end.

(** The [files] table of [db.py], and whether [sqlite3] answers. *)
Record file_row : Type := mkRow {
  codebase_id : Z;
  rel_path : string;
  content : string;
  language : string
}.

Record DB : Type := mkDB {
  files_table : list file_row;
  db_err : option string
}.

(** [db.update_file_content]:
    [UPDATE files SET content = ? WHERE codebase_id = ? AND rel_path = ?] *)
Definition update_file_content (cid : Z) (rel new_content : string) (db : DB)
    : outcome unit * DB :=
  match db_err db with
  | Some msg => (Raises (OSError msg), db)
  | None =>
      (Returns tt,
       {| files_table :=
            map (fun r =>
                   if (codebase_id r =? cid) && String.eqb (rel_path r) rel
                   then mkRow (codebase_id r) (rel_path r) new_content (language r)
                   else r)
                (files_table db);
          db_err := None |})
  end.

(** ** Applying a patch to the disk *)

(** The content of a created file: the two nested loops of the creation
    branch, [content += text + "\n"] for every [+] and context line. *)
Definition created_content (hs : list Hunk) : string :=
  fold_left
    (fun content hunk =>
       fold_left
         (fun content hl =>
            if String.eqb (op hl) "+" || String.eqb (op hl) " "
            then content +:+ text hl +:+ PyStr.LF
            else content)
         (lines hunk) content)
    hs "".

(** The loop [for hunk in reversed(patch.hunks)] of [apply_patch], over
    the hunks in the order it visits them: the patched lines, or the hunk
    at which [_apply_hunk] returned [None]. *)
Fixpoint apply_hunks (hs : list Hunk) (file_lines : list string)
    : outcome (Hunk + list string) :=
  match hs with
  | [] => Returns (inr file_lines)
  | hunk :: rest =>
      match _apply_hunk file_lines hunk with
      | Raises e => Raises e
      | Returns None => Returns (inl hunk)
      | Returns (Some file_lines') => apply_hunks rest file_lines'
      end
  end.

(** [patched_content]: the lines joined, and a terminator added unless
    the text already ends with one. *)
Definition patched_content (file_lines : list string) : string :=
  let joined := PyStr.join PyStr.LF file_lines in
  if PyStr.endswith joined PyStr.LF then joined else joined +:+ PyStr.LF.

(** [patch.new_path or patch.old_path] *)
Definition target_rel (patch : FilePatch) : string :=
  if String.eqb (new_path patch) "" then old_path patch else new_path patch.

(** [Path(root_path).resolve() / rel], [root] being the text of the
    resolved root directory. *)
Definition abs_path (root rel : string) : Path.PurePath :=
  Path.joinpath (Path.parse root) rel.

(** Where [apply_patch] finds the file to modify, and the name it reports:
    at the target path or, failing that, at the old path.  The two calls
    of [exists] stand outside any handler. *)
Definition locate (patch : FilePatch) (root : string) (fs : Disk)
    : outcome (option (Path.PurePath * string)) :=
  let rel := target_rel patch in
  match Path.exists_ (abs_path root rel) fs with
  | Raises e => Raises e
  | Returns true => Returns (Some (abs_path root rel, rel))
  | Returns false =>
      (* Try the old path *)
      match Path.exists_ (abs_path root (old_path patch)) fs with
      | Raises e => Raises e
      | Returns true => Returns (Some (abs_path root (old_path patch), old_path patch))
      | Returns false => Returns None
      end
  end.

Definition apply_patch (patch : FilePatch) (root : string) (fs : Disk)
    : outcome (bool * string) * Disk :=
  let rel := target_rel patch in
  if String.eqb rel "" then
    (Returns (false, "Could not determine file path from diff."), fs)
  else
    if String.eqb (old_path patch) "" then
      (* New file creation (--- /dev/null) *)
      match Path.mkdir (Path.parent (abs_path root rel)) fs with
      | (Raises e, fs1) =>
          (Returns (false, "Failed to create " +:+ rel +:+ ": " +:+ exc_str e), fs1)
      | (Returns _, fs1) =>
          match Path.write_text (abs_path root rel) (created_content (hunks patch)) fs1 with
          | (Raises e, fs2) =>
              (Returns (false, "Failed to create " +:+ rel +:+ ": " +:+ exc_str e), fs2)
          | (Returns _, fs2) => (Returns (true, "Created new file: " +:+ rel), fs2)
          end
      end
    else
      match locate patch root fs with
      | Raises e => (Raises e, fs)
      | Returns None => (Returns (false, "File not found: " +:+ rel), fs)
      | Returns (Some (abs_path, rel)) =>
          match Path.read_text abs_path fs with
          | Raises e => (Returns (false, "Cannot read " +:+ rel +:+ ": " +:+ exc_str e), fs)
          | Returns original =>
              let file_lines := PyStr.splitlines original in
              (* Apply hunks in reverse order (to preserve line numbers) *)
              match apply_hunks (rev (hunks patch)) file_lines with
              | Raises e => (Raises e, fs)
              | Returns (inl hunk) =>
                  (Returns (false,
                            "Hunk mismatch in " +:+ rel +:+ " at line "
                            +:+ PyStr.of_int (old_start hunk) +:+ ". Patch may be stale."),
                   fs)
              | Returns (inr file_lines) =>
                  match Path.write_text abs_path (patched_content file_lines) fs with
                  | (Raises e, fs1) => (Raises e, fs1)
                  | (Returns _, fs1) => (Returns (true, "Patched: " +:+ rel), fs1)
                  end
              end
          end
      end.

(** The best-effort copy of a patched file into the database: whatever
    the read or the update raises is swallowed. *)
Definition sync_db (patch : FilePatch) (root : string) (cid : Z) (fs : Disk) (db : DB) : DB :=
  let rel := target_rel patch in
  if String.eqb rel "" then db
  else
    match Path.read_text (abs_path root rel) fs with
    | Raises _ => db
    | Returns new_content =>
        match update_file_content cid rel new_content db with
        | (Raises _, _) => db
        | (Returns _, db') => db'
        end
    end.

(** The loop [for patch in patches] of [apply_diff_to_codebase]. *)
Fixpoint apply_patches (patches : list FilePatch) (root : string) (cid : Z)
    (fs : Disk) (db : DB) (results : list (bool * string))
    : outcome (list (bool * string)) * Disk * DB :=
  match patches with
  | [] => (Returns results, fs, db)
  | patch :: rest =>
      match apply_patch patch root fs with
      | (Raises e, fs') => (Raises e, fs', db)
      | (Returns (ok, msg), fs') =>
          apply_patches rest root cid fs'
            (if ok then sync_db patch root cid fs' db else db)
            (results ++ [(ok, msg)])
      end
  end.

Definition apply_diff_to_codebase (diff_text root : string) (cid : Z) (fs : Disk) (db : DB)
    : outcome (list (bool * string)) * Disk * DB :=
  match parse_diff diff_text with
  | Raises e => (Raises e, fs, db)
  | Returns [] => (Returns [(false, "No valid patches found in diff.")], fs, db)
  | Returns patches => apply_patches patches root cid fs db []
  end.

(** ** Vocabulary of the specification *)

(** A Context or Remove entry: it stands for a line of the old file. *)
Definition is_old (hl : HunkLine) : bool :=
  String.eqb (op hl) " " || String.eqb (op hl) "-".

(** An Add or Context entry: it stands for a line of the new file. *)
Definition is_new (hl : HunkLine) : bool :=
  String.eqb (op hl) "+" || String.eqb (op hl) " ".

(** How many lines of the old file, and of the new one, a hunk body
    stands for. *)
Definition old_extent (ls : list HunkLine) : nat := List.length (List.filter is_old ls).
Definition new_extent (ls : list HunkLine) : nat := List.length (List.filter is_new ls).

(** The source cursor of [_apply_hunk] when it reaches entry [k]. *)
Definition cursor_at (h : Hunk) (k : nat) : Z :=
  old_start h - 1 + Z.of_nat (old_extent (firstn k (lines h))).

(** Entry [k] is a Context or Remove entry, met with the cursor at or past
    the end of the buffer. *)
Definition overrun_at (buf : list string) (h : Hunk) (k : nat) : Prop :=
  exists hl, nth_error (lines h) k = Some hl /\ is_old hl = true
             /\ Z.of_nat (List.length buf) <= cursor_at h k.

(** An entry before [k] stopped the walk with an IndexError: a Context
    entry met with the cursor before the start of the buffer, which only
    an [old_start] below 1 allows. *)
Definition raises_before (buf : list string) (h : Hunk) (k : nat) : Prop :=
  exists j hl, (j < k)%nat /\ nth_error (lines h) j = Some hl /\ op hl = " "
               /\ cursor_at h j < - Z.of_nat (List.length buf).

(** Two hunk lines, and two hunks, that differ at most in the text of
    Context and Remove lines. *)
Definition line_agree (a b : HunkLine) : Prop :=
  op a = op b /\ (is_old a = true \/ text a = text b).

Definition hunk_agree (h1 h2 : Hunk) : Prop :=
  old_start h1 = old_start h2 /\ old_count h1 = old_count h2
  /\ new_start h1 = new_start h2 /\ new_count h1 = new_count h2
  /\ Forall2 line_agree (lines h1) (lines h2).

(** The texts of the Add and Context lines of all hunks, in order. *)
Definition new_texts (hs : list Hunk) : list string :=
  map text (List.filter is_new (concat (map lines hs))).

(** Every text followed by one line terminator. *)
Definition terminated_lines (texts : list string) : string :=
  fold_right (fun t rest => t +:+ PyStr.LF +:+ rest) "" texts.

(** No line that starts with [---] is immediately followed by a line that
    starts with [+++]. *)
Fixpoint lacks_header_pair (ls : list string) : bool :=
  match ls with
  | [] => true
  | l1 :: rest =>
      match rest with
      | [] => true
      | l2 :: _ => negb (PyStr.startswith l1 "---" && PyStr.startswith l2 "+++")
      end
      && lacks_header_pair rest
  end.

(** *** Valid hunk bodies *)

(** The operation lines of the diff format, by their first character:
    [-] stands for an old line, [+] for a new one, a space (or an empty
    line) for both, and a backslash for neither. *)
Definition is_body_line (line : string) : bool :=
  PyStr.startswith line "-" || PyStr.startswith line "+"
  || PyStr.startswith line " " || String.eqb line "" || PyStr.startswith line "\".

Definition counts_old (line : string) : bool :=
  PyStr.startswith line "-" || PyStr.startswith line " " || String.eqb line "".

Definition counts_new (line : string) : bool :=
  PyStr.startswith line "+" || PyStr.startswith line " " || String.eqb line "".

(** A body whose lines are all operation lines and whose old and new
    lines are as many as the header declares. *)
Definition valid_body (oc nc : Z) (body : list string) : bool :=
  forallb is_body_line body
  && (Z.of_nat (List.length (List.filter counts_old body)) =? oc)
  && (Z.of_nat (List.length (List.filter counts_new body)) =? nc).

(** Valid input: wherever a line is a hunk header, the lines after it
    start with a valid body for the counts of that header. *)
Fixpoint valid_input (ls : list string) : bool :=
  match ls with
  | [] => true
  | line :: rest =>
      match HunkHeader.re_match line with
      | Some (_, g2, _, g4) =>
          match HunkHeader.count_or_1 g2, HunkHeader.count_or_1 g4 with
          | Returns oc, Returns nc =>
              existsb (fun n => valid_body oc nc (firstn n rest))
                (seq 0 (S (List.length rest)))
          | _, _ => true
          end
      | None => true
      end
      && valid_input rest
  end.

(** The invariant of the data model. *)
Definition hunk_counts_ok (h : Hunk) : Prop :=
  Z.of_nat (old_extent (lines h)) = old_count h
  /\ Z.of_nat (new_extent (lines h)) = new_count h.

(** A hunk and a patch of the data model: positions from 1, the three
    operations only, the counts of the invariant, and a path. *)
Definition valid_hunk (h : Hunk) : Prop :=
  1 <= old_start h /\ 1 <= new_start h
  /\ Forall (fun hl => op hl = " " \/ op hl = "+" \/ op hl = "-") (lines h)
  /\ hunk_counts_ok h.

Definition valid_patch (p : FilePatch) : Prop :=
  (old_path p <> "" \/ new_path p <> "") /\ Forall valid_hunk (hunks p).

(** *** The reference forward simulation *)

(** What a hunk body makes of the source lines at its position: a Context
    entry copies the next source line, a Remove entry skips it, an Add
    entry puts its text. *)
Fixpoint emit (ls : list HunkLine) (src : list string) : list string :=
  match ls with
  | [] => []
  | hl :: rest =>
      if String.eqb (op hl) " " then
        match src with
        | x :: src' => x :: emit rest src'
        | [] => emit rest []
        end
      else if String.eqb (op hl) "-" then emit rest (tl src)
      else if String.eqb (op hl) "+" then text hl :: emit rest src
      else emit rest src
  end.

(** One hunk put in place at index [start] of the buffer. *)
Definition splice (buf : list string) (start : nat) (h : Hunk) : list string :=
  firstn start buf ++ emit (lines h) (skipn start buf)
  ++ skipn (start + old_extent (lines h)) buf.

(** The forward simulation: the hunks in file order, each at its recorded
    position moved by [offset], the number of lines that the hunks before
    it added less the number they removed. *)
Fixpoint forward_reference (hs : list Hunk) (offset : Z) (buf : list string) : list string :=
  match hs with
  | [] => buf
  | h :: rest =>
      forward_reference rest
        (offset + Z.of_nat (new_extent (lines h)) - Z.of_nat (old_extent (lines h)))
        (splice buf (Z.to_nat (old_start h - 1 + offset)) h)
  end.

(** Hunks in file order that edit disjoint ranges of a file of [n] lines:
    each range starts at or after [pos], where the range before it ended,
    and ends within the file. *)
Fixpoint disjoint_from (pos n : Z) (hs : list Hunk) : Prop :=
  match hs with
  | [] => True
  | h :: rest =>
      pos <= old_start h - 1
      /\ old_start h - 1 + Z.of_nat (old_extent (lines h)) <= n
      /\ disjoint_from (old_start h - 1 + Z.of_nat (old_extent (lines h))) n rest
  end.

Definition disjoint_ranges (n : nat) (hs : list Hunk) : Prop :=
  disjoint_from 0 (Z.of_nat n) hs.

(** A list of hunks in descending order of [old_start]. *)
Definition descending (hs : list Hunk) : Prop :=
  forall i j a b, (i < j)%nat -> nth_error hs i = Some a -> nth_error hs j = Some b ->
                  old_start b <= old_start a.

(** The patched file from position [pos] on, in one pass over the
    original buffer. *)
Fixpoint stream (hs : list Hunk) (pos : nat) (buf : list string) : list string :=
  match hs with
  | [] => skipn pos buf
  | h :: rest =>
      let s := Z.to_nat (old_start h - 1) in
      firstn (s - pos) (skipn pos buf) ++ emit (lines h) (skipn s buf)
      ++ stream rest (s + old_extent (lines h)) buf
  end.

(** *** A patch applied again *)

(** The hunk at which a pass over hunks with [old_start] from 1, in the
    order [hs], stops on a buffer of [n] lines: the first that has Context
    or Remove lines and whose recorded range ends past the end of the
    buffer as it then stands; every hunk before it changes the number of
    lines by its Add lines less its Remove lines. *)
Fixpoint first_overrun (hs : list Hunk) (n : Z) : option Hunk :=
  match hs with
  | [] => None
  | h :: rest =>
      if (0 <? Z.of_nat (old_extent (lines h)))
         && (n <? old_start h - 1 + Z.of_nat (old_extent (lines h)))
      then Some h
      else first_overrun rest
             (n + Z.of_nat (new_extent (lines h)) - Z.of_nat (old_extent (lines h)))
  end.

(** *** The disk of a creation *)

(** A text that ends with exactly one line terminator. *)
Definition one_trailing_terminator (s : string) : Prop :=
  exists body, s = body +:+ PyStr.LF /\ PyStr.endswith body PyStr.LF = false.

(** The refusals of the system are the same on both disks. *)
Definition same_refusals (fs fs' : Disk) : Prop :=
  stat_err fs' = stat_err fs /\ read_err fs' = read_err fs
  /\ open_err fs' = open_err fs /\ write_err fs' = write_err fs
  /\ mkdir_err fs' = mkdir_err fs /\ strerror fs' = strerror fs.

(** [fs'] is [fs] with directories made where nothing was. *)
Definition dirs_made (fs fs' : Disk) : Prop :=
  same_refusals fs fs'
  /\ forall k, Path.node_at fs' k = Path.node_at fs k
               \/ (Path.node_at fs k = None /\ Path.node_at fs' k = Some Directory).

(** No regular file stands at a place on the way along the first [n]
    names of [p], and the system refuses neither [mkdir] nor [stat] on
    the paths of these names. *)
Definition way_clear (a : string) (p : list string) (n : nat) (fs : Disk) : Prop :=
  forall i, (i <= n)%nat ->
    Path.kind (Path.node_at fs (Path.place_from [] (firstn i p))) <> Some false
    /\ mkdir_err fs !! Path.str (Path.mkPath a (firstn i p)) = None
    /\ stat_err fs !! Path.str (Path.mkPath a (firstn i p)) = None.

(** ** The scenarios of the specification *)

Module Scenario.

Definition root : string := "/srv/code".

(** The path of the file, [/srv/code/f.txt], and its place in the tree. *)
Definition target : Path.PurePath := abs_path root "f.txt".
Definition place : list string := ["srv"; "code"; "f.txt"].

Definition abc : string := "a" +:+ PyStr.LF +:+ "b" +:+ PyStr.LF +:+ "c" +:+ PyStr.LF.
Definition aBc : string := "a" +:+ PyStr.LF +:+ "B" +:+ PyStr.LF +:+ "c" +:+ PyStr.LF.
Definition ab : string := "a" +:+ PyStr.LF +:+ "b" +:+ PyStr.LF.

(** The diff of the scenario: one file, one hunk. *)
Definition diff : string :=
  PyStr.join PyStr.LF
    ["--- a/f.txt"; "+++ b/f.txt"; "@@ -1,3 +1,3 @@"; " a"; "-b"; "+B"; " c"; ""].

Definition hunk : Hunk :=
  mkHunk 1 3 1 3
    [mkHunkLine " " "a"; mkHunkLine "-" "b"; mkHunkLine "+" "B"; mkHunkLine " " "c"].

Definition patch : FilePatch := mkFilePatch "f.txt" "f.txt" [hunk].

(** The texts of the errors, as Linux words them, for a path that
    [repr] writes between single quotes. *)
Definition strerror (e : errno) (p : string) : string :=
  match e with
  | ENOENT => "[Errno 2] No such file or directory: '"
  | ENOTDIR => "[Errno 20] Not a directory: '"
  | EISDIR => "[Errno 21] Is a directory: '"
  | EEXIST => "[Errno 17] File exists: '"
  end +:+ p +:+ "'".

(** A tree that holds the root directory of the code base and in it the
    one file, with the given text. *)
Definition tree (t : string) : gmap (list string) node :=
  {[ ["srv"] := Directory; ["srv"; "code"] := Directory; place := RegularFile t ]}.

(** A disk with that tree, on which nothing is refused. *)
Definition disk (t : string) : Disk := mkDisk (tree t) ∅ ∅ ∅ ∅ ∅ strerror.

(** The same disk with the file read-only. *)
Definition read_only_disk (t : string) : Disk :=
  mkDisk (tree t) ∅ ∅
    {[ "/srv/code/f.txt" := "[Errno 13] Permission denied: '/srv/code/f.txt'" ]} ∅ ∅
    strerror.

Definition no_db : DB := mkDB [] None.

(** A file of six lines and a patch of two hunks, at its lines 2 and 5. *)
Definition six : string :=
  PyStr.join PyStr.LF ["1"; "2"; "3"; "4"; "5"; "6"; ""].

Definition two_hunks : FilePatch :=
  mkFilePatch "f.txt" "f.txt"
    [mkHunk 2 1 2 2 [mkHunkLine "-" "2"; mkHunkLine "+" "two"; mkHunkLine "+" "deux"];
     mkHunk 5 2 6 1 [mkHunkLine " " "5"; mkHunkLine "-" "6"]].

Definition six_patched : string :=
  PyStr.join PyStr.LF ["1"; "two"; "deux"; "3"; "4"; "5"; ""].

(** A diff whose hunk starts at line 0 with a Context line. *)
Definition diff_at_0 : string :=
  PyStr.join PyStr.LF ["--- a/f.txt"; "+++ b/f.txt"; "@@ -0,1 +1,1 @@"; " x"; ""].

(** A patch that creates [new/sub/g.txt] from two hunks, and the text
    of the file. *)
Definition new_file : FilePatch :=
  mkFilePatch "" "new/sub/g.txt"
    [mkHunk 0 0 1 2 [mkHunkLine "+" "x"; mkHunkLine "+" "y"];
     mkHunk 5 1 3 1 [mkHunkLine "-" "gone"; mkHunkLine " " "z"]].

Definition xyz : string :=
  "x" +:+ PyStr.LF +:+ "y" +:+ PyStr.LF +:+ "z" +:+ PyStr.LF.

(** A patch that creates [g.txt] with a last line that is empty, and
    the diff that says so. *)
Definition blank_end : FilePatch :=
  mkFilePatch "" "g.txt" [mkHunk 0 0 1 2 [mkHunkLine "+" "x"; mkHunkLine "+" ""]].

Definition blank_end_diff : string :=
  PyStr.join PyStr.LF ["--- /dev/null"; "+++ b/g.txt"; "@@ -0,0 +1,2 @@"; "+x"; "+"; ""].

(** A patch that names as its new file the directory above
    [new/sub], which is not there yet, and the directory that its failed
    creation leaves. *)
Definition into_directory : FilePatch :=
  mkFilePatch "" "new/sub/.." [mkHunk 0 0 1 1 [mkHunkLine "+" "x"]].

Definition new_sub : Path.PurePath := Path.mkPath "/" ["srv"; "code"; "new"; "sub"].

(** A patch whose hunk keeps line 1, removes line 2 and adds an empty
    line. *)
Definition blank_for_b : FilePatch :=
  mkFilePatch "f.txt" "f.txt"
    [mkHunk 1 2 1 2 [mkHunkLine " " "a"; mkHunkLine "-" "b"; mkHunkLine "+" ""]].

End Scenario.

(** ** Vocabulary of the further properties *)

(** What identifies a row of the [files] table: all but its content. *)
Definition row_key (r : file_row) : Z * string * string :=
  (codebase_id r, rel_path r, language r).

Definition db_keys (db : DB) : list (Z * string * string) :=
  map row_key (files_table db).

(** The row is the one that [update_file_content] rewrites. *)
Definition row_matches (cid : Z) (rel : string) (r : file_row) : bool :=
  (codebase_id r =? cid) && String.eqb (rel_path r) rel.

(** A text without a line boundary: what [splitlines] returns as a line. *)
Fixpoint break_free (s : string) : bool :=
  match s with
  | EmptyString => true
  | String c s' => negb (PyStr.is_linebreak c) && break_free s'
  end.

(** The last character of a text. *)
Fixpoint last_char (s : string) : option ascii :=
  match s with
  | EmptyString => None
  | String c EmptyString => Some c
  | String _ s' => last_char s'
  end.

(** *** Diff text written from patches *)

(** The line of a diff that stands for a hunk line. *)
Definition render_line (hl : HunkLine) : string := op hl +:+ text hl.

(** The header of a hunk, with both counts, followed by [tail]. *)
Definition render_header (os oc ns nc : Z) (tail : string) : string :=
  "@@ -" +:+ PyStr.of_int os +:+ "," +:+ PyStr.of_int oc
  +:+ " +" +:+ PyStr.of_int ns +:+ "," +:+ PyStr.of_int nc +:+ " @@" +:+ tail.

(** The header without counts. *)
Definition render_short_header (os ns : Z) (tail : string) : string :=
  "@@ -" +:+ PyStr.of_int os +:+ " +" +:+ PyStr.of_int ns +:+ " @@" +:+ tail.

(** The four numbers that [parse_diff] takes from a header line, [None]
    for a line that the pattern does not match. *)
Definition header_numbers (line : string) : outcome (option (Z * Z * Z * Z)) :=
  match HunkHeader.re_match line with
  | Some (g1, g2, g3, g4) =>
      old_start ← PyStr.int g1;
      old_count ← HunkHeader.count_or_1 g2;
      new_start ← PyStr.int g3;
      new_count ← HunkHeader.count_or_1 g4;
      Returns (Some (old_start, old_count, new_start, new_count))
  | None => Returns None
  end.

(** A number that [str] writes with no more digits than [int] reads. *)
Definition readable (n : Z) : Prop :=
  Z.of_nat (String.length (PyStr.of_int n)) <= PyStr.int_max_str_digits.

(** One of the three operations. *)
Definition op_ok (hl : HunkLine) : bool :=
  String.eqb (op hl) " " || String.eqb (op hl) "+" || String.eqb (op hl) "-".

(** The lines of a hunk, of a patch and of a list of patches, and the
    text: every line followed by one terminator. *)
Definition render_hunk (h : Hunk) : list string :=
  render_header (old_start h) (old_count h) (new_start h) (new_count h) ""
  :: map render_line (lines h).

Definition render_path (pre p : string) : string :=
  if String.eqb p "" then "/dev/null" else pre +:+ p.

Definition render_patch (p : FilePatch) : list string :=
  ("--- " +:+ render_path "a/" (old_path p))
  :: ("+++ " +:+ render_path "b/" (new_path p))
  :: concat (map render_hunk (hunks p)).

Definition render_lines (ps : list FilePatch) : list string :=
  concat (map render_patch ps).

Definition render_diff (ps : list FilePatch) : string :=
  terminated_lines (render_lines ps).

(** What can be written and read back: a path without line boundary or
    tab that does not end with white space; a hunk with numbers from 0
    that [int] reads, the three operations, texts without line boundary,
    and the counts of its lines. *)
Fixpoint no_tab (s : string) : bool :=
  match s with
  | EmptyString => true
  | String c s' => negb (nat_of_ascii c =? 9)%nat && no_tab s'
  end.

Definition printable_path (p : string) : bool :=
  break_free p && no_tab p && String.eqb (PyStr.rstrip p) p.

Definition printable_line (hl : HunkLine) : bool :=
  op_ok hl && break_free (text hl).

Definition printable_hunk (h : Hunk) : Prop :=
  0 <= old_start h /\ 0 <= new_start h /\ hunk_counts_ok h
  /\ forallb printable_line (lines h) = true
  /\ readable (old_start h) /\ readable (old_count h)
  /\ readable (new_start h) /\ readable (new_count h).

Definition printable_patch (p : FilePatch) : Prop :=
  printable_path (old_path p) = true /\ printable_path (new_path p) = true
  /\ Forall printable_hunk (hunks p).

Module Written.

(** Two patches: a modification of two hunks and a creation. *)
Definition patches : list FilePatch :=
  [mkFilePatch "src/my file.py" "src/my file.py"
     [mkHunk 2 2 2 3 [mkHunkLine " " "x = 1"; mkHunkLine "-" "-- old";
                      mkHunkLine "+" "++ new"; mkHunkLine "+" ""];
      mkHunk 10 0 11 1 [mkHunkLine "+" "@@ -1 +1 @@"]];
   mkFilePatch "" "notes.md" [mkHunk 0 0 1 1 [mkHunkLine "+" "--- a/b"]]].

End Written.

(** ** Extracting the diff from a reply *)

(** The pattern of [extract_diff_from_response],
    [```(?:diff)?\s*\n(.*?)```] with [re.DOTALL].  After the opening
    fence and the optional [diff], the greedy [\s*] followed by [\n] ends
    at the last newline of the run of white space; no other way to match
    at a position succeeds where that one fails (the run holds no
    backquote, and [diff] is no white space). *)
Module Fence.

(** [\s*]: the longest run of white space, and what follows it. *)
Fixpoint span_space (s : string) : string * string :=
  match s with
  | EmptyString => (EmptyString, EmptyString)
  | String c s' =>
      if PyStr.is_space c then
        let '(w, r) := span_space s' in (String c w, r)
      else (EmptyString, s)
  end.

(** What follows the last newline of a run of white space. *)
Fixpoint after_last_newline (w : string) : option string :=
  match w with
  | EmptyString => None
  | String c w' =>
      match after_last_newline w' with
      | Some r => Some r
      | None => if (nat_of_ascii c =? 10)%nat then Some w' else None
      end
  end.

(** [(.*?)```]: the shortest text that a fence follows. *)
Fixpoint until_fence (s : string) : option string :=
  match s with
  | EmptyString => None
  | String c s' =>
      if PyStr.startswith s "```" then Some EmptyString
      else
        match until_fence s' with
        | Some g => Some (String c g)
        | None => None
        end
  end.

(** The pattern at the start of [s]: its group 1. *)
Definition match_at (s : string) : option string :=
  r ← HunkHeader.lit "```" s;
  let r1 := match HunkHeader.lit "diff" r with Some r' => r' | None => r end in
  let '(w, r2) := span_space r1 in
  tail ← after_last_newline w;
  until_fence (tail +:+ r2).

(** [re.search]: the first position at which the pattern matches. *)
Fixpoint search (s : string) : option string :=
  match match_at s with
  | Some g => Some g
  | None =>
      match s with
      | EmptyString => None
      | String _ s' => search s'
      end
  end.

End Fence.

(** The loop of the fallback: [in_diff] turns true at the first line that
    starts with [--- ] or [+++ ], and every line from there on is kept. *)
Fixpoint collect_diff_lines (in_diff : bool) (ls diff_lines : list string) : list string :=
  match ls with
  | [] => diff_lines
  | line :: rest =>
      let in_diff :=
        if PyStr.startswith line "--- " || PyStr.startswith line "+++ "
        then true else in_diff in
      if in_diff then collect_diff_lines in_diff rest (diff_lines ++ [line])
      else collect_diff_lines in_diff rest diff_lines
  end.

Definition extract_diff_from_response (response : string) : string :=
  match Fence.search response with
  | Some g => PyStr.strip g
  | None =>
      PyStr.strip (PyStr.join PyStr.LF (collect_diff_lines false (PyStr.splitlines response) []))
  end.

(** A text without a backquote. *)
Fixpoint no_backquote (s : string) : bool :=
  match s with
  | EmptyString => true
  | String c s' => negb (nat_of_ascii c =? 96)%nat && no_backquote s'
  end.

(** The lines from the first one that starts with a file marker. *)
Fixpoint from_first_marker (ls : list string) : list string :=
  match ls with
  | [] => []
  | line :: rest =>
      if PyStr.startswith line "--- " || PyStr.startswith line "+++ " then ls
      else from_first_marker rest
  end.

(** A text of white space only. *)
Fixpoint all_space (s : string) : bool :=
  match s with
  | EmptyString => true
  | String c s' => PyStr.is_space c && all_space s'
  end.

(** ** [indexer.py] *)

Module Indexer.

(** Extensions considered as source/config files *)
Definition SUPPORTED_EXTENSIONS : list string :=
  [".py"; ".js"; ".ts"; ".jsx"; ".tsx";
   ".java"; ".c"; ".cpp"; ".h"; ".cs";
   ".go"; ".rs"; ".rb"; ".php";
   ".html"; ".css"; ".scss"; ".sass";
   ".md"; ".json"; ".yaml"; ".yml";
   ".toml"; ".sh"; ".bat"; ".env";
   ".sql"; ".graphql"; ".proto"].

(** Directories to always skip *)
Definition SKIP_DIRS : list string :=
  ["node_modules"; ".git"; "__pycache__"; ".pytest_cache";
   "dist"; "build"; "out"; "venv"; ".venv"; "env";
   ".next"; ".nuxt"; "coverage"; ".turbo"; ".cache";
   "target"].

Definition MAX_CONTEXT_CHARS : Z := 300000.
Definition MAX_FILE_CHARS : Z := 50000.

(** [x in s] for a set or the keys of a dict of strings *)
Definition mem (x : string) (s : list string) : bool := existsb (String.eqb x) s.

(** [d.get(k)] *)
Fixpoint get {A : Type} (d : list (string * A)) (k : string) : option A :=
  match d with
  | [] => None
  | (k', v) :: d' => if String.eqb k' k then Some v else get d' k
  end.

Definition languages : list (string * string) :=
  [(".py", "python"); (".js", "javascript"); (".ts", "typescript");
   (".jsx", "jsx"); (".tsx", "tsx"); (".java", "java");
   (".c", "c"); (".cpp", "cpp"); (".h", "c");
   (".cs", "csharp"); (".go", "go"); (".rs", "rust");
   (".rb", "ruby"); (".php", "php"); (".html", "html");
   (".css", "css"); (".scss", "scss"); (".sh", "bash");
   (".bat", "batch"); (".sql", "sql"); (".md", "markdown");
   (".json", "json"); (".yaml", "yaml"); (".yml", "yaml");
   (".toml", "toml"); (".graphql", "graphql"); (".proto", "protobuf")].

Definition _detect_language (ext : string) : string :=
  match get languages ext with
  | Some l => l
  | None => "text"
  end.

(** The patterns of [_extract_symbols], by language. *)
Definition symbol_patterns : list (string * list string) :=
  [("python",
    ["^class\s+(\w+)";
     "^def\s+(\w+)";
     "^async\s+def\s+(\w+)"]);
   ("javascript",
    ["^(?:export\s+)?(?:async\s+)?function\s+(\w+)";
     "^(?:export\s+)?class\s+(\w+)";
     "^(?:export\s+)?const\s+(\w+)\s*=\s*(?:async\s+)?\("]);
   ("typescript",
    ["^(?:export\s+)?(?:async\s+)?function\s+(\w+)";
     "^(?:export\s+)?class\s+(\w+)";
     "^(?:export\s+)?interface\s+(\w+)";
     "^(?:export\s+)?type\s+(\w+)";
     "^(?:export\s+)?const\s+(\w+)\s*=\s*(?:async\s+)?\("]);
   ("java", ["^\s*(?:public|private|protected)?\s*(?:static\s+)?(?:\w+\s+)?(\w+)\s*\("]);
   ("go", ["^func\s+(?:\([\w\s*]+\)\s+)?(\w+)"]);
   ("rust", ["^(?:pub\s+)?fn\s+(\w+)"])].

(** One indexed file: the dict [{rel_path, content, language}]. *)
Record indexed_file : Type := mkIndexed {
  rel_path : string;
  content : string;
  language : string
}.

Section Symbols.

(** [re.match(pat, s)]: group 1 of a match of [pat] at the start of [s].
    The regular expressions of [re] are not modelled; the matcher is a
    parameter. *)
Variable re_match : string -> string -> option string.

(** The loop over the patterns, for one line. *)
Fixpoint match_patterns (patterns : list string) (line : string) (symbols : list string)
    : list string :=
  match patterns with
  | [] => symbols
  | pat :: rest =>
      match re_match pat (PyStr.strip line) with
      | Some g => match_patterns rest line (symbols ++ [g])
      | None => match_patterns rest line symbols
      end
  end.

Definition _extract_symbols (content language : string) : list string :=
  let patterns :=
    match get symbol_patterns language with
    | Some ps => ps
    | None => []
    end in
  let symbols :=
    fold_left (fun symbols line => match_patterns patterns line symbols)
      (PyStr.splitlines content) [] in
  firstn 30 symbols.

End Symbols.

(** *** Walking the directory tree *)

(** A directory tree: files, with what reading them gives, and
    directories, with their entries in the order in which [os.walk] lists
    them.  Symbolic links are not modelled. *)
#[warnings="-register-all"] Inductive entry : Type :=
| File (name : string) (text : outcome string)
| Dir (name : string) (children : list entry).

(** The text from the last dot of [s] on. *)
Fixpoint from_last_dot (s : string) : option string :=
  match s with
  | EmptyString => None
  | String c s' =>
      match from_last_dot s' with
      | Some t => Some t
      | None => if (nat_of_ascii c =? 46)%nat then Some s else None
      end
  end.

(** [Path(name).suffix]: [name[i:]] for the last dot [i], when
    [0 < i < len(name) - 1]. *)
Definition suffix (name : string) : string :=
  match name with
  | EmptyString => EmptyString
  | String _ rest =>
      match from_last_dot rest with
      | Some t => if (String.length t <=? 1)%nat then EmptyString else t
      | None => EmptyString
      end
  end.

(** [s.lower()] below code point 256. *)
Definition lower_char (c : ascii) : ascii :=
  let n := nat_of_ascii c in
  if (((65 <=? n) && (n <=? 90)) || ((192 <=? n) && (n <=? 214))
      || ((216 <=? n) && (n <=? 222)))%nat
  then ascii_of_nat (n + 32) else c.

Fixpoint lower (s : string) : string :=
  match s with
  | EmptyString => EmptyString
  | String c s' => String (lower_char c) (lower s')
  end.

(** [s.replace("\\", "/")] *)
Fixpoint replace_backslash (s : string) : string :=
  match s with
  | EmptyString => EmptyString
  | String c s' =>
      String (if (nat_of_ascii c =? 92)%nat then ascii_of_nat 47 else c)
             (replace_backslash s')
  end.

(** [sorted(filenames)], keeping with every name what reading the file
    gives. *)
Fixpoint insert_by_name (x : string * outcome string) (l : list (string * outcome string))
    : list (string * outcome string) :=
  match l with
  | [] => [x]
  | y :: l' => if String.leb (fst x) (fst y) then x :: l else y :: insert_by_name x l'
  end.

Definition sorted_by_name (l : list (string * outcome string))
    : list (string * outcome string) :=
  fold_right insert_by_name [] l.

(** [filenames]: the entries of a directory that are no directories. *)
Fixpoint filenames (children : list entry) : list (string * outcome string) :=
  match children with
  | [] => []
  | File name text :: rest => (name, text) :: filenames rest
  | Dir _ _ :: rest => filenames rest
  end.

(** A directory that the walk does not enter. *)
Definition pruned (d : string) : bool :=
  negb (negb (mem d SKIP_DIRS) && negb (PyStr.startswith d ".")).

(** [len(s)] *)
Definition len (s : string) : Z := Z.of_nat (String.length s).

(** The body of the loop over the files of a directory, [dir_rel] being
    the path of the directory relative to the root, with a final [/]
    unless it is the root. *)
Definition collect_file (dir_rel name : string) (text : outcome string)
    : list indexed_file :=
  let ext := lower (suffix name) in
  if negb (mem ext SUPPORTED_EXTENSIONS) then []
  else
    let rel_path := replace_backslash (dir_rel +:+ name) in
    match text with
    | Raises _ => []
    | Returns content =>
        let content :=
          if MAX_FILE_CHARS <? len content
          then String.substring 0 (Z.to_nat MAX_FILE_CHARS) content
               +:+ PyStr.LF +:+ "... [truncated]"
          else content in
        [mkIndexed rel_path content (_detect_language ext)]
    end.

Definition collect_files (dir_rel : string) (children : list entry) : list indexed_file :=
  flat_map (fun nt => collect_file dir_rel (fst nt) (snd nt))
    (sorted_by_name (filenames children)).

(** What the walk collects in an entry of a directory and below it. *)
Fixpoint walk_entry (dir_rel : string) (e : entry) : list indexed_file :=
  match e with
  | File _ _ => []
  | Dir name children =>
      if pruned name then []
      else
        let here := dir_rel +:+ name +:+ "/" in
        collect_files here children ++ flat_map (walk_entry here) children
  end.

(** [walk_codebase], on the entries of the root directory. *)
Definition walk_codebase (root : list entry) : list indexed_file :=
  collect_files "" root ++ flat_map (walk_entry "") root.

(** *** Building the context *)

Fixpoint no_slash (p : string) : bool :=
  match p with
  | EmptyString => true
  | String c p' => negb (nat_of_ascii c =? 47)%nat && no_slash p'
  end.

(** [Path(p).name]: what follows the last [/]. *)
Fixpoint path_name (p : string) : string :=
  match p with
  | EmptyString => EmptyString
  | String c p' =>
      if no_slash p' then (if (nat_of_ascii c =? 47)%nat then p' else p)
      else path_name p'
  end.

Section Context.

(** The matcher of [_extract_symbols], and the line that stands for the
    files left out (its dash is no code point of the model). *)
Variable re_match : string -> string -> option string.
Variable omitted_notice : string.

(** The lines of the symbol index for one file. *)
Definition symbol_lines (f : indexed_file) : list string :=
  match _extract_symbols re_match (content f) (language f) with
  | [] => []
  | symbols => ["### " +:+ rel_path f; PyStr.join ", " symbols]
  end.

(** The lines before the file contents. *)
Definition header_lines (root : string) (files : list indexed_file) : list string :=
  ["# Codebase: " +:+ path_name root;
   "Root path: " +:+ root;
   "Total indexed files: " +:+ PyStr.of_int (Z.of_nat (List.length files)) +:+ PyStr.LF;
   "## File Tree"]
  ++ map (fun f => "  " +:+ rel_path f) files
  ++ [""]
  ++ ["## Symbol Index"]
  ++ flat_map symbol_lines files
  ++ [""]
  ++ ["## File Contents"].

(** The block of one file. *)
Definition block (f : indexed_file) : string :=
  PyStr.LF +:+ "### " +:+ rel_path f +:+ PyStr.LF +:+ "```" +:+ language f +:+ PyStr.LF
  +:+ content f +:+ PyStr.LF +:+ "```".

(** The loop over the files, within the budget. *)
Fixpoint add_blocks (files : list indexed_file) (lines : list string) (total_chars : Z)
    : list string :=
  match files with
  | [] => lines
  | f :: rest =>
      if MAX_CONTEXT_CHARS <? total_chars + len (block f)
      then lines ++ [omitted_notice]
      else add_blocks rest (lines ++ [block f]) (total_chars + len (block f))
  end.

Definition build_context (root : string) (files : list indexed_file) : string :=
  let lines := header_lines root files in
  let total_chars := len (PyStr.join PyStr.LF lines) in
  PyStr.join PyStr.LF (add_blocks files lines total_chars).

End Context.

(** The files that the walk meets: [file_at children dir_rel name text]
    says that a file [name], which reads as [text], lies in the directory
    [dir_rel] (relative to the root, with a final [/], empty for the root
    itself) of the tree with entries [children], no directory on the way
    down being pruned. *)
Inductive file_at : list entry -> string -> string -> outcome string -> Prop :=
| file_here (children : list entry) (name : string) (text : outcome string) :
    In (File name text) children ->
    file_at children "" name text
| file_below (children : list entry) (d : string) (kids : list entry)
    (dir_rel name : string) (text : outcome string) :
    In (Dir d kids) children ->
    pruned d = false ->
    file_at kids dir_rel name text ->
    file_at children (d +:+ "/" +:+ dir_rel) name text.

(** The sum of the lengths of the blocks of the files. *)
Definition blocks_len (files : list indexed_file) : Z :=
  fold_right (fun f n => len (block f) + n) 0 files.

(** A small tree. *)
Definition sample_tree : list entry :=
  [File "b.PY" (Returns "def g(): pass");
   File ".env" (Returns "KEY=1");
   File "notes.txt" (Returns "hello");
   Dir "node_modules" [File "x.js" (Returns "skip me")];
   Dir "src" [File "a.py" (Returns "def f(): pass"); File "locked.py" (Raises (OSError "denied"));
              Dir ".hidden" [File "h.py" (Returns "x")]];
   File "a.md" (Returns "# title")].

End Indexer.

Module Extra.

(** A patch written against [old.txt], renamed to [new.txt]; only the
    old file is on the disk. *)
Definition renamed : FilePatch := mkFilePatch "old.txt" "new.txt" [Scenario.hunk].

Definition old_disk : Disk :=
  mkDisk {[ ["srv"] := Directory; ["srv"; "code"] := Directory;
            ["srv"; "code"; "old.txt"] := RegularFile Scenario.abc ]}
    ∅ ∅ ∅ ∅ ∅ Scenario.strerror.

(** A database with a row for each of the two names. *)
Definition two_rows : DB :=
  mkDB [mkRow 1 "old.txt" Scenario.abc "text"; mkRow 1 "new.txt" "" "text";
        mkRow 2 "f.txt" "other" "text"] None.

(** The diff of the scenario with a first header number of 4301 digits. *)
Definition long_number : string := String.concat "" (repeat "1" 4301).

Definition long_number_diff : string :=
  PyStr.join PyStr.LF
    ["--- a/f.txt"; "+++ b/f.txt"; "@@ -" +:+ long_number +:+ ",3 +1,3 @@";
     " a"; "-b"; "+B"; " c"; ""].

End Extra.

(** * Properties *)

(** ** Helper lemmas: Python lists *)

Lemma index_some_iff {A} (l : list A) (i : Z) :
  is_Some (PyList.index l i) <-> - Z.of_nat (List.length l) <= i < Z.of_nat (List.length l).
Proof.
  unfold PyList.index.
  destruct (Z.ltb_spec i 0) as [Hn|Hn].
  - destruct (Z.ltb_spec (Z.of_nat (List.length l) + i) 0) as [Hm|Hm].
    + split; [intros [x Hx]; discriminate | lia].
    + split; [lia |]. intros _.
      destruct (nth_error l (Z.to_nat (Z.of_nat (List.length l) + i))) eqn:E; [eauto |].
      apply nth_error_None in E. lia.
  - split.
    + intros [x Hx]. assert (Hs : nth_error l (Z.to_nat i) <> None) by congruence.
      apply nth_error_Some in Hs. lia.
    + intros H. destruct (nth_error l (Z.to_nat i)) eqn:E; [eauto |].
      apply nth_error_None in E. lia.
Qed.

Lemma index_nonneg {A} (l : list A) (i : Z) :
  0 <= i -> PyList.index l i = nth_error l (Z.to_nat i).
Proof.
  intros H. unfold PyList.index. destruct (Z.ltb_spec i 0); [lia | reflexivity].
Qed.

Lemma slice_to_nonneg {A} (l : list A) (i : Z) :
  0 <= i -> PyList.slice_to l i = firstn (Z.to_nat i) l.
Proof.
  intros H. unfold PyList.slice_to, PyList.bound.
  destruct (Z.ltb_spec i 0); [lia |].
  destruct (Nat.le_ge_cases (Z.to_nat i) (List.length l)) as [Hle|Hge].
  - rewrite Nat.min_l by assumption. reflexivity.
  - rewrite Nat.min_r by assumption.
    rewrite !firstn_all2; [reflexivity | assumption | lia].
Qed.

Lemma slice_from_nonneg {A} (l : list A) (i : Z) :
  0 <= i -> PyList.slice_from l i = skipn (Z.to_nat i) l.
Proof.
  intros H. unfold PyList.slice_from, PyList.bound.
  destruct (Z.ltb_spec i 0); [lia |].
  destruct (Nat.le_ge_cases (Z.to_nat i) (List.length l)) as [Hle|Hge].
  - rewrite Nat.min_l by assumption. reflexivity.
  - rewrite Nat.min_r by assumption.
    rewrite !skipn_all2; [reflexivity | assumption | lia].
Qed.

(** ** Helper lemmas: the walk over the lines of a hunk *)

Lemma is_old_context (hl : HunkLine) : String.eqb (op hl) " " = true -> is_old hl = true.
Proof. intros H. unfold is_old. rewrite H. reflexivity. Qed.

Lemma is_old_remove (hl : HunkLine) : String.eqb (op hl) "-" = true -> is_old hl = true.
Proof. intros H. unfold is_old. rewrite H. apply orb_true_r. Qed.

Lemma is_old_other (hl : HunkLine) :
  String.eqb (op hl) " " = false -> String.eqb (op hl) "-" = false -> is_old hl = false.
Proof. intros H1 H2. unfold is_old. rewrite H1, H2. reflexivity. Qed.

Lemma old_extent_cons (hl : HunkLine) (ls : list HunkLine) :
  old_extent (hl :: ls) = ((if is_old hl then 1 else 0) + old_extent ls)%nat.
Proof. unfold old_extent. simpl. destruct (is_old hl); reflexivity. Qed.

Lemma old_extent_app (l1 l2 : list HunkLine) :
  old_extent (l1 ++ l2) = (old_extent l1 + old_extent l2)%nat.
Proof. unfold old_extent. rewrite List.filter_app, length_app. reflexivity. Qed.

Section Walk.

(** The buffer that the hunk is applied to. *)
Variable buf : list string.

Lemma apply_hunk_lines_agree (l1 l2 : list HunkLine) :
  Forall2 line_agree l1 l2 ->
  forall res idx, apply_hunk_lines buf l1 res idx = apply_hunk_lines buf l2 res idx.
Proof.
  induction 1 as [|a b l1 l2 [Hop Htxt] _ IH]; intros res idx; [reflexivity |].
  simpl. rewrite <- Hop.
  destruct (String.eqb (op a) " ") eqn:Ec.
  { destruct (Z.of_nat (List.length buf) <=? idx); [reflexivity |].
    destruct (PyList.index buf idx); [apply IH | reflexivity]. }
  destruct (String.eqb (op a) "-") eqn:Er.
  { destruct (Z.of_nat (List.length buf) <=? idx); [reflexivity | apply IH]. }
  destruct (String.eqb (op a) "+"); [| apply IH].
  destruct Htxt as [Hold | ->]; [| apply IH].
  rewrite (is_old_other a Ec Er) in Hold. discriminate.
Qed.

(** The walk reports a mismatch exactly when it meets a Context or Remove
    entry with the cursor at or past the end, no earlier Context entry
    having raised. *)
Lemma apply_hunk_lines_none (ls : list HunkLine) :
  forall res idx,
    apply_hunk_lines buf ls res idx = Returns None <->
    exists k hl,
      nth_error ls k = Some hl /\ is_old hl = true
      /\ Z.of_nat (List.length buf) <= idx + Z.of_nat (old_extent (firstn k ls))
      /\ forall j hl', (j < k)%nat -> nth_error ls j = Some hl' -> op hl' = " " ->
                       - Z.of_nat (List.length buf) <= idx + Z.of_nat (old_extent (firstn j ls)).
Proof.
  induction ls as [|hl rest IH]; intros res idx.
  { simpl. split; [discriminate |]. intros (k & hl & Hk & _). destruct k; discriminate. }
  (* what the tail contributes, for an entry that moves the cursor by [d] *)
  assert (Hshift : forall (d : Z) res',
    d = Z.of_nat (if is_old hl then 1 else 0) ->
    (is_old hl = true -> Z.of_nat (List.length buf) > idx) ->
    (op hl = " " -> - Z.of_nat (List.length buf) <= idx) ->
    (apply_hunk_lines buf rest res' (idx + d) = Returns None <->
     exists k hl0,
       nth_error (hl :: rest) k = Some hl0 /\ is_old hl0 = true
       /\ Z.of_nat (List.length buf) <= idx + Z.of_nat (old_extent (firstn k (hl :: rest)))
       /\ forall j hl', (j < k)%nat -> nth_error (hl :: rest) j = Some hl' -> op hl' = " " ->
            - Z.of_nat (List.length buf)
            <= idx + Z.of_nat (old_extent (firstn j (hl :: rest))))).
  { intros d res' Hd Hin Hlow. rewrite IH. split.
    - intros (k & hl0 & Hk & Ho & Hge & Hprev).
      exists (S k), hl0. split; [exact Hk |]. split; [exact Ho |].
      split.
      + simpl firstn. rewrite old_extent_cons. lia.
      + intros [|j] hl' Hj Hnth Hop.
        * simpl in Hnth. injection Hnth as Heq. subst hl'. specialize (Hlow Hop).
          simpl. unfold old_extent. simpl. lia.
        * simpl firstn. rewrite old_extent_cons. simpl in Hnth.
          specialize (Hprev j hl' ltac:(lia) Hnth Hop). lia.
    - intros (k & hl0 & Hk & Ho & Hge & Hprev).
      destruct k as [|k].
      + simpl in Hk. injection Hk as Heq. subst hl0. simpl in Hge.
        unfold old_extent in Hge. simpl in Hge. specialize (Hin Ho). lia.
      + exists k, hl0. split; [exact Hk |]. split; [exact Ho |].
        simpl firstn in Hge. rewrite old_extent_cons in Hge.
        split; [lia |].
        intros j hl' Hj Hnth Hop.
        specialize (Hprev (S j) hl' ltac:(lia) Hnth Hop).
        simpl firstn in Hprev. rewrite old_extent_cons in Hprev. lia. }
  assert (Hfirst : Z.of_nat (List.length buf) <= idx -> is_old hl = true ->
    exists k hl0,
       nth_error (hl :: rest) k = Some hl0 /\ is_old hl0 = true
       /\ Z.of_nat (List.length buf) <= idx + Z.of_nat (old_extent (firstn k (hl :: rest)))
       /\ forall j hl', (j < k)%nat -> nth_error (hl :: rest) j = Some hl' -> op hl' = " " ->
            - Z.of_nat (List.length buf)
            <= idx + Z.of_nat (old_extent (firstn j (hl :: rest)))).
  { intros Hge Ho. exists 0%nat, hl. split; [reflexivity |]. split; [exact Ho |].
    split; [simpl; unfold old_extent; simpl; lia |]. intros j hl' Hj. lia. }
  simpl apply_hunk_lines.
  destruct (String.eqb (op hl) " ") eqn:Ec.
  { pose proof (is_old_context hl Ec) as Ho.
    apply String.eqb_eq in Ec.
    destruct (Z.leb_spec (Z.of_nat (List.length buf)) idx) as [Hge|Hlt].
    { split; [intros _; apply Hfirst; assumption | reflexivity]. }
    destruct (PyList.index buf idx) as [x|] eqn:Ei.
    - assert (Hs : is_Some (PyList.index buf idx)) by (rewrite Ei; eauto).
      apply index_some_iff in Hs.
      apply Hshift; [rewrite Ho; reflexivity | lia | lia].
    - split; [discriminate |].
      intros (k & hl0 & Hk & Ho0 & Hge & Hprev). exfalso.
      assert (Hn : ~ is_Some (PyList.index buf idx)) by (rewrite Ei; intros [? ?]; discriminate).
      rewrite index_some_iff in Hn.
      destruct k as [|k].
      + simpl in Hge. unfold old_extent in Hge. simpl in Hge. lia.
      + specialize (Hprev 0%nat hl ltac:(lia) eq_refl Ec).
        simpl in Hprev. unfold old_extent in Hprev. simpl in Hprev. lia. }
  destruct (String.eqb (op hl) "-") eqn:Er.
  { pose proof (is_old_remove hl Er) as Ho.
    assert (Hnc : op hl <> " ") by (intros E; rewrite E in Ec; discriminate).
    destruct (Z.leb_spec (Z.of_nat (List.length buf)) idx) as [Hge|Hlt].
    { split; [intros _; apply Hfirst; assumption | reflexivity]. }
    apply Hshift; [rewrite Ho; reflexivity | lia | intros E; contradiction]. }
  pose proof (is_old_other hl Ec Er) as Ho.
  assert (Hnc : op hl <> " ") by (intros E; rewrite E in Ec; discriminate).
  destruct (String.eqb (op hl) "+").
  - rewrite <- (Z.add_0_r idx) at 1.
    apply Hshift; [rewrite Ho; reflexivity | rewrite Ho; discriminate | intros E; contradiction].
  - rewrite <- (Z.add_0_r idx) at 1.
    apply Hshift; [rewrite Ho; reflexivity | rewrite Ho; discriminate | intros E; contradiction].
Qed.

Lemma apply_hunk_none_iff (h : Hunk) :
  _apply_hunk buf h = Returns None <->
  apply_hunk_lines buf (lines h) (PyList.slice_to buf (old_start h - 1)) (old_start h - 1)
  = Returns None.
Proof.
  unfold _apply_hunk.
  destruct (apply_hunk_lines buf (lines h) _ _) as [[[r i]|]|e];
    split; intros H; try discriminate; reflexivity.
Qed.

(** A body of Add entries only: the walk emits their texts and leaves the
    cursor where it was. *)
Lemma apply_hunk_lines_adds (ls : list HunkLine) :
  Forall (fun hl => op hl = "+") ls ->
  forall res idx,
    apply_hunk_lines buf ls res idx = Returns (Some (res ++ map text ls, idx)).
Proof.
  induction 1 as [|hl rest Hop _ IH]; intros res idx; simpl.
  - rewrite app_nil_r. reflexivity.
  - rewrite Hop. simpl. rewrite IH, <- app_assoc. reflexivity.
Qed.

End Walk.

(** ** Helper lemmas: the loop over the hunks and the modification branch *)

Lemma apply_hunks_app (pre rest : list Hunk) :
  forall ls buf,
    apply_hunks pre ls = Returns (inr buf) ->
    apply_hunks (pre ++ rest) ls = apply_hunks rest buf.
Proof.
  induction pre as [|h pre IH]; intros ls buf H; simpl in *.
  - injection H as ->. reflexivity.
  - destruct (_apply_hunk ls h) as [[ls'|]|e]; try discriminate.
    apply IH. exact H.
Qed.

Lemma target_rel_nonempty (patch : FilePatch) :
  old_path patch <> "" -> String.eqb (target_rel patch) "" = false.
Proof.
  intros H. unfold target_rel.
  destruct (String.eqb (new_path patch) "") eqn:E; [| exact E].
  apply String.eqb_neq. exact H.
Qed.

(** What [apply_patch] does once the file to modify is found and read. *)
Lemma apply_patch_located (patch : FilePatch) (root : string) (fs : Disk)
    (p : Path.PurePath) (rel original : string) :
  old_path patch <> "" ->
  locate patch root fs = Returns (Some (p, rel)) ->
  Path.read_text p fs = Returns original ->
  apply_patch patch root fs =
  match apply_hunks (rev (hunks patch)) (PyStr.splitlines original) with
  | Raises e => (Raises e, fs)
  | Returns (inl hunk) =>
      (Returns (false,
                "Hunk mismatch in " +:+ rel +:+ " at line "
                +:+ PyStr.of_int (old_start hunk) +:+ ". Patch may be stale."),
       fs)
  | Returns (inr file_lines) =>
      match Path.write_text p (patched_content file_lines) fs with
      | (Raises e, fs1) => (Raises e, fs1)
      | (Returns _, fs1) => (Returns (true, "Patched: " +:+ rel), fs1)
      end
  end.
Proof.
  intros Hold Hloc Hread. unfold apply_patch.
  rewrite (target_rel_nonempty patch Hold).
  apply String.eqb_neq in Hold. rewrite Hold, Hloc, Hread. reflexivity.
Qed.

(** ** Helper lemmas: the tree *)

(** A path that names something reaches its place. *)
Lemma lookup_inr (fs : Disk) (p : Path.PurePath) (k : list string) (n : node) :
  Path.lookup fs p = inr (k, n) <->
  Path.reach fs p = inr k /\ Path.node_at fs k = Some n.
Proof.
  unfold Path.lookup. destruct (Path.reach fs p) as [e|k'].
  - split; [discriminate | intros [H _]; discriminate].
  - destruct (Path.node_at fs k') as [n'|] eqn:E.
    + split.
      * intros H. injection H as <- <-. auto.
      * intros [H1 H2]. injection H1 as <-. rewrite E in H2. injection H2 as <-. reflexivity.
    + split; [discriminate |].
      intros [H1 H2]. injection H1 as <-. rewrite E in H2. discriminate.
Qed.

Lemma walk_kind (fs fs' : Disk) :
  (forall k, Path.kind (Path.node_at fs' k) = Path.kind (Path.node_at fs k)) ->
  forall p cur, Path.walk fs' cur p = Path.walk fs cur p.
Proof.
  intros Hk. induction p as [|c p IH]; intros cur; [reflexivity |].
  cbn [Path.walk]. specialize (Hk cur).
  destruct (Path.node_at fs' cur) as [[t'|]|], (Path.node_at fs cur) as [[t|]|];
    try discriminate; try reflexivity.
  apply IH.
Qed.

Lemma node_at_put (fs : Disk) (k k' : list string) (n : node) :
  k <> [] ->
  Path.node_at (Path.put k n fs) k' = if decide (k' = k) then Some n else Path.node_at fs k'.
Proof.
  intros Hk. unfold Path.node_at, Path.put. cbn [nodes].
  destruct k' as [|c k'].
  - destruct (decide ([] = k)) as [E|_]; [congruence | reflexivity].
  - destruct (decide (c :: k' = k)) as [->|Hne].
    + apply lookup_insert_eq.
    + apply lookup_insert_ne. congruence.
Qed.

(** The text of a file replaced: every path names the place it named. *)
Lemma reach_put_file (fs : Disk) (k : list string) (t0 t : string) :
  Path.node_at fs k = Some (RegularFile t0) ->
  forall p, Path.reach (Path.put k (RegularFile t) fs) p = Path.reach fs p.
Proof.
  intros Hk p. unfold Path.reach. apply walk_kind. intros k'.
  assert (Hne : k <> []) by (intros ->; discriminate Hk).
  rewrite node_at_put by exact Hne.
  destruct (decide (k' = k)) as [->|_]; [rewrite Hk |]; reflexivity.
Qed.

Lemma lookup_put_file (fs : Disk) (k : list string) (t0 t : string) (p : Path.PurePath) :
  Path.node_at fs k = Some (RegularFile t0) ->
  Path.lookup (Path.put k (RegularFile t) fs) p
  = match Path.lookup fs p with
    | inr (k', n) => inr (k', if decide (k' = k) then RegularFile t else n)
    | inl e => inl e
    end.
Proof.
  intros Hk. unfold Path.lookup. rewrite (reach_put_file fs k t0 t Hk).
  destruct (Path.reach fs p) as [e|k']; [reflexivity |].
  assert (Hne : k <> []) by (intros ->; discriminate Hk).
  rewrite node_at_put by exact Hne.
  destruct (Path.node_at fs k') as [n|] eqn:E; repeat case_decide; subst;
    try reflexivity; try congruence.
Qed.

(** A file that is there, at the target path. *)
Lemma locate_target (patch : FilePatch) (root : string) (fs : Disk)
    (k : list string) (n : node) :
  Path.lookup fs (abs_path root (target_rel patch)) = inr (k, n) ->
  stat_err fs !! Path.str (abs_path root (target_rel patch)) = None ->
  locate patch root fs
  = Returns (Some (abs_path root (target_rel patch), target_rel patch)).
Proof. intros H Hs. unfold locate, Path.exists_. rewrite Hs, H. reflexivity. Qed.

(** A file that may be read and written. *)
Lemma read_text_stored (p : Path.PurePath) (k : list string) (t : string) (fs : Disk) :
  Path.lookup fs p = inr (k, RegularFile t) -> read_err fs !! Path.str p = None ->
  Path.read_text p fs = Returns (PyStr.universal_newlines t).
Proof. intros Hf Hr. unfold Path.read_text. rewrite Hr, Hf. reflexivity. Qed.

(** A path that is read names a regular file. *)
Lemma read_text_returns (p : Path.PurePath) (original : string) (fs : Disk) :
  Path.read_text p fs = Returns original ->
  exists k t, Path.lookup fs p = inr (k, RegularFile t)
              /\ original = PyStr.universal_newlines t
              /\ read_err fs !! Path.str p = None.
Proof.
  unfold Path.read_text. intros H.
  destruct (read_err fs !! Path.str p); [discriminate H |].
  destruct (Path.lookup fs p) as [e|[k [t|]]]; try discriminate H.
  injection H as <-. eauto.
Qed.

Lemma write_text_stored (p : Path.PurePath) (k : list string) (t content : string)
    (fs : Disk) :
  Path.lookup fs p = inr (k, RegularFile t) ->
  open_err fs !! Path.str p = None -> write_err fs !! Path.str p = None ->
  Path.write_text p content fs = (Returns tt, Path.put k (RegularFile content) fs).
Proof.
  intros Hf Ho Hw. apply lookup_inr in Hf as [Hres Hnode].
  unfold Path.write_text. rewrite Hres, Hnode, Ho, Hw. reflexivity.
Qed.

(** ** C5: the text of Context and Remove lines plays no part *)

(** C5. For every line buffer and every two hunks that are equal except in
    the text of their Context and Remove lines, [_apply_hunk] gives the
    same result: the same lines, the same mismatch, or the same error. *)
Theorem apply_hunk_ignores_old_text (buf : list string) (h1 h2 : Hunk) :
  hunk_agree h1 h2 -> _apply_hunk buf h1 = _apply_hunk buf h2.
Proof.
  intros (Hs & _ & _ & _ & Hl). unfold _apply_hunk.
  rewrite <- Hs. rewrite (apply_hunk_lines_agree buf _ _ Hl). reflexivity.
Qed.

Lemma apply_hunk_ignores_old_text_witness :
  hunk_agree Scenario.hunk
    (mkHunk 1 3 1 3
       [mkHunkLine " " "x"; mkHunkLine "-" "y"; mkHunkLine "+" "B"; mkHunkLine " " "z"])
  /\ _apply_hunk ["a"; "b"; "c"] Scenario.hunk
     = _apply_hunk ["a"; "b"; "c"]
         (mkHunk 1 3 1 3
            [mkHunkLine " " "x"; mkHunkLine "-" "y"; mkHunkLine "+" "B"; mkHunkLine " " "z"]).
Proof.
  assert (H : hunk_agree Scenario.hunk
    (mkHunk 1 3 1 3
       [mkHunkLine " " "x"; mkHunkLine "-" "y"; mkHunkLine "+" "B"; mkHunkLine " " "z"])).
  { unfold hunk_agree. simpl. repeat (split; [reflexivity |]).
    repeat (constructor; [unfold line_agree; simpl; split; [reflexivity | auto] |]).
    constructor. }
  split; [exact H | exact (apply_hunk_ignores_old_text _ _ _ H)].
Defined.

(** ** C10: when a hunk mismatches *)

(** C10. [_apply_hunk] reports a mismatch exactly when its walk meets a
    Context or Remove entry with the source cursor at or past the end of
    the buffer (the walk gets that far unless an earlier Context entry
    raised, which takes an [old_start] below 1).  A hunk of Add entries
    only always succeeds, and when its [old_start] lies beyond the end of
    the buffer its lines are appended after the existing content. *)
Theorem apply_hunk_mismatch_iff_overrun (buf : list string) (h : Hunk) :
  (_apply_hunk buf h = Returns None <->
   exists k, overrun_at buf h k /\ ~ raises_before buf h k)
  /\ (1 <= old_start h ->
      (_apply_hunk buf h = Returns None <-> exists k, overrun_at buf h k))
  /\ (Forall (fun hl => op hl = "+") (lines h) ->
      _apply_hunk buf h
      = Returns (Some (PyList.slice_to buf (old_start h - 1) ++ map text (lines h)
                       ++ PyList.slice_from buf (old_start h - 1)))
      /\ (Z.of_nat (List.length buf) <= old_start h - 1 ->
          _apply_hunk buf h = Returns (Some (buf ++ map text (lines h))))).
Proof.
  assert (H1 : _apply_hunk buf h = Returns None <->
               exists k, overrun_at buf h k /\ ~ raises_before buf h k).
  { rewrite apply_hunk_none_iff, apply_hunk_lines_none.
    unfold overrun_at, raises_before, cursor_at. split.
    - intros (k & hl & Hk & Ho & Hge & Hprev). exists k. split; [eauto |].
      intros (j & hl' & Hj & Hn & Hop & Hlt).
      specialize (Hprev j hl' Hj Hn Hop). lia.
    - intros (k & (hl & Hk & Ho & Hge) & Hno). exists k, hl.
      split; [exact Hk |]. split; [exact Ho |]. split; [exact Hge |].
      intros j hl' Hj Hn Hop.
      destruct (Z.le_gt_cases (- Z.of_nat (List.length buf))
                  (old_start h - 1 + Z.of_nat (old_extent (firstn j (lines h)))))
        as [Hle|Hgt]; [exact Hle |].
      exfalso. apply Hno. exists j, hl'.
      split; [exact Hj |]. split; [exact Hn |]. split; [exact Hop | lia]. }
  split; [exact H1 |]. split.
  - intros Hpos. rewrite H1. split.
    + intros (k & Ho & _). eauto.
    + intros (k & Ho). exists k. split; [exact Ho |].
      intros (j & hl' & _ & _ & _ & Hlt). unfold cursor_at in Hlt. lia.
  - intros Hadd.
    assert (E : _apply_hunk buf h
      = Returns (Some (PyList.slice_to buf (old_start h - 1) ++ map text (lines h)
                       ++ PyList.slice_from buf (old_start h - 1)))).
    { unfold _apply_hunk. rewrite (apply_hunk_lines_adds buf _ Hadd).
      rewrite <- app_assoc. reflexivity. }
    split; [exact E |].
    intros Hend. rewrite E.
    rewrite slice_to_nonneg, slice_from_nonneg by lia.
    rewrite firstn_all2, skipn_all2 by lia.
    rewrite app_nil_r. reflexivity.
Qed.

Lemma apply_hunk_mismatch_iff_overrun_witness :
  _apply_hunk ["a"; "b"] Scenario.hunk = Returns None
  /\ _apply_hunk ["a"] (mkHunk 7 0 7 2 [mkHunkLine "+" "y"; mkHunkLine "+" "z"])
     = Returns (Some ["a"; "y"; "z"]).
Proof.
  split.
  - destruct (apply_hunk_mismatch_iff_overrun ["a"; "b"] Scenario.hunk) as (_ & H & _).
    apply (proj2 (H ltac:(simpl; lia))).
    exists 3%nat, (mkHunkLine " " "c").
    split; [reflexivity |]. split; [reflexivity |]. vm_compute. discriminate.
  - destruct (apply_hunk_mismatch_iff_overrun ["a"]
                (mkHunk 7 0 7 2 [mkHunkLine "+" "y"; mkHunkLine "+" "z"])) as (_ & _ & H).
    apply H; [repeat constructor | simpl; lia].
Defined.

(** ** C1: the scenario of the three-line file *)

(** C1. On a disk whose file [f.txt] reads ["a\nb\nc\n"] and may be read
    and written, applying the diff with the one hunk [@@ -1,3 +1,3 @@],
    [" a"], ["-b"], ["+B"], [" c"] leaves the file with exactly
    ["a\nB\nc\n"] and returns one success entry, whose message names the
    file. *)
Theorem apply_diff_scenario_abc (fs : Disk) (db : DB) (cid : Z) (k : list string) :
  Path.lookup fs Scenario.target = inr (k, RegularFile Scenario.abc) ->
  stat_err fs !! Path.str Scenario.target = None ->
  read_err fs !! Path.str Scenario.target = None ->
  open_err fs !! Path.str Scenario.target = None ->
  write_err fs !! Path.str Scenario.target = None ->
  exists fs' db',
    apply_diff_to_codebase Scenario.diff Scenario.root cid fs db
    = (Returns [(true, "Patched: f.txt")], fs', db')
    /\ fs' = Path.put k (RegularFile Scenario.aBc) fs
    /\ Path.lookup fs' Scenario.target = inr (k, RegularFile Scenario.aBc).
Proof.
  intros Hf Hs Hr Ho Hw.
  assert (Hp : apply_patch Scenario.patch Scenario.root fs
               = (Returns (true, "Patched: f.txt"),
                  Path.put k (RegularFile Scenario.aBc) fs)).
  { rewrite (apply_patch_located _ _ _ Scenario.target "f.txt" Scenario.abc).
    - change (apply_hunks (rev (hunks Scenario.patch)) (PyStr.splitlines Scenario.abc))
        with (@Returns (Hunk + list string) (inr ["a"; "B"; "c"])).
      cbv beta iota.
      change (patched_content ["a"; "B"; "c"]) with Scenario.aBc.
      rewrite (write_text_stored _ _ _ _ _ Hf Ho Hw). reflexivity.
    - discriminate.
    - exact (locate_target Scenario.patch Scenario.root fs k _ Hf Hs).
    - exact (read_text_stored _ _ _ _ Hf Hr). }
  unfold apply_diff_to_codebase.
  replace (parse_diff Scenario.diff) with (Returns [Scenario.patch])
    by (vm_compute; reflexivity).
  cbn [apply_patches]. rewrite Hp. cbn [app].
  eexists _, _. split; [reflexivity |]. split; [reflexivity |].
  apply lookup_inr in Hf as Hf'. destruct Hf' as [_ Hnode].
  rewrite (lookup_put_file fs k _ _ _ Hnode), Hf.
  destruct (decide (k = k)); [reflexivity | congruence].
Qed.

Lemma apply_diff_scenario_abc_witness :
  exists fs' db',
    apply_diff_to_codebase Scenario.diff Scenario.root 1
      (Scenario.disk Scenario.abc) Scenario.no_db
    = (Returns [(true, "Patched: f.txt")], fs', db')
    /\ fs' = Path.put Scenario.place (RegularFile Scenario.aBc) (Scenario.disk Scenario.abc)
    /\ Path.lookup fs' Scenario.target = inr (Scenario.place, RegularFile Scenario.aBc).
Proof.
  apply (apply_diff_scenario_abc (Scenario.disk Scenario.abc) Scenario.no_db 1
           Scenario.place);
    vm_compute; reflexivity.
Defined.

(** ** C3: a mismatch leaves the file alone *)



(** ** C6: a refused write in the modification branch is not caught *)

(** The creation branch reports what its write raises as a failure
    entry. *)
Lemma creation_reports_refused_write (patch : FilePatch) (root : string)
    (fs fs1 fs2 : Disk) (e : exc) :
  old_path patch = "" -> new_path patch <> "" ->
  Path.mkdir (Path.parent (abs_path root (new_path patch))) fs = (Returns tt, fs1) ->
  Path.write_text (abs_path root (new_path patch)) (created_content (hunks patch)) fs1
  = (Raises e, fs2) ->
  apply_patch patch root fs
  = (Returns (false, "Failed to create " +:+ new_path patch +:+ ": " +:+ exc_str e), fs2).
Proof.
  intros Ho Hn Hm Hw. unfold apply_patch, target_rel.
  apply String.eqb_neq in Hn. rewrite Hn, Ho. cbn [String.eqb].
  rewrite Hm, Hw, ?Hn. reflexivity.
Qed.

(** C6. Evaluation at the failing input: the file of the scenario is
    read-only, the write of the modification branch raises, and the error
    leaves [apply_diff_to_codebase] instead of becoming a failure entry. *)
Theorem apply_diff_raises_on_refused_write :
  apply_diff_to_codebase Scenario.diff Scenario.root 1
    (Scenario.read_only_disk Scenario.abc) Scenario.no_db
  = (Raises (OSError "[Errno 13] Permission denied: '/srv/code/f.txt'"),
     Scenario.read_only_disk Scenario.abc, Scenario.no_db).
Proof. vm_compute. reflexivity. Qed.

(** A second error that leaves [apply_diff_to_codebase]: a hunk at line 0
    makes [_apply_hunk] index an empty file at [-1]. *)
Lemma apply_diff_raises_on_index_before_start :
  apply_diff_to_codebase Scenario.diff_at_0 Scenario.root 1
    (Scenario.disk "") Scenario.no_db
  = (Raises IndexError, Scenario.disk "", Scenario.no_db).
Proof. vm_compute. reflexivity. Qed.

(** ** C7: creating a file *)

Lemma append_nil_r (s : string) : s +:+ "" = s.
Proof. induction s as [|a s IH]; [reflexivity |]. change (String a (s +:+ "") = String a s). rewrite IH. reflexivity. Qed.

Lemma append_assoc (s1 s2 s3 : string) : (s1 +:+ s2) +:+ s3 = s1 +:+ (s2 +:+ s3).
Proof.
  induction s1 as [|a s1 IH]; [reflexivity |].
  change (String a ((s1 +:+ s2) +:+ s3) = String a (s1 +:+ (s2 +:+ s3))).
  rewrite IH. reflexivity.
Qed.

Lemma terminated_lines_app (l1 l2 : list string) :
  terminated_lines (l1 ++ l2) = terminated_lines l1 +:+ terminated_lines l2.
Proof.
  induction l1 as [|t l1 IH]; [reflexivity |].
  simpl. rewrite IH, !append_assoc. reflexivity.
Qed.

(** The texts joined with single terminators, and one terminator at the
    end. *)
Lemma terminated_lines_join (texts : list string) :
  texts <> [] -> terminated_lines texts = PyStr.join PyStr.LF texts +:+ PyStr.LF.
Proof.
  induction texts as [|t texts IH]; [congruence |]. intros _.
  destruct texts as [|t' texts].
  - simpl. reflexivity.
  - change (terminated_lines (t :: t' :: texts))
      with (t +:+ PyStr.LF +:+ terminated_lines (t' :: texts)).
    rewrite IH by discriminate.
    change (PyStr.join PyStr.LF (t :: t' :: texts))
      with (t +:+ PyStr.LF +:+ PyStr.join PyStr.LF (t' :: texts)).
    rewrite !append_assoc. reflexivity.
Qed.

(** The inner loop of the creation branch. *)
Lemma created_lines_fold (ls : list HunkLine) :
  forall content,
    fold_left
      (fun content hl =>
         if String.eqb (op hl) "+" || String.eqb (op hl) " "
         then content +:+ text hl +:+ PyStr.LF
         else content)
      ls content
    = content +:+ terminated_lines (map text (List.filter is_new ls)).
Proof.
  induction ls as [|hl ls IH]; intros content; simpl.
  - rewrite append_nil_r. reflexivity.
  - rewrite IH. unfold is_new at 2.
    destruct (String.eqb (op hl) "+" || String.eqb (op hl) " "); [| reflexivity].
    simpl. rewrite !append_assoc. reflexivity.
Qed.

Lemma created_content_spec (hs : list Hunk) :
  created_content hs = terminated_lines (new_texts hs).
Proof.
  unfold created_content, new_texts.
  assert (H : forall content,
    fold_left
      (fun content hunk =>
         fold_left
           (fun content hl =>
              if String.eqb (op hl) "+" || String.eqb (op hl) " "
              then content +:+ text hl +:+ PyStr.LF
              else content)
           (lines hunk) content)
      hs content
    = content +:+ terminated_lines (map text (List.filter is_new (concat (map lines hs))))).
  { induction hs as [|h hs IH]; intros content; simpl.
    - rewrite append_nil_r. reflexivity.
    - rewrite IH, created_lines_fold, List.filter_app, map_app, terminated_lines_app.
      rewrite append_assoc. reflexivity. }
  rewrite H. reflexivity.
Qed.

(** *** Making the directories *)

Lemma with_dirs_from_snoc (p : list string) (c : string) :
  forall cur fs,
    Path.with_dirs_from cur (p ++ [c]) fs
    = Path.ensure_dir (Path.place_from cur (p ++ [c])) (Path.with_dirs_from cur p fs).
Proof.
  induction p as [|d p IH]; intros cur fs; [reflexivity |].
  cbn [app Path.with_dirs_from]. rewrite IH. reflexivity.
Qed.

Lemma same_refusals_refl (fs : Disk) : same_refusals fs fs.
Proof. repeat split. Qed.

Lemma dirs_made_refl (fs : Disk) : dirs_made fs fs.
Proof. split; [apply same_refusals_refl | intros k; left; reflexivity]. Qed.

Lemma dirs_made_trans (fs1 fs2 fs3 : Disk) :
  dirs_made fs1 fs2 -> dirs_made fs2 fs3 -> dirs_made fs1 fs3.
Proof.
  intros [(A1 & A2 & A3 & A4 & A5 & A6) N1] [(B1 & B2 & B3 & B4 & B5 & B6) N2]. split.
  - repeat split; congruence.
  - intros k. destruct (N1 k) as [E1|[E1 E1']], (N2 k) as [E2|[E2 E2']].
    + left. congruence.
    + right. split; congruence.
    + right. split; congruence.
    + congruence.
Qed.

Lemma dirs_made_ensure_dir (k : list string) (fs : Disk) :
  dirs_made fs (Path.ensure_dir k fs).
Proof.
  unfold Path.ensure_dir. destruct (Path.node_at fs k) as [n|] eqn:E;
    [apply dirs_made_refl |].
  assert (Hk : k <> []) by (intros ->; discriminate E).
  split; [repeat split |]. intros k'. rewrite node_at_put by exact Hk.
  case_decide; [subst; right; auto | left; reflexivity].
Qed.

Lemma dirs_made_with_dirs_from (p : list string) :
  forall cur fs, dirs_made fs (Path.with_dirs_from cur p fs).
Proof.
  induction p as [|c p IH]; intros cur fs; [apply dirs_made_refl |].
  cbn [Path.with_dirs_from].
  exact (dirs_made_trans _ _ _ (dirs_made_ensure_dir _ fs) (IH _ _)).
Qed.

Lemma dirs_made_kind (fs fs' : Disk) (k : list string) :
  dirs_made fs fs' -> Path.kind (Path.node_at fs k) <> Some false ->
  Path.kind (Path.node_at fs' k) <> Some false.
Proof.
  intros [_ N] H. destruct (N k) as [E|[_ E]]; rewrite E; [exact H | discriminate].
Qed.

Lemma dirs_made_directory (fs fs' : Disk) (k : list string) :
  dirs_made fs fs' -> Path.node_at fs k = Some Directory ->
  Path.node_at fs' k = Some Directory.
Proof. intros [_ N] H. destruct (N k) as [E|[E _]]; congruence. Qed.

(** Where nothing but directories is on the way, the walk arrives. *)
Lemma walk_directories (fs : Disk) (p : list string) :
  forall cur,
    (forall i, (i < List.length p)%nat ->
               Path.node_at fs (Path.place_from cur (firstn i p)) = Some Directory) ->
    Path.walk fs cur p = inr (Path.place_from cur p).
Proof.
  induction p as [|c p IH]; intros cur H; [reflexivity |].
  cbn [Path.walk]. pose proof (H 0%nat ltac:(simpl; lia)) as H0.
  change (Path.place_from cur (firstn 0 (c :: p))) with cur in H0. rewrite H0.
  apply IH. intros i Hi. exact (H (S i) ltac:(simpl; lia)).
Qed.

(** Where no file is on the way, the walk arrives, through directories,
    or finds that something is not there. *)
Lemma walk_no_file (fs : Disk) (p : list string) :
  forall cur,
    (forall i, (i < List.length p)%nat ->
               Path.kind (Path.node_at fs (Path.place_from cur (firstn i p))) <> Some false) ->
    Path.walk fs cur p = inl ENOENT
    \/ (Path.walk fs cur p = inr (Path.place_from cur p)
        /\ forall i, (i < List.length p)%nat ->
                     Path.node_at fs (Path.place_from cur (firstn i p)) = Some Directory).
Proof.
  induction p as [|c p IH]; intros cur H.
  - right. split; [reflexivity |]. intros i Hi. simpl in Hi. lia.
  - cbn [Path.walk]. pose proof (H 0%nat ltac:(simpl; lia)) as H0.
    change (Path.place_from cur (firstn 0 (c :: p))) with cur in H0.
    destruct (Path.node_at fs cur) as [[t|]|] eqn:E; [exfalso; apply H0; reflexivity | | left; reflexivity].
    destruct (IH (Path.step cur c)) as [Hno|[Hyes Hdirs]].
    + intros i Hi. exact (H (S i) ltac:(simpl; lia)).
    + left. exact Hno.
    + right. split; [exact Hyes |]. intros [|i] Hi; [exact E |].
      apply (Hdirs i). simpl in Hi. lia.
Qed.

Lemma with_dirs_from_id (fs : Disk) (p : list string) :
  forall cur,
    (forall i, (0 < i <= List.length p)%nat ->
               Path.node_at fs (Path.place_from cur (firstn i p)) <> None) ->
    Path.with_dirs_from cur p fs = fs.
Proof.
  induction p as [|c p IH]; intros cur H; [reflexivity |].
  cbn [Path.with_dirs_from].
  assert (E : Path.ensure_dir (Path.step cur c) fs = fs).
  { unfold Path.ensure_dir. pose proof (H 1%nat ltac:(simpl; lia)) as H1.
    change (Path.place_from cur (firstn 1 (c :: p))) with (Path.step cur c) in H1.
    destruct (Path.node_at fs (Path.step cur c)); [reflexivity | congruence]. }
  rewrite E. apply IH. intros i Hi. exact (H (S i) ltac:(simpl; lia)).
Qed.

Lemma node_at_ensure_dir (k : list string) (fs : Disk) :
  Path.kind (Path.node_at fs k) <> Some false ->
  Path.node_at (Path.ensure_dir k fs) k = Some Directory.
Proof.
  intros H. unfold Path.ensure_dir.
  destruct (Path.node_at fs k) as [[t|]|] eqn:E.
  - exfalso. apply H. reflexivity.
  - exact E.
  - assert (Hk : k <> []) by (intros ->; discriminate E).
    rewrite node_at_put by exact Hk. case_decide; congruence.
Qed.

(** Once made, the directories on a way without file are there. *)
Lemma with_dirs_from_directories (p : list string) (fs : Disk) :
  (forall i, (i <= List.length p)%nat ->
             Path.kind (Path.node_at fs (Path.place_from [] (firstn i p))) <> Some false) ->
  forall i, (i <= List.length p)%nat ->
            Path.node_at (Path.with_dirs_from [] p fs) (Path.place_from [] (firstn i p))
            = Some Directory.
Proof.
  induction p as [|c p IH] using rev_ind; intros H i Hi.
  - simpl in Hi. replace i with 0%nat by lia. reflexivity.
  - rewrite with_dirs_from_snoc. rewrite length_app in Hi, H. cbn [List.length] in Hi, H.
    destruct (decide (i <= List.length p)%nat) as [Hle|Hgt].
    + rewrite take_app_le by exact Hle.
      apply (dirs_made_directory _ _ _ (dirs_made_ensure_dir _ _)).
      apply IH; [| exact Hle].
      intros j Hj. rewrite <- (take_app_le p [c] j Hj). apply H. lia.
    + replace i with (List.length (p ++ [c])) by (rewrite length_app; simpl; lia).
      rewrite firstn_all. apply node_at_ensure_dir.
      apply (dirs_made_kind _ _ _ (dirs_made_with_dirs_from p [] fs)).
      rewrite <- (firstn_all (p ++ [c])). apply H. rewrite length_app. simpl. lia.
Qed.

(** The last call of [os.mkdir], the directories on the way being
    there. *)
Lemma mkdir_exist_ok_makes (a : string) (q : list string) (fs : Disk) :
  (forall i, (i < List.length q)%nat ->
             Path.node_at fs (Path.place_from [] (firstn i q)) = Some Directory) ->
  Path.kind (Path.node_at fs (Path.place_from [] q)) <> Some false ->
  mkdir_err fs !! Path.str (Path.mkPath a q) = None ->
  stat_err fs !! Path.str (Path.mkPath a q) = None ->
  Path.mkdir_exist_ok (Path.mkPath a q) fs
  = (Returns tt, Path.ensure_dir (Path.place_from [] q) fs).
Proof.
  intros Hdirs Hkind Hm Hs.
  pose proof (walk_directories fs q [] Hdirs) as Hw.
  unfold Path.mkdir_exist_ok, Path.os_mkdir, Path.reach, Path.ensure_dir.
  cbn [Path.parts]. rewrite Hw, Hm.
  destruct (Path.node_at fs (Path.place_from [] q)) as [[t|]|] eqn:E.
  - exfalso. apply Hkind. reflexivity.
  - unfold Path.unless_is_dir, Path.is_dir, Path.lookup, Path.reach.
    cbn [Path.parts]. rewrite Hs, Hw, E. reflexivity.
  - reflexivity.
Qed.

(** Unless a directory on the way is missing, [mkdir] with [parents]
    does what it does without. *)
Lemma mkdir_parents_found (a : string) (names : list string) (fs : Disk) :
  Path.reach fs (Path.mkPath a (rev names)) <> inl ENOENT ->
  Path.mkdir_parents a names fs = Path.mkdir_exist_ok (Path.mkPath a (rev names)) fs.
Proof.
  intros H.
  assert (E : Path.mkdir_parents a names fs
              = match Path.os_mkdir (Path.mkPath a (rev names)) fs with
                | inr fs' => (Returns tt, fs')
                | inl (Path.Errno ENOENT) =>
                    match names with
                    | [] => (Raises (Path.os_error fs (Path.mkPath a (rev names))
                                       (Path.Errno ENOENT)), fs)
                    | _ :: above =>
                        match Path.mkdir_parents a above fs with
                        | (Raises e, fs1) => (Raises e, fs1)
                        | (Returns _, fs1) =>
                            Path.mkdir_exist_ok (Path.mkPath a (rev names)) fs1
                        end
                    end
                | inl f => Path.unless_is_dir (Path.mkPath a (rev names)) f fs
                end)
    by (destruct names; reflexivity).
  rewrite E. unfold Path.mkdir_exist_ok, Path.os_mkdir.
  destruct (Path.reach fs (Path.mkPath a (rev names))) as [e|k];
    [destruct e; try reflexivity; congruence |].
  destruct (mkdir_err fs !! _); [reflexivity |].
  destruct (Path.node_at fs k); reflexivity.
Qed.

(** [mkdir] with [parents] on a clear way makes every directory that is
    not there. *)
Lemma mkdir_parents_makes (a : string) (names : list string) (fs : Disk) :
  way_clear a (rev names) (List.length names) fs ->
  Path.mkdir_parents a names fs = (Returns tt, Path.with_dirs_from [] (rev names) fs).
Proof.
  induction names as [|c above IH]; intros Hclear.
  - rewrite mkdir_parents_found by (cbn; discriminate).
    destruct (Hclear 0%nat ltac:(lia)) as (Hk & Hm & Hs).
    rewrite mkdir_exist_ok_makes; try assumption; [reflexivity |].
    intros i Hi. simpl in Hi. lia.
  - set (q := rev (c :: above)) in *.
    assert (Hq : q = rev above ++ [c]) by reflexivity.
    assert (Hlen : List.length q = S (List.length above))
      by (rewrite Hq, length_app, length_rev; simpl; lia).
    assert (Hfirst : forall i, (i <= List.length above)%nat ->
                               firstn i q = firstn i (rev above)).
    { intros i Hi. rewrite Hq. apply take_app_le. rewrite length_rev. exact Hi. }
    assert (Hall : firstn (S (List.length above)) q = q)
      by (apply firstn_all2; lia).
    destruct (Hclear (S (List.length above)) ltac:(simpl; lia)) as (Hk & Hm & Hs).
    rewrite Hall in Hk, Hm, Hs.
    assert (Habove : way_clear a (rev above) (List.length above) fs).
    { intros i Hi. rewrite <- (Hfirst i Hi). apply Hclear. simpl. lia. }
    destruct (walk_no_file fs q []) as [Hno|[Hyes Hdirs]].
    { intros i Hi. apply (Hclear i). simpl. lia. }
    + (* a directory on the way is missing *)
      cbn [Path.mkdir_parents]. fold q. unfold Path.os_mkdir, Path.reach.
      cbn [Path.parts]. rewrite Hno, (IH Habove).
      pose proof (dirs_made_with_dirs_from (rev above) [] fs) as Hmade.
      pose proof Hmade as [(S1 & _ & _ & _ & S5 & _) _].
      rewrite mkdir_exist_ok_makes.
      * rewrite Hq at 2. rewrite with_dirs_from_snoc, <- Hq. reflexivity.
      * intros i Hi. rewrite Hfirst by lia.
        apply with_dirs_from_directories; [| rewrite length_rev; lia].
        intros j Hj. rewrite length_rev in Hj. apply Habove. exact Hj.
      * exact (dirs_made_kind _ _ _ Hmade Hk).
      * rewrite S5. exact Hm.
      * rewrite S1. exact Hs.
    + (* the directories on the way are there *)
      rewrite mkdir_parents_found by (fold q; unfold Path.reach; cbn [Path.parts]; congruence).
      fold q. rewrite (mkdir_exist_ok_makes a q fs Hdirs Hk Hm Hs).
      rewrite Hq at 2. rewrite with_dirs_from_snoc, <- Hq.
      rewrite with_dirs_from_id; [reflexivity |].
      intros i Hi. rewrite length_rev in Hi. rewrite <- Hfirst by lia.
      rewrite Hdirs by lia. discriminate.
Qed.

(** *** The end of the text *)

Lemma append_cons (c : ascii) (s t : string) : String c s +:+ t = String c (s +:+ t).
Proof. reflexivity. Qed.

Lemma endswith_LF (s : string) :
  PyStr.endswith s PyStr.LF
  = match last_char s with
    | Some c => (nat_of_ascii c =? 10)%nat
    | None => false
    end.
Proof.
  unfold PyStr.endswith.
  induction s as [|c s IH]; [reflexivity |].
  destruct s as [|c' s'].
  - cbn. destruct c as [b0 b1 b2 b3 b4 b5 b6 b7].
    destruct b0, b1, b2, b3, b4, b5, b6, b7; reflexivity.
  - change (last_char (String c (String c' s'))) with (last_char (String c' s')).
    rewrite <- IH.
    change (String.length (String c (String c' s'))) with (S (String.length (String c' s'))).
    change (String.length PyStr.LF) with 1%nat.
    cbn [String.length].
    replace (S (S (String.length s')) - 1)%nat with (S (String.length s')) by lia.
    replace (S (String.length s') - 1)%nat with (String.length s') by lia.
    cbn [PyStr.drop]. reflexivity.
Qed.

Lemma last_char_app (s t : string) :
  t <> "" -> last_char (s +:+ t) = last_char t.
Proof.
  intros Ht. induction s as [|c s IH]; [reflexivity |].
  rewrite append_cons.
  destruct (s +:+ t) as [|c' r] eqn:E.
  - destruct s; [change (t = EmptyString) in E; congruence
                | rewrite append_cons in E; discriminate E].
  - change (last_char (String c (String c' r))) with (last_char (String c' r)).
    exact IH.
Qed.

Lemma string_length_app (s t : string) :
  String.length (s +:+ t) = (String.length s + String.length t)%nat.
Proof. induction s as [|c s IH]; [reflexivity |]. rewrite append_cons. cbn. rewrite IH. reflexivity. Qed.

Lemma append_cancel_r (s1 s2 t : string) : s1 +:+ t = s2 +:+ t -> s1 = s2.
Proof.
  revert s2. induction s1 as [|c s1 IH]; intros [|d s2] H.
  - reflexivity.
  - exfalso. apply (f_equal String.length) in H.
    rewrite !string_length_app in H. simpl in H. lia.
  - exfalso. apply (f_equal String.length) in H.
    rewrite !string_length_app in H. simpl in H. lia.
  - rewrite !append_cons in H. injection H as -> H. f_equal. apply IH. exact H.
Qed.

(** The text of a created file ends with a terminator, and with exactly
    one unless the last text ends with one or is an empty text after
    others. *)
Lemma terminated_lines_end (init : list string) (t : string) :
  PyStr.endswith (terminated_lines (init ++ [t])) PyStr.LF = true
  /\ (one_trailing_terminator (terminated_lines (init ++ [t]))
      <-> PyStr.endswith t PyStr.LF = false /\ (t <> "" \/ init = [])).
Proof.
  assert (E : terminated_lines (init ++ [t])
              = (terminated_lines init +:+ t) +:+ PyStr.LF).
  { rewrite terminated_lines_app. cbn [terminated_lines fold_right].
    rewrite append_nil_r, append_assoc. reflexivity. }
  assert (Hbody : PyStr.endswith (terminated_lines init +:+ t) PyStr.LF = false
                  <-> PyStr.endswith t PyStr.LF = false /\ (t <> "" \/ init = [])).
  { destruct (String.eqb_spec t "") as [->|Ht].
    - rewrite append_nil_r. destruct init as [|t0 init0] using rev_ind.
      + split; [intros _; split; [reflexivity | right; reflexivity] | reflexivity].
      + assert (Hend : PyStr.endswith (terminated_lines (init0 ++ [t0])) PyStr.LF = true).
        { rewrite terminated_lines_app. cbn [terminated_lines fold_right].
          rewrite append_nil_r, <- append_assoc, endswith_LF, last_char_app by discriminate.
          reflexivity. }
        rewrite Hend. split; [discriminate |].
        intros [_ [H|H]]; [congruence | destruct init0; discriminate H].
    - rewrite !endswith_LF, last_char_app by exact Ht.
      split; [intros H; split; [exact H | left; exact Ht] | intros [H _]; exact H]. }
  split.
  - rewrite E, endswith_LF, last_char_app by discriminate. reflexivity.
  - rewrite <- Hbody, E. unfold one_trailing_terminator. split.
    + intros (body & Hb & Hend). apply append_cancel_r in Hb. rewrite Hb. exact Hend.
    + intros H. eexists. split; [reflexivity | exact H].
Qed.

Lemma firstn_removelast (l : list string) (i : nat) :
  (i <= List.length l - 1)%nat -> firstn i (removelast l) = firstn i l.
Proof.
  intros Hi. rewrite removelast_firstn_len, take_take.
  f_equal. lia.
Qed.

(** C7, as stated, fails where the last Add line is empty: the file of
    the two lines [+x] and [+] ends with two terminators. *)
Lemma creation_ends_with_two_terminators :
  parse_diff Scenario.blank_end_diff = Returns [Scenario.blank_end]
  /\ apply_patch Scenario.blank_end Scenario.root (Scenario.disk Scenario.abc)
     = (Returns (true, "Created new file: g.txt"),
        Path.put ["srv"; "code"; "g.txt"] (RegularFile ("x" +:+ PyStr.LF +:+ PyStr.LF))
          (Scenario.disk Scenario.abc))
  /\ new_texts (hunks Scenario.blank_end) = ["x"; ""]
  /\ ~ one_trailing_terminator ("x" +:+ PyStr.LF +:+ PyStr.LF).
Proof.
  split; [vm_compute; reflexivity |].
  split; [vm_compute; reflexivity |]. split; [reflexivity |].
  intros (body & Hb & Hend).
  change ("x" +:+ PyStr.LF +:+ PyStr.LF) with (("x" +:+ PyStr.LF) +:+ PyStr.LF) in Hb.
  apply append_cancel_r in Hb. rewrite <- Hb in Hend. discriminate Hend.
Qed.

(** C7, amended. For a patch with empty [old_path] and non-empty
    [new_path], on a disk where no regular file stands on the way to the
    target, the target is no directory, and nothing is refused,
    [apply_patch] makes the directories above the target that are not
    there, leaves at the target exactly the texts of the Add and Context
    lines of all hunks, in order, each followed by one line terminator,
    and reports success.  When there is such a line the content ends with
    a terminator, and with exactly one if and only if the text of the last
    such line neither ends with a terminator nor is an empty text after
    other lines. *)
Theorem apply_patch_creates_file (patch : FilePatch) (root : string) (fs : Disk) :
  old_path patch = "" ->
  new_path patch <> "" ->
  let p := abs_path root (new_path patch) in
  let fs1 := Path.with_dirs (Path.parent p) fs in
  let content := terminated_lines (new_texts (hunks patch)) in
  let fs2 := Path.put (Path.place p) (RegularFile content) fs1 in
  way_clear (Path.anchor p) (Path.parts p) (List.length (Path.parts p) - 1) fs ->
  Path.kind (Path.node_at fs1 (Path.place p)) <> Some true ->
  open_err fs !! Path.str p = None ->
  write_err fs !! Path.str p = None ->
  apply_patch patch root fs
  = (Returns (true, "Created new file: " +:+ new_path patch), fs2)
  /\ Path.lookup fs2 p = inr (Path.place p, RegularFile content)
  /\ (forall i, (i < List.length (Path.parts p))%nat ->
        Path.lookup fs2 (Path.mkPath (Path.anchor p) (firstn i (Path.parts p)))
        = inr (Path.place_from [] (firstn i (Path.parts p)), Directory))
  /\ dirs_made fs fs1
  /\ (forall init t, new_texts (hunks patch) = init ++ [t] ->
        PyStr.endswith content PyStr.LF = true
        /\ (one_trailing_terminator content
            <-> PyStr.endswith t PyStr.LF = false /\ (t <> "" \/ init = []))).
Proof.
  intros Ho Hn p fs1 content fs2 Hclear Htarget Hopen Hwrite.
  set (names := Path.parts p) in *.
  assert (Hmade : dirs_made fs fs1) by apply dirs_made_with_dirs_from.
  pose proof Hmade as [(S1 & S2 & S3 & S4 & S5 & S6) _].
  assert (Hmk : Path.mkdir (Path.parent p) fs = (Returns tt, fs1)).
  { unfold Path.mkdir, fs1, Path.with_dirs. cbn [Path.parent Path.anchor Path.parts].
    fold names.
    rewrite <- (rev_involutive (removelast names)) at 2.
    apply mkdir_parents_makes. rewrite rev_involutive, length_rev.
    intros i Hi.
    assert (Hi' : (i <= List.length names - 1)%nat).
    { rewrite removelast_firstn_len, length_take in Hi. lia. }
    rewrite firstn_removelast by exact Hi'. apply Hclear. exact Hi'. }
  assert (Hdirs : forall i, (i < List.length names)%nat ->
                    Path.node_at fs1 (Path.place_from [] (firstn i names)) = Some Directory).
  { intros i Hi. unfold fs1, Path.with_dirs. cbn [Path.parent Path.parts]. fold names.
    rewrite <- (firstn_removelast names i) by lia.
    apply with_dirs_from_directories.
    - intros j Hj. rewrite removelast_firstn_len, length_take in Hj.
      rewrite firstn_removelast by lia. apply Hclear. lia.
    - rewrite removelast_firstn_len, length_take. lia. }
  assert (Hplace : Path.place p <> []).
  { intros E. apply Htarget. rewrite E. reflexivity. }
  assert (Hres1 : Path.reach fs1 p = inr (Path.place p))
    by (apply walk_directories; exact Hdirs).
  assert (Hdirs2 : forall i, (i < List.length names)%nat ->
                    Path.node_at fs2 (Path.place_from [] (firstn i names)) = Some Directory).
  { intros i Hi. unfold fs2. rewrite node_at_put by exact Hplace.
    case_decide as E; [| apply Hdirs; exact Hi].
    exfalso. apply Htarget. rewrite <- E, (Hdirs i Hi). reflexivity. }
  assert (Hnode2 : Path.node_at fs2 (Path.place p) = Some (RegularFile content)).
  { unfold fs2. rewrite node_at_put by exact Hplace. case_decide; congruence. }
  split; [| split; [| split; [| split]]].
  - unfold apply_patch, target_rel.
    apply String.eqb_neq in Hn. rewrite Hn, Ho. cbn [String.eqb].
    fold p. rewrite Hmk. unfold Path.write_text. rewrite Hres1.
    rewrite S3, S4, Hopen, Hwrite, ?Hn, created_content_spec.
    destruct (Path.node_at fs1 (Path.place p)) as [[t|]|] eqn:E;
      [reflexivity | exfalso; apply Htarget; reflexivity | reflexivity].
  - apply lookup_inr. split; [| exact Hnode2].
    apply walk_directories. exact Hdirs2.
  - intros i Hi. apply lookup_inr. split.
    + apply walk_directories. cbn [Path.parts]. intros j Hj.
      rewrite length_take in Hj. rewrite take_take.
      replace (j `min` i)%nat with j by lia. apply Hdirs2. lia.
    + apply Hdirs2. exact Hi.
  - exact Hmade.
  - intros init t E. unfold content. rewrite E. apply terminated_lines_end.
Qed.

Lemma apply_patch_creates_file_witness :
  apply_patch Scenario.new_file Scenario.root (Scenario.disk Scenario.abc)
  = (Returns (true, "Created new file: new/sub/g.txt"),
     Path.put ["srv"; "code"; "new"; "sub"; "g.txt"] (RegularFile Scenario.xyz)
       (Path.put ["srv"; "code"; "new"; "sub"] Directory
          (Path.put ["srv"; "code"; "new"] Directory (Scenario.disk Scenario.abc))))
  /\ one_trailing_terminator Scenario.xyz.
Proof.
  destruct (apply_patch_creates_file Scenario.new_file Scenario.root
              (Scenario.disk Scenario.abc))
    as (Happly & _ & _ & _ & Hend).
  - reflexivity.
  - discriminate.
  - intros i Hi. change (i <= 4)%nat in Hi.
    do 5 (destruct i as [|i]; [vm_compute; repeat split; discriminate |]). lia.
  - vm_compute. discriminate.
  - reflexivity.
  - reflexivity.
  - split; [exact Happly |].
    apply (proj2 (Hend ["x"; "y"] "z" eq_refl)).
    split; [reflexivity | left; discriminate].
Defined.

(** ** The parser terminates: its fuel suffices *)

(** The innermost loop leaves a suffix of its input. *)
Lemma parse_hunk_lines_suffix (ls : list string) :
  forall hunk_lines o n,
    exists pre, ls = pre ++ snd (parse_hunk_lines ls hunk_lines o n).
Proof.
  induction ls as [|line ls IH]; intros acc o n; [exists []; reflexivity |].
  cbn [parse_hunk_lines].
  assert (Hstep : forall acc' o' n',
            exists pre, line :: ls = pre ++ snd (parse_hunk_lines ls acc' o' n')).
  { intros acc' o' n'. destruct (IH acc' o' n') as [pre Hpre].
    exists (line :: pre). simpl. rewrite <- Hpre. reflexivity. }
  destruct ((0 <? o) || (0 <? n)); [| exists []; reflexivity].
  destruct (PyStr.startswith line "-"); [apply Hstep |].
  destruct (PyStr.startswith line "+"); [apply Hstep |].
  destruct (PyStr.startswith line " " || String.eqb line ""); [apply Hstep |].
  destruct (PyStr.startswith line "\"); [apply Hstep | exists []; reflexivity].
Qed.

(** One turn of the loop over the hunks at a header line, when the loop
    returns: the four numbers were read, and the loop went on after the
    lines of the hunk. *)
Lemma parse_hunks_at_header (fuel : nat) (line : string) (rest : list string)
    (hs : list Hunk) (g1 g3 : string) (g2 g4 : option string)
    (r : list Hunk * list string) :
  PyStr.startswith line "---" = false ->
  HunkHeader.re_match line = Some (g1, g2, g3, g4) ->
  parse_hunks (S fuel) (line :: rest) hs = Returns r ->
  exists os oc ns nc,
    PyStr.int g1 = Returns os /\ HunkHeader.count_or_1 g2 = Returns oc
    /\ PyStr.int g3 = Returns ns /\ HunkHeader.count_or_1 g4 = Returns nc
    /\ parse_hunks fuel (snd (parse_hunk_lines rest [] oc nc))
         (hs ++ [mkHunk os oc ns nc (fst (parse_hunk_lines rest [] oc nc))])
       = Returns r.
Proof.
  intros Hs Hm H. cbn [parse_hunks] in H. rewrite Hs, Hm in H.
  destruct (PyStr.int g1) as [os|e]; [| discriminate H].
  destruct (HunkHeader.count_or_1 g2) as [oc|e]; [| discriminate H].
  destruct (PyStr.int g3) as [ns|e]; [| discriminate H].
  destruct (HunkHeader.count_or_1 g4) as [nc|e]; [| discriminate H].
  cbn [mbind outcome_bind] in H.
  exists os, oc, ns, nc. repeat (split; [reflexivity |]).
  destruct (parse_hunk_lines rest [] oc nc) as [hunk_lines rest']. exact H.
Qed.

Lemma parse_hunks_length (fuel : nat) :
  forall ls hs hs' rest,
    parse_hunks fuel ls hs = Returns (hs', rest) ->
    (List.length rest <= List.length ls)%nat.
Proof.
  induction fuel as [|fuel IH]; intros ls hs hs' rest' H.
  { injection H as _ <-. reflexivity. }
  destruct ls as [|line rest]; [injection H as _ <-; reflexivity |].
  destruct (PyStr.startswith line "---") eqn:Hs.
  { cbn [parse_hunks] in H. rewrite Hs in H. injection H as _ <-. reflexivity. }
  destruct (HunkHeader.re_match line) as [[[[g1 g2] g3] g4]|] eqn:Hm.
  - destruct (parse_hunks_at_header _ _ _ _ _ _ _ _ _ Hs Hm H)
      as (os & oc & ns & nc & _ & _ & _ & _ & H').
    destruct (parse_hunk_lines_suffix rest [] oc nc) as [pre Hpre].
    apply IH in H'.
    apply (f_equal (@List.length string)) in Hpre. rewrite length_app in Hpre.
    simpl. lia.
  - cbn [parse_hunks] in H. rewrite Hs, Hm in H. apply IH in H. simpl. lia.
Qed.

(** Every iteration of the loop over the hunks consumes a line: with one
    unit of fuel per line the loop runs to its end, and more fuel changes
    nothing. *)
Lemma parse_hunks_fuel (f1 : nat) :
  forall f2 ls hs,
    (List.length ls <= f1)%nat -> (List.length ls <= f2)%nat ->
    parse_hunks f1 ls hs = parse_hunks f2 ls hs.
Proof.
  induction f1 as [|f1 IH]; intros f2 ls hs H1 H2.
  { destruct ls; [| simpl in H1; lia]. destruct f2; reflexivity. }
  destruct ls as [|line rest]; [destruct f2; reflexivity |].
  destruct f2 as [|f2]; [simpl in H2; lia |].
  simpl in H1, H2. cbn [parse_hunks].
  destruct (PyStr.startswith line "---"); [reflexivity |].
  destruct (HunkHeader.re_match line) as [[[[g1 g2] g3] g4]|]; [| apply IH; lia].
  destruct (PyStr.int g1) as [os|e]; [| reflexivity].
  destruct (HunkHeader.count_or_1 g2) as [oc|e]; [| reflexivity].
  destruct (PyStr.int g3) as [ns|e]; [| reflexivity].
  destruct (HunkHeader.count_or_1 g4) as [nc|e]; [| reflexivity].
  cbn [mbind outcome_bind].
  destruct (parse_hunk_lines_suffix rest [] oc nc) as [pre Hpre].
  destruct (parse_hunk_lines rest [] oc nc) as [hunk_lines rest'].
  cbn [snd] in Hpre.
  apply (f_equal (@List.length string)) in Hpre. rewrite length_app in Hpre.
  apply IH; lia.
Qed.

(** The same for the loop over the file blocks: [parse_diff] gives it one
    unit of fuel per line of the input. *)
Lemma parse_files_fuel (f1 : nat) :
  forall f2 ls patches,
    (List.length ls <= f1)%nat -> (List.length ls <= f2)%nat ->
    parse_files f1 ls patches = parse_files f2 ls patches.
Proof.
  induction f1 as [|f1 IH]; intros f2 ls patches H1 H2.
  { destruct ls; [| simpl in H1; lia]. destruct f2; reflexivity. }
  destruct ls as [|line rest]; [destruct f2; reflexivity |].
  destruct f2 as [|f2]; [simpl in H2; lia |].
  simpl in H1, H2. cbn [parse_files].
  destruct (negb (PyStr.startswith line "---")); [apply IH; lia |].
  destruct rest as [|line' rest']; [apply IH; simpl; lia |].
  destruct (negb (PyStr.startswith line' "+++")); [apply IH; simpl in *; lia |].
  destruct (parse_hunks (List.length rest') rest' []) as [[hs rest'']|e] eqn:E;
    [| reflexivity].
  apply parse_hunks_length in E. cbn [mbind outcome_bind]. simpl in H1, H2.
  apply IH; lia.
Qed.

(** ** C8: no patches *)

(** Without a [---] line immediately followed by a [+++] line, the loop
    over the file blocks adds no patch. *)
Lemma parse_files_lacking_pair (fuel : nat) :
  forall ls patches,
    lacks_header_pair ls = true -> parse_files fuel ls patches = Returns patches.
Proof.
  induction fuel as [|fuel IH]; intros ls patches H; [reflexivity |].
  destruct ls as [|line rest]; [reflexivity |].
  cbn [parse_files]. cbn [lacks_header_pair] in H.
  apply andb_true_iff in H as [Hpair Hrest].
  destruct (PyStr.startswith line "---"); cbn [negb].
  - destruct rest as [|line' rest']; [apply IH; exact Hrest |].
    cbn [andb] in Hpair. rewrite Hpair. apply IH. exact Hrest.
  - apply IH. exact Hrest.
Qed.

(** C8. When [parse_diff] finds no patch, [apply_diff_to_codebase] returns
    exactly one entry, the failure with the message "No valid patches
    found in diff.", and leaves the disk and the database as they were.
    That is the case in particular when no [---] line of the input is
    immediately followed by a [+++] line. *)
Theorem apply_diff_without_patches (diff_text root : string) (cid : Z) (fs : Disk) (db : DB) :
  (parse_diff diff_text = Returns [] ->
   apply_diff_to_codebase diff_text root cid fs db
   = (Returns [(false, "No valid patches found in diff.")], fs, db))
  /\ (lacks_header_pair (PyStr.splitlines diff_text) = true ->
      parse_diff diff_text = Returns []
      /\ apply_diff_to_codebase diff_text root cid fs db
         = (Returns [(false, "No valid patches found in diff.")], fs, db)).
Proof.
  assert (H : parse_diff diff_text = Returns [] ->
              apply_diff_to_codebase diff_text root cid fs db
              = (Returns [(false, "No valid patches found in diff.")], fs, db)).
  { intros Hp. unfold apply_diff_to_codebase. rewrite Hp. reflexivity. }
  split; [exact H |].
  intros Hl.
  assert (Hp : parse_diff diff_text = Returns []).
  { unfold parse_diff. apply parse_files_lacking_pair. exact Hl. }
  split; [exact Hp | exact (H Hp)].
Qed.

Lemma apply_diff_without_patches_witness :
  apply_diff_to_codebase
    (PyStr.join PyStr.LF ["--- a/f.txt"; "@@ -1,3 +1,3 @@"; " a"; "-b"; "+B"; " c"; ""])
    Scenario.root 1 (Scenario.disk Scenario.abc) Scenario.no_db
  = (Returns [(false, "No valid patches found in diff.")],
     Scenario.disk Scenario.abc, Scenario.no_db).
Proof.
  apply (proj2 (apply_diff_without_patches
                  (PyStr.join PyStr.LF
                     ["--- a/f.txt"; "@@ -1,3 +1,3 @@"; " a"; "-b"; "+B"; " c"; ""])
                  Scenario.root 1 (Scenario.disk Scenario.abc) Scenario.no_db)).
  vm_compute. reflexivity.
Defined.

(** ** Helper lemmas: a hunk put in place *)

Lemma skipn_nth_error {A} (l : list A) (n : nat) (x : A) :
  nth_error l n = Some x -> skipn n l = x :: skipn (S n) l.
Proof.
  revert n. induction l as [|a l IH]; intros [|n] H; try discriminate.
  - injection H as ->. reflexivity.
  - simpl in H. apply IH in H. exact H.
Qed.

Lemma tl_skipn {A} (l : list A) (n : nat) : tl (skipn n l) = skipn (S n) l.
Proof.
  revert l. induction n as [|n IH]; intros [|a l]; try reflexivity.
  change (tl (skipn n l) = skipn (S n) l). apply IH.
Qed.

Lemma new_extent_cons (hl : HunkLine) (ls : list HunkLine) :
  new_extent (hl :: ls) = ((if is_new hl then 1 else 0) + new_extent ls)%nat.
Proof. unfold new_extent. simpl. destruct (is_new hl); reflexivity. Qed.

(** The case analysis of the walk on the operation of an entry. *)
Lemma op_cases (hl : HunkLine) :
  (String.eqb (op hl) " " = true /\ is_old hl = true /\ is_new hl = true)
  \/ (String.eqb (op hl) " " = false /\ String.eqb (op hl) "-" = true
      /\ is_old hl = true /\ is_new hl = false)
  \/ (String.eqb (op hl) " " = false /\ String.eqb (op hl) "-" = false
      /\ String.eqb (op hl) "+" = true /\ is_old hl = false /\ is_new hl = true)
  \/ (String.eqb (op hl) " " = false /\ String.eqb (op hl) "-" = false
      /\ String.eqb (op hl) "+" = false /\ is_old hl = false /\ is_new hl = false).
Proof.
  unfold is_old, is_new.
  destruct (String.eqb_spec (op hl) " ") as [E|E].
  - left. rewrite E. auto.
  - destruct (String.eqb_spec (op hl) "-") as [E'|E'].
    + right. left. rewrite E'. auto.
    + destruct (String.eqb (op hl) "+"); auto 10.
Qed.

(** Split on the operation of [hl], naming the facts of [op_cases]. *)
Ltac case_op hl :=
  let Ec := fresh "Ec" in
  let Er := fresh "Er" in
  let Ea := fresh "Ea" in
  let Ho := fresh "Ho" in
  let Hn := fresh "Hn" in
  destruct (op_cases hl) as [(Ec & Ho & Hn) | [(Ec & Er & Ho & Hn)
    | [(Ec & Er & Ea & Ho & Hn) | (Ec & Er & Ea & Ho & Hn)]]].

Lemma emit_length (ls : list HunkLine) :
  forall src, (old_extent ls <= List.length src)%nat ->
              List.length (emit ls src) = new_extent ls.
Proof.
  induction ls as [|hl ls IH]; intros src H; [reflexivity |].
  rewrite old_extent_cons in H. rewrite new_extent_cons. simpl emit.
  case_op hl;
    rewrite Ho in H; rewrite Hn, Ec; rewrite ?Er, ?Ea.
  - destruct src as [|x src]; [simpl in H; lia |].
    simpl. rewrite IH; [reflexivity | simpl in H; lia].
  - rewrite IH; [reflexivity |]. destruct src; simpl in *; lia.
  - simpl. rewrite IH; [reflexivity | lia].
  - rewrite IH; [reflexivity | lia].
Qed.

(** [emit] reads no more source lines than the body has old lines. *)
Lemma emit_firstn (ls : list HunkLine) :
  forall src n, (old_extent ls <= n)%nat -> emit ls (firstn n src) = emit ls src.
Proof.
  induction ls as [|hl ls IH]; intros src n H; [reflexivity |].
  rewrite old_extent_cons in H. simpl emit.
  case_op hl;
    rewrite Ho in H; rewrite Ec; rewrite ?Er, ?Ea.
  - destruct n as [|n]; [lia |]. destruct src as [|x src]; [reflexivity |].
    simpl. rewrite IH; [reflexivity | lia].
  - destruct n as [|n]; [lia |]. destruct src as [|x src]; [reflexivity |].
    simpl. apply IH. lia.
  - rewrite IH; [reflexivity | lia].
  - apply IH. lia.
Qed.

(** A walk that stays within the buffer, or reads nothing of it. *)
Lemma apply_hunk_lines_in_range (buf : list string) (ls : list HunkLine) :
  forall res idx,
    0 <= idx ->
    (old_extent ls = 0%nat \/ idx + Z.of_nat (old_extent ls) <= Z.of_nat (List.length buf)) ->
    apply_hunk_lines buf ls res idx
    = Returns (Some (res ++ emit ls (skipn (Z.to_nat idx) buf),
                     idx + Z.of_nat (old_extent ls))).
Proof.
  induction ls as [|hl ls IH]; intros res idx Hidx Hr.
  { simpl. rewrite app_nil_r, Z.add_0_r. reflexivity. }
  rewrite old_extent_cons in *. simpl apply_hunk_lines. simpl emit.
  case_op hl;
    rewrite Ho in *; rewrite Ec; rewrite ?Er, ?Ea.
  - destruct Hr as [Hr|Hr]; [discriminate |].
    destruct (Z.leb_spec (Z.of_nat (List.length buf)) idx); [lia |].
    rewrite index_nonneg by lia.
    destruct (nth_error buf (Z.to_nat idx)) as [x|] eqn:E;
      [| apply nth_error_None in E; lia].
    rewrite (skipn_nth_error _ _ _ E).
    rewrite IH by lia.
    replace (Z.to_nat (idx + 1)) with (S (Z.to_nat idx)) by lia.
    rewrite <- app_assoc. simpl. do 3 f_equal. lia.
  - destruct Hr as [Hr|Hr]; [discriminate |].
    destruct (Z.leb_spec (Z.of_nat (List.length buf)) idx); [lia |].
    rewrite IH by lia. rewrite tl_skipn.
    replace (Z.to_nat (idx + 1)) with (S (Z.to_nat idx)) by lia.
    do 3 f_equal. lia.
  - rewrite IH by (try assumption; simpl in Hr; exact Hr).
    rewrite <- app_assoc. reflexivity.
  - rewrite IH by (try assumption; simpl in Hr; exact Hr). reflexivity.
Qed.

(** A walk that returns lines stayed within the buffer. *)
Lemma apply_hunk_lines_returns (buf : list string) (ls : list HunkLine) :
  forall res idx r,
    apply_hunk_lines buf ls res idx = Returns (Some r) ->
    old_extent ls = 0%nat \/ idx + Z.of_nat (old_extent ls) <= Z.of_nat (List.length buf).
Proof.
  induction ls as [|hl ls IH]; intros res idx r H; [left; reflexivity |].
  rewrite old_extent_cons. simpl apply_hunk_lines in H.
  case_op hl;
    rewrite Ho; rewrite Ec in H; rewrite ?Er, ?Ea in H.
  - destruct (Z.leb_spec (Z.of_nat (List.length buf)) idx); [discriminate |].
    destruct (PyList.index buf idx); [| discriminate].
    apply IH in H. right. lia.
  - destruct (Z.leb_spec (Z.of_nat (List.length buf)) idx); [discriminate |].
    apply IH in H. right. lia.
  - apply IH in H. exact H.
  - apply IH in H. exact H.
Qed.

(** With [old_start] at least 1, [_apply_hunk] returns lines exactly when
    the range of the hunk lies within the buffer (or is empty), and the
    lines are the hunk put in place. *)
Lemma apply_hunk_some_iff (buf buf' : list string) (h : Hunk) :
  1 <= old_start h ->
  (_apply_hunk buf h = Returns (Some buf') <->
   (old_extent (lines h) = 0%nat
    \/ old_start h - 1 + Z.of_nat (old_extent (lines h)) <= Z.of_nat (List.length buf))
   /\ buf' = splice buf (Z.to_nat (old_start h - 1)) h).
Proof.
  intros Hpos.
  assert (Hin : old_extent (lines h) = 0%nat
                \/ old_start h - 1 + Z.of_nat (old_extent (lines h))
                   <= Z.of_nat (List.length buf) ->
                _apply_hunk buf h
                = Returns (Some (splice buf (Z.to_nat (old_start h - 1)) h))).
  { intros Hr. unfold _apply_hunk.
    rewrite apply_hunk_lines_in_range by (try lia; exact Hr).
    rewrite slice_to_nonneg, slice_from_nonneg by lia.
    unfold splice. rewrite <- app_assoc.
    replace (Z.to_nat (old_start h - 1 + Z.of_nat (old_extent (lines h))))
      with (Z.to_nat (old_start h - 1) + old_extent (lines h))%nat by lia.
    reflexivity. }
  split.
  - intros H.
    assert (Hr : old_extent (lines h) = 0%nat
                 \/ old_start h - 1 + Z.of_nat (old_extent (lines h))
                    <= Z.of_nat (List.length buf)).
    { unfold _apply_hunk in H.
      destruct (apply_hunk_lines buf (lines h) _ _) as [[r|]|e] eqn:E; try discriminate.
      apply apply_hunk_lines_returns in E. exact E. }
    split; [exact Hr |]. rewrite (Hin Hr) in H. injection H as <-. reflexivity.
  - intros [Hr ->]. apply Hin. exact Hr.
Qed.

Lemma splice_length (buf : list string) (h : Hunk) (s : nat) :
  (old_extent (lines h) = 0%nat \/ s + old_extent (lines h) <= List.length buf)%nat ->
  Z.of_nat (List.length (splice buf s h))
  = Z.of_nat (List.length buf) + Z.of_nat (new_extent (lines h))
    - Z.of_nat (old_extent (lines h)).
Proof.
  intros Hr. unfold splice.
  rewrite !length_app, length_firstn, !length_skipn.
  rewrite emit_length by (rewrite length_skipn; lia).
  lia.
Qed.

(** ** C4: applying a patch twice *)

Lemma apply_hunk_lines_no_raise (buf : list string) (ls : list HunkLine) :
  forall res idx e, 0 <= idx -> apply_hunk_lines buf ls res idx <> Raises e.
Proof.
  induction ls as [|hl ls IH]; intros res idx e Hidx; [discriminate |].
  simpl apply_hunk_lines.
  destruct (String.eqb (op hl) " ").
  { destruct (Z.leb_spec (Z.of_nat (List.length buf)) idx); [discriminate |].
    rewrite index_nonneg by lia.
    destruct (nth_error buf (Z.to_nat idx)) eqn:E;
      [apply IH; lia | apply nth_error_None in E; lia]. }
  destruct (String.eqb (op hl) "-").
  { destruct (Z.leb_spec (Z.of_nat (List.length buf)) idx); [discriminate |].
    apply IH. lia. }
  destruct (String.eqb (op hl) "+"); apply IH; assumption.
Qed.

Lemma apply_hunk_no_raise (buf : list string) (h : Hunk) (e : exc) :
  1 <= old_start h -> _apply_hunk buf h <> Raises e.
Proof.
  intros Hpos. unfold _apply_hunk.
  destruct (apply_hunk_lines buf (lines h) _ _) as [[[r i]|]|e'] eqn:E; try discriminate.
  exfalso.
  apply (apply_hunk_lines_no_raise buf (lines h)
           (PyList.slice_to buf (old_start h - 1)) (old_start h - 1) e');
    [lia | exact E].
Qed.

(** C4, as stated, fails at the scenario of C1: the patch is valid,
    it applies, and the identical patch applies again to the changed
    file. *)
Lemma reapplication_accepted :
  parse_diff Scenario.diff = Returns [Scenario.patch]
  /\ valid_patch Scenario.patch
  /\ apply_patch Scenario.patch Scenario.root (Scenario.disk Scenario.abc)
     = (Returns (true, "Patched: f.txt"), Scenario.disk Scenario.aBc)
  /\ apply_patch Scenario.patch Scenario.root (Scenario.disk Scenario.aBc)
     = (Returns (true, "Patched: f.txt"), Scenario.disk Scenario.aBc).
Proof.
  split; [vm_compute; reflexivity |]. split.
  - split; [left; discriminate |].
    constructor; [| constructor].
    split; [simpl; lia |]. split; [simpl; lia |]. split.
    + simpl. repeat (constructor; [auto |]). constructor.
    + split; reflexivity.
  - split; vm_compute; reflexivity.
Qed.

(** The pass over the hunks depends on the buffer by its length only. *)
Lemma apply_hunks_first_overrun (hs : list Hunk) :
  Forall (fun h => 1 <= old_start h) hs ->
  forall buf,
    match first_overrun hs (Z.of_nat (List.length buf)) with
    | Some h => apply_hunks hs buf = Returns (inl h)
    | None => exists out, apply_hunks hs buf = Returns (inr out)
    end.
Proof.
  induction 1 as [|h hs Hpos _ IH]; intros buf; [exists buf; reflexivity |].
  cbn [first_overrun apply_hunks].
  destruct ((0 <? Z.of_nat (old_extent (lines h)))
            && (Z.of_nat (List.length buf)
                <? old_start h - 1 + Z.of_nat (old_extent (lines h)))) eqn:Hc.
  - apply andb_true_iff in Hc as [H0 Hlt]. apply Z.ltb_lt in H0, Hlt.
    destruct (_apply_hunk buf h) as [[buf'|]|e] eqn:E; [| reflexivity |].
    + apply apply_hunk_some_iff in E; [| exact Hpos]. destruct E as [[Hz|Hle] _]; lia.
    + exfalso. exact (apply_hunk_no_raise _ _ _ Hpos E).
  - assert (Hin : old_extent (lines h) = 0%nat
                  \/ old_start h - 1 + Z.of_nat (old_extent (lines h))
                     <= Z.of_nat (List.length buf)).
    { apply andb_false_iff in Hc as [H0|Hlt];
        [apply Z.ltb_ge in H0 | apply Z.ltb_ge in Hlt]; lia. }
    rewrite (proj2 (apply_hunk_some_iff buf _ h Hpos) (conj Hin eq_refl)).
    rewrite <- (splice_length buf h (Z.to_nat (old_start h - 1))) by lia.
    apply IH.
Qed.

(** What a successful modification did. *)
Lemma apply_patch_success_inv (patch : FilePatch) (root msg : string) (fs fs1 : Disk) :
  old_path patch <> "" ->
  apply_patch patch root fs = (Returns (true, msg), fs1) ->
  exists p rel k t0 out,
    locate patch root fs = Returns (Some (p, rel))
    /\ Path.lookup fs p = inr (k, RegularFile t0)
    /\ read_err fs !! Path.str p = None
    /\ apply_hunks (rev (hunks patch)) (PyStr.splitlines (PyStr.universal_newlines t0))
       = Returns (inr out)
    /\ open_err fs !! Path.str p = None
    /\ write_err fs !! Path.str p = None
    /\ fs1 = Path.put k (RegularFile (patched_content out)) fs
    /\ msg = "Patched: " +:+ rel.
Proof.
  intros Hold H. unfold apply_patch in H.
  rewrite (target_rel_nonempty patch Hold) in H.
  apply String.eqb_neq in Hold. rewrite Hold in H.
  destruct (locate patch root fs) as [[[p rel]|]|e] eqn:Hloc; try discriminate H.
  unfold Path.read_text in H.
  destruct (read_err fs !! Path.str p) eqn:Hr; [discriminate H |].
  destruct (Path.lookup fs p) as [e|[k [t0|]]] eqn:Hl; try discriminate H.
  destruct (apply_hunks _ _) as [[h|out]|e] eqn:Ha; try discriminate H.
  unfold Path.write_text in H.
  apply lookup_inr in Hl as Hl'. destruct Hl' as [Hres Hnode]. rewrite Hres, Hnode in H.
  destruct (open_err fs !! Path.str p) eqn:Ho; [discriminate H |].
  destruct (write_err fs !! Path.str p) as [[m r]|] eqn:Hw; [discriminate H |].
  injection H as <- <-.
  exists p, rel, k, t0, out. repeat split; assumption || reflexivity.
Qed.

(** The text of a file replaced: what exists, exists, and the patch is
    found where it was. *)
Lemma exists_put_file (fs : Disk) (k : list string) (t0 t : string) (p : Path.PurePath) :
  Path.node_at fs k = Some (RegularFile t0) ->
  Path.exists_ p (Path.put k (RegularFile t) fs) = Path.exists_ p fs.
Proof.
  intros Hk. unfold Path.exists_. cbn [Path.put stat_err].
  rewrite (lookup_put_file fs k t0 t p Hk).
  destruct (Path.lookup fs p) as [e|[k' n]]; reflexivity.
Qed.

Lemma locate_put_file (fs : Disk) (k : list string) (t0 t : string)
    (patch : FilePatch) (root : string) :
  Path.node_at fs k = Some (RegularFile t0) ->
  locate patch root (Path.put k (RegularFile t) fs) = locate patch root fs.
Proof.
  intros Hk. unfold locate. rewrite !(exists_put_file fs k t0 t _ Hk). reflexivity.
Qed.

(** C4, amended. When a valid patch of a file that is there has applied,
    the identical patch applied again to the changed file is found and
    read as before, and the outcome is decided by the number of lines of
    the changed file alone: the second application fails with a hunk
    mismatch exactly when, in the reverse-order pass, a hunk with Context
    or Remove lines has its recorded range end past the end of the buffer
    as it then stands, and the failure names the first such hunk;
    otherwise the patch is accepted again and success is reported. *)
Theorem reapply_mismatch_iff_overrun (patch : FilePatch) (root msg : string)
    (fs fs1 : Disk) :
  valid_patch patch ->
  old_path patch <> "" ->
  apply_patch patch root fs = (Returns (true, msg), fs1) ->
  exists p rel text,
    locate patch root fs1 = Returns (Some (p, rel))
    /\ Path.read_text p fs1 = Returns text
    /\ msg = "Patched: " +:+ rel
    /\ (forall h,
          first_overrun (rev (hunks patch)) (Z.of_nat (List.length (PyStr.splitlines text)))
          = Some h ->
          apply_patch patch root fs1
          = (Returns (false,
                      "Hunk mismatch in " +:+ rel +:+ " at line "
                      +:+ PyStr.of_int (old_start h) +:+ ". Patch may be stale."),
             fs1))
    /\ (first_overrun (rev (hunks patch)) (Z.of_nat (List.length (PyStr.splitlines text)))
        = None ->
        exists fs2, apply_patch patch root fs1 = (Returns (true, msg), fs2)).
Proof.
  intros [_ Hvalid] Hold H.
  destruct (apply_patch_success_inv patch root msg fs fs1 Hold H)
    as (p & rel & k & t0 & out & Hloc & Hl & Hr & Ha & Ho & Hw & -> & ->).
  apply lookup_inr in Hl as Hl'. destruct Hl' as [Hres Hnode].
  set (fs1 := Path.put k (RegularFile (patched_content out)) fs) in *.
  assert (Hloc1 : locate patch root fs1 = Returns (Some (p, rel)))
    by (unfold fs1; rewrite (locate_put_file fs k t0 _ patch root Hnode); exact Hloc).
  assert (Hl1 : Path.lookup fs1 p = inr (k, RegularFile (patched_content out))).
  { unfold fs1. rewrite (lookup_put_file fs k t0 _ p Hnode), Hl.
    case_decide; congruence. }
  assert (Hread1 : Path.read_text p fs1
                   = Returns (PyStr.universal_newlines (patched_content out)))
    by exact (read_text_stored p k _ fs1 Hl1 Hr).
  exists p, rel, (PyStr.universal_newlines (patched_content out)).
  split; [exact Hloc1 |]. split; [exact Hread1 |]. split; [reflexivity |].
  assert (Hpos : Forall (fun h => 1 <= old_start h) (rev (hunks patch))).
  { apply Forall_rev. eapply Forall_impl; [exact Hvalid |]. intros h Hh. apply Hh. }
  pose proof (apply_hunks_first_overrun _ Hpos
                (PyStr.splitlines (PyStr.universal_newlines (patched_content out)))) as Hpass.
  rewrite (apply_patch_located patch root fs1 p rel _ Hold Hloc1 Hread1).
  split.
  - intros h Hh. rewrite Hh in Hpass. rewrite Hpass. reflexivity.
  - intros Hn. rewrite Hn in Hpass. destruct Hpass as [out2 Hout2]. rewrite Hout2.
    rewrite (write_text_stored p k _ _ fs1 Hl1 Ho Hw). eexists. reflexivity.
Qed.

Lemma reapply_mismatch_iff_overrun_witness :
  apply_patch Scenario.blank_for_b Scenario.root (Scenario.disk Scenario.ab)
  = (Returns (true, "Patched: f.txt"), Scenario.disk ("a" +:+ PyStr.LF))
  /\ apply_patch Scenario.blank_for_b Scenario.root (Scenario.disk ("a" +:+ PyStr.LF))
     = (Returns (false, "Hunk mismatch in f.txt at line 1. Patch may be stale."),
        Scenario.disk ("a" +:+ PyStr.LF)).
Proof.
  assert (H1 : apply_patch Scenario.blank_for_b Scenario.root (Scenario.disk Scenario.ab)
               = (Returns (true, "Patched: f.txt"), Scenario.disk ("a" +:+ PyStr.LF)))
    by (vm_compute; reflexivity).
  split; [exact H1 |].
  destruct (reapply_mismatch_iff_overrun Scenario.blank_for_b Scenario.root
              "Patched: f.txt" (Scenario.disk Scenario.ab)
              (Scenario.disk ("a" +:+ PyStr.LF)))
    as (p & rel & text & Hloc & Hread & _ & Hmis & _).
  - split; [left; discriminate |]. constructor; [| constructor].
    split; [simpl; lia |]. split; [simpl; lia |]. split.
    + simpl. repeat (constructor; [auto |]). constructor.
    + split; reflexivity.
  - discriminate.
  - exact H1.
  - vm_compute in Hloc. injection Hloc as <- <-.
    vm_compute in Hread. injection Hread as <-.
    apply (Hmis (mkHunk 1 2 1 2 [mkHunkLine " " "a"; mkHunkLine "-" "b"; mkHunkLine "+" ""])).
    vm_compute. reflexivity.
Defined.

(** ** C2: reverse order against the forward simulation *)

Lemma emit_app (ls : list HunkLine) (src more : list string) :
  (old_extent ls <= List.length src)%nat -> emit ls (src ++ more) = emit ls src.
Proof.
  intros H.
  rewrite <- (emit_firstn ls (src ++ more) (List.length src) H).
  rewrite take_app_length. reflexivity.
Qed.

(** The source lines a hunk reads are those of its range. *)
Lemma emit_range (ls : list HunkLine) (buf : list string) (s : nat) :
  (s + old_extent ls <= List.length buf)%nat ->
  emit ls (skipn s buf) = emit ls (skipn s (firstn (s + old_extent ls) buf)).
Proof.
  intros H.
  rewrite <- (firstn_skipn (s + old_extent ls) buf) at 1.
  rewrite drop_app_le by (rewrite length_take_le; lia).
  apply emit_app. rewrite length_drop, length_take_le; lia.
Qed.

(** The reverse-order loop computes the one-pass result. *)
Lemma apply_hunks_rev_stream (hs : list Hunk) :
  forall (pos : nat) (buf : list string),
    disjoint_from (Z.of_nat pos) (Z.of_nat (List.length buf)) hs ->
    apply_hunks (rev hs) buf = Returns (inr (firstn pos buf ++ stream hs pos buf)).
Proof.
  induction hs as [|h rest IH]; intros pos buf Hd.
  { simpl. rewrite firstn_skipn. reflexivity. }
  destruct Hd as (Hlo & Hhi & Hrest).
  set (s := Z.to_nat (old_start h - 1)).
  set (e := (s + old_extent (lines h))%nat).
  assert (He : Z.of_nat e = old_start h - 1 + Z.of_nat (old_extent (lines h))) by lia.
  rewrite <- He in Hrest.
  specialize (IH e buf Hrest).
  simpl rev. rewrite (apply_hunks_app _ [h] _ _ IH).
  cbn [apply_hunks].
  set (buf_r := firstn e buf ++ stream rest e buf).
  assert (Hlen : List.length (firstn e buf) = e) by (apply length_take_le; lia).
  assert (Hs : _apply_hunk buf_r h = Returns (Some (splice buf_r s h))).
  { apply apply_hunk_some_iff; [lia |]. split; [| reflexivity].
    right. unfold buf_r. rewrite length_app, Hlen. lia. }
  rewrite Hs. do 2 f_equal.
  unfold splice, buf_r. fold e.
  rewrite take_app_le by lia.
  rewrite take_take, Nat.min_l by lia.
  rewrite (drop_app_length' _ _ e) by (symmetry; exact Hlen).
  rewrite drop_app_le by lia.
  rewrite emit_app by (rewrite length_drop, Hlen; lia).
  cbn [stream]. fold s. fold e.
  rewrite (emit_range (lines h) buf s) by lia. fold e.
  rewrite (app_assoc (firstn pos buf)). f_equal.
  rewrite take_take_drop. f_equal. lia.
Qed.

(** The forward simulation computes the one-pass result: [out] is the
    part of the new file already written, [pos] the position reached in
    the old one. *)
Lemma forward_reference_stream (hs : list Hunk) :
  forall (pos : nat) (offset : Z) (out buf : list string),
    disjoint_from (Z.of_nat pos) (Z.of_nat (List.length buf)) hs ->
    Z.of_nat (List.length out) = Z.of_nat pos + offset ->
    forward_reference hs offset (out ++ skipn pos buf) = out ++ stream hs pos buf.
Proof.
  induction hs as [|h rest IH]; intros pos offset out buf Hd Hout; [reflexivity |].
  destruct Hd as (Hlo & Hhi & Hrest).
  set (s := Z.to_nat (old_start h - 1)).
  set (e := (s + old_extent (lines h))%nat).
  assert (He : Z.of_nat e = old_start h - 1 + Z.of_nat (old_extent (lines h))) by lia.
  rewrite <- He in Hrest.
  cbn [forward_reference stream]. fold s. fold e.
  replace (Z.to_nat (old_start h - 1 + offset)) with (List.length out + (s - pos))%nat by lia.
  unfold splice.
  rewrite take_app_add.
  rewrite drop_app_add, drop_drop.
  replace (List.length out + (s - pos) + old_extent (lines h))%nat
    with (List.length out + (e - pos))%nat by lia.
  rewrite drop_app_add, drop_drop.
  replace (pos + (s - pos))%nat with s by lia.
  replace (pos + (e - pos))%nat with e by lia.
  set (out' := out ++ firstn (s - pos) (skipn pos buf) ++ emit (lines h) (skipn s buf)).
  replace ((out ++ firstn (s - pos) (skipn pos buf)) ++ emit (lines h) (skipn s buf)
           ++ skipn e buf)
    with (out' ++ skipn e buf)
    by (unfold out'; rewrite <- !app_assoc; reflexivity).
  rewrite (IH e _ out' buf Hrest).
  - unfold out'. rewrite <- !app_assoc. reflexivity.
  - unfold out'. rewrite !length_app, length_take_le by (rewrite length_drop; lia).
    rewrite emit_length by (rewrite length_drop; lia).
    lia.
Qed.

(** Disjoint ranges in file order have ascending [old_start]s. *)
Lemma disjoint_from_lower (hs : list Hunk) :
  forall pos n h, disjoint_from pos n hs -> In h hs -> pos <= old_start h - 1.
Proof.
  induction hs as [|h0 rest IH]; intros pos n h Hd Hin; [contradiction |].
  destruct Hd as (Hlo & Hhi & Hrest). destruct Hin as [->|Hin]; [exact Hlo |].
  specialize (IH _ _ _ Hrest Hin). lia.
Qed.

Lemma disjoint_from_ascending (hs : list Hunk) :
  forall pos n i j a b,
    disjoint_from pos n hs -> (i < j)%nat ->
    nth_error hs i = Some a -> nth_error hs j = Some b ->
    old_start a <= old_start b.
Proof.
  induction hs as [|h0 rest IH]; intros pos n i j a b Hd Hij Ha Hb.
  { destruct i; discriminate. }
  destruct Hd as (Hlo & Hhi & Hrest).
  destruct j as [|j]; [lia |]. simpl in Hb.
  destruct i as [|i].
  - simpl in Ha. injection Ha as <-.
    apply nth_error_In in Hb.
    pose proof (disjoint_from_lower _ _ _ _ Hrest Hb). lia.
  - simpl in Ha. apply (IH _ _ i j a b Hrest); [lia | assumption | assumption].
Qed.

Lemma disjoint_from_descending (hs : list Hunk) (pos n : Z) :
  disjoint_from pos n hs -> descending (rev hs).
Proof.
  intros Hd i j a b Hij Ha Hb.
  rewrite nth_error_rev in Ha, Hb.
  destruct (Nat.ltb_spec i (List.length hs)); [| discriminate].
  destruct (Nat.ltb_spec j (List.length hs)); [| discriminate].
  apply (disjoint_from_ascending hs pos n _ _ b a Hd
           ltac:(instantiate (1 := (List.length hs - S i)%nat);
                 instantiate (1 := (List.length hs - S j)%nat); lia) Hb Ha).
Qed.

(** C2. For a modification patch whose hunks are stored in file order and
    edit disjoint ranges of the file, [apply_patch] visits the hunks in
    descending order of [old_start], the lines it obtains are those of the
    forward simulation (ascending order, each hunk moved by the offset of
    the hunks before it), and those lines are what it writes. *)
Theorem apply_patch_reverse_is_forward (patch : FilePatch) (root : string) (fs : Disk)
    (p : Path.PurePath) (k : list string) (rel original : string) :
  old_path patch <> "" ->
  locate patch root fs = Returns (Some (p, rel)) ->
  Path.reach fs p = inr k ->
  Path.read_text p fs = Returns original ->
  open_err fs !! Path.str p = None ->
  write_err fs !! Path.str p = None ->
  disjoint_ranges (List.length (PyStr.splitlines original)) (hunks patch) ->
  descending (rev (hunks patch))
  /\ apply_hunks (rev (hunks patch)) (PyStr.splitlines original)
     = Returns (inr (forward_reference (hunks patch) 0 (PyStr.splitlines original)))
  /\ apply_patch patch root fs
     = (Returns (true, "Patched: " +:+ rel),
        Path.put k
          (RegularFile
             (patched_content (forward_reference (hunks patch) 0 (PyStr.splitlines original))))
          fs).
Proof.
  intros Hold Hloc Hres Hread Ho Hw Hd. unfold disjoint_ranges in Hd.
  assert (Hloop : apply_hunks (rev (hunks patch)) (PyStr.splitlines original)
                  = Returns (inr (forward_reference (hunks patch) 0
                                    (PyStr.splitlines original)))).
  { rewrite (apply_hunks_rev_stream _ 0%nat _ Hd).
    do 2 f_equal. symmetry.
    exact (forward_reference_stream (hunks patch) 0%nat 0 []
             (PyStr.splitlines original) Hd eq_refl). }
  split; [exact (disjoint_from_descending _ _ _ Hd) |].
  split; [exact Hloop |].
  rewrite (apply_patch_located _ _ _ _ _ _ Hold Hloc Hread), Hloop.
  destruct (read_text_returns _ _ _ Hread) as (k' & t & Hl & _ & _).
  assert (k' = k) as -> by (apply lookup_inr in Hl as [Hl _]; congruence).
  rewrite (write_text_stored p k t _ fs Hl Ho Hw). reflexivity.
Qed.

Lemma apply_patch_reverse_is_forward_witness :
  apply_patch Scenario.two_hunks Scenario.root (Scenario.disk Scenario.six)
  = (Returns (true, "Patched: f.txt"),
     Path.put Scenario.place (RegularFile Scenario.six_patched) (Scenario.disk Scenario.six)).
Proof.
  apply (apply_patch_reverse_is_forward Scenario.two_hunks Scenario.root
           (Scenario.disk Scenario.six) Scenario.target Scenario.place "f.txt" Scenario.six).
  - discriminate.
  - reflexivity.
  - reflexivity.
  - reflexivity.
  - reflexivity.
  - reflexivity.
  - unfold disjoint_ranges. vm_compute. repeat split; discriminate.
Defined.

(** ** C9: the counts of a parsed hunk *)

Lemma prefix_empty (s : string) : String.prefix "" s = true.
Proof. destruct s; reflexivity. Qed.

(** The branch that the innermost loop of [parse_diff] takes on a line,
    and what the line counts for. *)
Lemma body_line_cases (line : string) :
  (PyStr.startswith line "-" = true /\ counts_old line = true /\ counts_new line = false)
  \/ (PyStr.startswith line "-" = false /\ PyStr.startswith line "+" = true
      /\ counts_old line = false /\ counts_new line = true)
  \/ (PyStr.startswith line "-" = false /\ PyStr.startswith line "+" = false
      /\ PyStr.startswith line " " || String.eqb line "" = true
      /\ counts_old line = true /\ counts_new line = true)
  \/ (PyStr.startswith line "-" = false /\ PyStr.startswith line "+" = false
      /\ PyStr.startswith line " " || String.eqb line "" = false
      /\ PyStr.startswith line "\" = true
      /\ counts_old line = false /\ counts_new line = false)
  \/ (PyStr.startswith line "-" = false /\ PyStr.startswith line "+" = false
      /\ PyStr.startswith line " " || String.eqb line "" = false
      /\ PyStr.startswith line "\" = false /\ is_body_line line = false).
Proof.
  unfold counts_old, counts_new, is_body_line, PyStr.startswith.
  destruct line as [|c s].
  { right. right. left. repeat split; reflexivity. }
  cbn [String.prefix String.eqb].
  destruct (ascii_dec "-" c) as [<-|H1].
  { left. cbn. rewrite ?prefix_empty. repeat split; reflexivity. }
  destruct (ascii_dec "+" c) as [<-|H2].
  { right. left. cbn. rewrite ?prefix_empty. repeat split; reflexivity. }
  destruct (ascii_dec " " c) as [<-|H3].
  { right. right. left. cbn. rewrite ?prefix_empty. repeat split; reflexivity. }
  destruct (ascii_dec "\" c) as [<-|H4].
  { right. right. right. left. cbn. rewrite ?prefix_empty. repeat split; reflexivity. }
  right. right. right. right. repeat split; reflexivity.
Qed.

Lemma new_extent_app (l1 l2 : list HunkLine) :
  new_extent (l1 ++ l2) = (new_extent l1 + new_extent l2)%nat.
Proof. unfold new_extent. rewrite List.filter_app, length_app. reflexivity. Qed.

(** On a valid body the innermost loop collects as many old and new lines
    as remained to be read. *)
Lemma parse_hunk_lines_valid_body (body rest : list string) :
  forall hunk_lines o n,
    forallb is_body_line body = true ->
    Z.of_nat (List.length (List.filter counts_old body)) = o ->
    Z.of_nat (List.length (List.filter counts_new body)) = n ->
    Z.of_nat (old_extent (fst (parse_hunk_lines (body ++ rest) hunk_lines o n)))
    = Z.of_nat (old_extent hunk_lines) + o
    /\ Z.of_nat (new_extent (fst (parse_hunk_lines (body ++ rest) hunk_lines o n)))
       = Z.of_nat (new_extent hunk_lines) + n.
Proof.
  induction body as [|line body IH]; intros acc o n Hall Ho Hn.
  { simpl in Ho, Hn. subst o n. simpl app.
    destruct rest as [|line rest]; simpl; lia. }
  simpl in Hall. apply andb_true_iff in Hall as [Hline Hall].
  simpl List.filter in Ho, Hn.
  change ((line :: body) ++ rest) with (line :: (body ++ rest)).
  cbn [parse_hunk_lines].
  destruct ((0 <? o) || (0 <? n)) eqn:Hc.
  2:{ apply orb_false_iff in Hc as [Hc1 Hc2].
      apply Z.ltb_ge in Hc1, Hc2. cbn [fst]. lia. }
  destruct (body_line_cases line) as
    [(E1 & Co & Cn) | [(E1 & E2 & Co & Cn) | [(E1 & E2 & E3 & Co & Cn)
     | [(E1 & E2 & E3 & E4 & Co & Cn) | (E1 & E2 & E3 & E4 & Eb)]]]];
    [| | | | rewrite Eb in Hline; discriminate];
    rewrite Co in Ho; rewrite Cn in Hn; rewrite E1; rewrite ?E2, ?E3, ?E4.
  - destruct (IH (acc ++ [mkHunkLine "-" (PyStr.drop 1 line)]) (o - 1) n Hall) as [H1 H2];
      [simpl in Ho; lia | exact Hn |].
    rewrite H1, H2, old_extent_app, new_extent_app. unfold old_extent, new_extent. simpl. lia.
  - destruct (IH (acc ++ [mkHunkLine "+" (PyStr.drop 1 line)]) o (n - 1) Hall) as [H1 H2];
      [exact Ho | simpl in Hn; lia |].
    rewrite H1, H2, old_extent_app, new_extent_app. unfold old_extent, new_extent. simpl. lia.
  - destruct (IH (acc ++ [mkHunkLine " " (if String.eqb line "" then "" else PyStr.drop 1 line)])
                (o - 1) (n - 1) Hall) as [H1 H2];
      [simpl in Ho; lia | simpl in Hn; lia |].
    rewrite H1, H2, old_extent_app, new_extent_app. unfold old_extent, new_extent. simpl. lia.
  - apply IH; assumption.
Qed.

Lemma valid_input_suffix (pre ls : list string) :
  valid_input (pre ++ ls) = true -> valid_input ls = true.
Proof.
  induction pre as [|l pre IH]; intros H; [exact H |].
  simpl in H. apply andb_true_iff in H as [_ H]. apply IH. exact H.
Qed.

(** The loop over the hunks keeps the invariant of the counts. *)
Lemma parse_hunks_counts (fuel : nat) :
  forall ls hs hs' rest,
    valid_input ls = true -> Forall hunk_counts_ok hs ->
    parse_hunks fuel ls hs = Returns (hs', rest) ->
    Forall hunk_counts_ok hs' /\ valid_input rest = true.
Proof.
  induction fuel as [|fuel IH]; intros ls hs hs' rest' Hv Hok H.
  { injection H as <- <-. split; assumption. }
  destruct ls as [|line rest]; [injection H as <- <-; split; [assumption | reflexivity] |].
  destruct (PyStr.startswith line "---") eqn:Hs.
  { cbn [parse_hunks] in H. rewrite Hs in H. injection H as <- <-. split; assumption. }
  cbn [valid_input] in Hv. apply andb_true_iff in Hv as [Hhead Hrest].
  destruct (HunkHeader.re_match line) as [[[[g1 g2] g3] g4]|] eqn:Hm.
  2:{ cbn [parse_hunks] in H. rewrite Hs, Hm in H. exact (IH _ _ _ _ Hrest Hok H). }
  destruct (parse_hunks_at_header _ _ _ _ _ _ _ _ _ Hs Hm H)
    as (os & oc & ns & nc & _ & Hoc & _ & Hnc & H').
  rewrite Hoc, Hnc in Hhead.
  apply existsb_exists in Hhead as (k & _ & Hbody).
  unfold valid_body in Hbody.
  apply andb_true_iff in Hbody as [Hbody Hn]. apply andb_true_iff in Hbody as [Hall Ho].
  apply Z.eqb_eq in Ho, Hn.
  pose proof (parse_hunk_lines_valid_body (firstn k rest) (skipn k rest) []
                _ _ Hall Ho Hn) as [H1 H2].
  rewrite firstn_skipn in H1, H2.
  destruct (parse_hunk_lines_suffix rest [] oc nc) as [pre Hpre].
  apply (IH _ _ _ _) in H'; [exact H' | |].
  - rewrite Hpre in Hrest. exact (valid_input_suffix _ _ Hrest).
  - apply Forall_app. split; [exact Hok |].
    constructor; [| constructor]. split; cbn [lines old_count new_count].
    + rewrite H1. unfold old_extent. simpl. lia.
    + rewrite H2. unfold new_extent. simpl. lia.
Qed.

(** The loop over the file blocks keeps it as well. *)
Lemma parse_files_counts (fuel : nat) :
  forall ls patches ps,
    valid_input ls = true ->
    Forall (fun p => Forall hunk_counts_ok (hunks p)) patches ->
    parse_files fuel ls patches = Returns ps ->
    Forall (fun p => Forall hunk_counts_ok (hunks p)) ps.
Proof.
  induction fuel as [|fuel IH]; intros ls patches ps Hv Hok H.
  { injection H as <-. exact Hok. }
  destruct ls as [|line rest]; [injection H as <-; exact Hok |].
  cbn [parse_files] in H.
  assert (Hrest : valid_input rest = true) by exact (valid_input_suffix [line] rest Hv).
  destruct (PyStr.startswith line "---"); cbn [negb] in H; [| exact (IH _ _ _ Hrest Hok H)].
  destruct rest as [|line' rest']; [exact (IH _ _ _ Hrest Hok H) |].
  destruct (PyStr.startswith line' "+++"); cbn [negb] in H; [| exact (IH _ _ _ Hrest Hok H)].
  assert (Hrest' : valid_input rest' = true) by exact (valid_input_suffix [line'] rest' Hrest).
  destruct (parse_hunks (List.length rest') rest' []) as [[hs rest'']|e] eqn:E;
    [| discriminate H].
  cbn [mbind outcome_bind] in H.
  destruct (parse_hunks_counts _ _ _ _ _ Hrest' ltac:(constructor) E) as [H1 H2].
  apply (IH _ _ _ H2) in H; [exact H |].
  apply Forall_app. split; [exact Hok |]. constructor; [exact H1 | constructor].
Qed.

(** C9. Every hunk that [parse_diff] produces from valid input (after
    each hunk header, a body of operation lines with as many old and new
    lines as the header declares) has as many Context and Remove lines as
    its [old_count], and as many Context and Add lines as its
    [new_count]. *)
Theorem parse_diff_counts (diff_text : string) (ps : list FilePatch) (p : FilePatch)
    (h : Hunk) :
  valid_input (PyStr.splitlines diff_text) = true ->
  parse_diff diff_text = Returns ps ->
  In p ps ->
  In h (hunks p) ->
  Z.of_nat (old_extent (lines h)) = old_count h
  /\ Z.of_nat (new_extent (lines h)) = new_count h.
Proof.
  intros Hv Hps Hp Hh.
  pose proof (parse_files_counts (List.length (PyStr.splitlines diff_text))
                (PyStr.splitlines diff_text) [] ps Hv ltac:(constructor) Hps) as Hall.
  rewrite List.Forall_forall in Hall. specialize (Hall p Hp).
  rewrite List.Forall_forall in Hall. exact (Hall h Hh).
Qed.

Lemma parse_diff_counts_witness :
  Z.of_nat (old_extent (lines Scenario.hunk)) = old_count Scenario.hunk
  /\ Z.of_nat (new_extent (lines Scenario.hunk)) = new_count Scenario.hunk.
Proof.
  apply (parse_diff_counts Scenario.diff [Scenario.patch] Scenario.patch Scenario.hunk).
  - vm_compute. reflexivity.
  - vm_compute. reflexivity.
  - left. reflexivity.
  - left. reflexivity.
Defined.

(** * Further properties of the code *)

(** ** [_strip_path_prefix] *)

Lemma prefix_cons (a b : ascii) (s1 s2 : string) :
  String.prefix (String a s1) (String b s2) = Ascii.eqb a b && String.prefix s1 s2.
Proof.
  cbn [String.prefix]. destruct (ascii_dec a b) as [->|H].
  - rewrite Ascii.eqb_refl. reflexivity.
  - apply Ascii.eqb_neq in H. rewrite H. reflexivity.
Qed.

(** X1. [_strip_path_prefix] returns the empty path, which [apply_patch]
    takes for a creation or for a missing path, on exactly four inputs:
    the empty string, the bare prefixes [a/] and [b/], and [/dev/null]. *)
Theorem strip_path_prefix_empty_iff (p : string) :
  _strip_path_prefix p = "" <->
  p = "" \/ p = "a/" \/ p = "b/" \/ p = "/dev/null".
Proof.
  split; [| intros [-> | [-> | [-> | ->]]]; reflexivity].
  unfold _strip_path_prefix, PyStr.startswith.
  destruct (String.prefix "a/" p || String.prefix "b/" p) eqn:E.
  - destruct p as [|c1 [|c2 s]]; [discriminate E | |].
    + rewrite !prefix_cons in E. cbn [String.prefix] in E.
      rewrite !andb_false_r in E. discriminate E.
    + cbn [PyStr.drop]. intros ->.
      rewrite !prefix_cons, !prefix_empty, !andb_true_r in E.
      apply orb_true_iff in E as [E|E]; apply andb_true_iff in E as [E1 E2];
        apply Ascii.eqb_eq in E1, E2; subst; auto.
  - destruct (String.eqb_spec p "/dev/null") as [->|Hn]; [auto |].
    intros ->. auto.
Qed.

(** ** [apply_patch]: what it leaves alone *)

(** A failure entry for a patch with an old path: nothing was written. *)
Lemma modification_failure_keeps_disk (patch : FilePatch) (root msg : string)
    (fs fs' : Disk) :
  old_path patch <> "" ->
  apply_patch patch root fs = (Returns (false, msg), fs') ->
  fs' = fs.
Proof.
  intros Hold H. unfold apply_patch in H.
  rewrite (target_rel_nonempty patch Hold) in H.
  apply String.eqb_neq in Hold. rewrite Hold in H.
  destruct (locate patch root fs) as [[[p rel]|]|e]; try (injection H; auto; fail).
  destruct (Path.read_text p fs); [| injection H; auto].
  destruct (apply_hunks _ _) as [[h|ls]|e]; try (injection H; auto; fail).
  destruct (Path.write_text p _ fs) as [[u|e] fs1]; discriminate H.
Qed.

(** Whatever [os.mkdir] and [Path.mkdir] return, they make directories
    where nothing was and change nothing else. *)
Lemma os_mkdir_dirs_made (p : Path.PurePath) (fs fs' : Disk) :
  Path.os_mkdir p fs = inr fs' -> dirs_made fs fs'.
Proof.
  unfold Path.os_mkdir. intros H.
  destruct (Path.reach fs p) as [e|k]; [discriminate H |].
  destruct (mkdir_err fs !! Path.str p); [discriminate H |].
  destruct (Path.node_at fs k) eqn:E; [discriminate H |].
  injection H as <-.
  pose proof (dirs_made_ensure_dir k fs) as Hd. unfold Path.ensure_dir in Hd.
  rewrite E in Hd. exact Hd.
Qed.

Lemma unless_is_dir_disk (p : Path.PurePath) (f : Path.failure) (fs fs' : Disk)
    (r : outcome unit) :
  Path.unless_is_dir p f fs = (r, fs') -> fs' = fs.
Proof.
  unfold Path.unless_is_dir. destruct (Path.is_dir p fs) as [[|]|e]; intros H;
    injection H as _ <-; reflexivity.
Qed.

Lemma mkdir_exist_ok_dirs_made (p : Path.PurePath) (fs fs' : Disk) (r : outcome unit) :
  Path.mkdir_exist_ok p fs = (r, fs') -> dirs_made fs fs'.
Proof.
  unfold Path.mkdir_exist_ok. intros H.
  destruct (Path.os_mkdir p fs) as [f|fs1] eqn:E.
  - assert (fs' = fs) as ->; [| apply dirs_made_refl].
    destruct f as [[| | |]|m];
      solve [injection H as _ <-; reflexivity | exact (unless_is_dir_disk _ _ _ _ _ H)].
  - injection H as _ <-. exact (os_mkdir_dirs_made _ _ _ E).
Qed.

Lemma mkdir_parents_dirs_made (a : string) (names : list string) :
  forall fs fs' r, Path.mkdir_parents a names fs = (r, fs') -> dirs_made fs fs'.
Proof.
  induction names as [|c above IH]; intros fs fs' r H; cbn [Path.mkdir_parents] in H.
  - destruct (Path.os_mkdir _ fs) as [f|fs1] eqn:E.
    + assert (fs' = fs) as ->; [| apply dirs_made_refl].
      destruct f as [[| | |]|m];
        solve [injection H as _ <-; reflexivity | exact (unless_is_dir_disk _ _ _ _ _ H)].
    + injection H as _ <-. exact (os_mkdir_dirs_made _ _ _ E).
  - destruct (Path.os_mkdir _ fs) as [f|fs1] eqn:E.
    + destruct f as [[| | |]|m];
        try (assert (fs' = fs) as ->;
             [exact (unless_is_dir_disk _ _ _ _ _ H) | apply dirs_made_refl]).
      destruct (Path.mkdir_parents a above fs) as [[u|e] fs1] eqn:E1.
      * apply IH in E1. apply mkdir_exist_ok_dirs_made in H.
        exact (dirs_made_trans _ _ _ E1 H).
      * injection H as _ <-. exact (IH _ _ _ E1).
    + injection H as _ <-. exact (os_mkdir_dirs_made _ _ _ E).
Qed.

(** What [write_text] leaves: the disk as it was, or a text at the place
    that the path names, which held no directory. *)
Lemma write_text_disk (p : Path.PurePath) (content : string) (fs fs' : Disk)
    (r : outcome unit) :
  Path.write_text p content fs = (r, fs') ->
  fs' = fs
  \/ exists k t, Path.reach fs p = inr k
                 /\ Path.kind (Path.node_at fs k) <> Some true
                 /\ fs' = Path.put k (RegularFile t) fs
                 /\ (r = Returns tt -> t = content).
Proof.
  unfold Path.write_text. intros H.
  destruct (Path.reach fs p) as [e|k]; [injection H; auto |].
  assert (Hcase : Path.kind (Path.node_at fs k) = Some true
                  \/ Path.kind (Path.node_at fs k) <> Some true
                     /\ (match open_err fs !! Path.str p with
                         | Some msg => (Raises (OSError msg), fs)
                         | None =>
                             match write_err fs !! Path.str p with
                             | Some (msg, remains) =>
                                 (Raises (OSError msg), Path.put k (RegularFile remains) fs)
                             | None => (Returns tt, Path.put k (RegularFile content) fs)
                             end
                         end) = (r, fs')).
  { destruct (Path.node_at fs k) as [[t|]|]; [right | left; reflexivity | right];
      (split; [discriminate | exact H]). }
  destruct Hcase as [Hdir|[Hk H']].
  - destruct (Path.node_at fs k) as [[t|]|]; try discriminate Hdir. injection H; auto.
  - destruct (open_err fs !! Path.str p); [injection H'; auto |].
    destruct (write_err fs !! Path.str p) as [[m remains]|].
    + injection H' as <- <-. right. exists k, remains.
      repeat split; [exact Hk | discriminate].
    + injection H' as <- <-. right. exists k, content. repeat split; exact Hk.
Qed.

(** X2. A failure entry of [apply_patch] for a patch with an old path
    means that the disk is what it was.  A creation that fails can leave
    the directories it made and, at the place of the target, what an
    interrupted write left; every other place holds what it held. *)
Theorem failure_entry_and_disk (patch : FilePatch) (root msg : string) (fs fs' : Disk) :
  apply_patch patch root fs = (Returns (false, msg), fs') ->
  (old_path patch <> "" -> fs' = fs)
  /\ (old_path patch = "" ->
      exists fs1,
        dirs_made fs fs1
        /\ (fs' = fs1
            \/ exists k remains,
                 Path.reach fs1 (abs_path root (target_rel patch)) = inr k
                 /\ Path.kind (Path.node_at fs1 k) <> Some true
                 /\ fs' = Path.put k (RegularFile remains) fs1)).
Proof.
  intros H. split.
  - intros Hold. exact (modification_failure_keeps_disk _ _ _ _ _ Hold H).
  - intros Hold. unfold apply_patch in H.
    destruct (String.eqb (target_rel patch) "").
    { injection H as _ <-. exists fs. split; [apply dirs_made_refl | left; reflexivity]. }
    rewrite Hold in H. cbn [String.eqb] in H.
    destruct (Path.mkdir _ fs) as [[u|e] fs1] eqn:Hm;
      unfold Path.mkdir in Hm; apply mkdir_parents_dirs_made in Hm.
    + exists fs1. split; [exact Hm |].
      destruct (Path.write_text _ _ fs1) as [[u'|e] fs2] eqn:Hw; [discriminate H |].
      injection H as _ <-.
      destruct (write_text_disk _ _ _ _ _ Hw) as [->|(k & t & Hres & Hk & -> & _)];
        [left; reflexivity | right; eauto].
    + injection H as _ <-. exists fs1. split; [exact Hm | left; reflexivity].
Qed.

Lemma failure_entry_and_disk_witness :
  apply_patch Scenario.into_directory Scenario.root (Scenario.disk Scenario.abc)
  = (Returns (false,
              "Failed to create new/sub/..: [Errno 21] Is a directory: '/srv/code/new/sub/..'"),
     Path.with_dirs Scenario.new_sub (Scenario.disk Scenario.abc))
  /\ exists fs1,
       dirs_made (Scenario.disk Scenario.abc) fs1
       /\ (Path.with_dirs Scenario.new_sub (Scenario.disk Scenario.abc) = fs1
           \/ exists k remains,
                Path.reach fs1 (abs_path Scenario.root (target_rel Scenario.into_directory))
                = inr k
                /\ Path.kind (Path.node_at fs1 k) <> Some true
                /\ Path.with_dirs Scenario.new_sub (Scenario.disk Scenario.abc)
                   = Path.put k (RegularFile remains) fs1).
Proof.
  assert (H : apply_patch Scenario.into_directory Scenario.root (Scenario.disk Scenario.abc)
              = (Returns (false,
                          "Failed to create new/sub/..: [Errno 21] Is a directory: '/srv/code/new/sub/..'"),
                 Path.with_dirs Scenario.new_sub (Scenario.disk Scenario.abc)))
    by (vm_compute; reflexivity).
  split; [exact H |].
  exact (proj2 (failure_entry_and_disk _ _ _ _ _ H) eq_refl).
Defined.

(** A walk that arrives went through directories, to the place of the
    path. *)
Lemma walk_arrives (fs : Disk) (p : list string) :
  forall cur k,
    Path.walk fs cur p = inr k ->
    k = Path.place_from cur p
    /\ forall i, (i < List.length p)%nat ->
                 Path.node_at fs (Path.place_from cur (firstn i p)) = Some Directory.
Proof.
  induction p as [|c p IH]; intros cur k H.
  - injection H as <-. split; [reflexivity |]. intros i Hi. simpl in Hi. lia.
  - cbn [Path.walk] in H.
    destruct (Path.node_at fs cur) as [[t|]|] eqn:E; try discriminate H.
    destruct (IH _ _ H) as [-> Hdirs]. split; [reflexivity |].
    intros [|i] Hi; [exact E |]. apply (Hdirs i). simpl in Hi. lia.
Qed.

(** A text put at the place that a path names, where no directory was:
    the path names the text. *)
Lemma lookup_put_at (fs : Disk) (p : Path.PurePath) (k : list string) (t : string) :
  Path.reach fs p = inr k ->
  Path.kind (Path.node_at fs k) <> Some true ->
  Path.lookup (Path.put k (RegularFile t) fs) p = inr (k, RegularFile t).
Proof.
  intros Hres Hk.
  assert (Hne : k <> []) by (intros ->; apply Hk; reflexivity).
  destruct (walk_arrives _ _ _ _ Hres) as [Hplace Hdirs].
  apply lookup_inr. split.
  - transitivity (@inr errno _ (Path.place_from [] (Path.parts p))); [| congruence].
    apply walk_directories.
    intros i Hi. rewrite node_at_put by exact Hne.
    case_decide as E; [| exact (Hdirs i Hi)].
    exfalso. apply Hk. rewrite <- E, (Hdirs i Hi). reflexivity.
  - rewrite node_at_put by exact Hne. case_decide; congruence.
Qed.

Lemma write_text_returns (p : Path.PurePath) (content : string) (fs fs' : Disk)
    (r : unit) :
  Path.write_text p content fs = (Returns r, fs') ->
  exists k, Path.reach fs p = inr k
            /\ Path.kind (Path.node_at fs k) <> Some true
            /\ fs' = Path.put k (RegularFile content) fs.
Proof.
  unfold Path.write_text. intros H.
  destruct (Path.reach fs p) as [e|k]; [discriminate H |].
  exists k. split; [reflexivity |].
  destruct (Path.node_at fs k) as [[t|]|]; try discriminate H;
    (destruct (open_err fs !! Path.str p); [discriminate H |];
     destruct (write_err fs !! Path.str p) as [[m remains]|]; [discriminate H |];
     injection H as _ <-; split; [discriminate | reflexivity]).
Qed.

(** X3. A successful [apply_patch] puts a text at one place of the tree,
    the one that the target path or the old path names; a creation also
    makes directories where nothing was; every other place holds what it
    held, and the path then names the text. *)
Theorem apply_patch_success_stores_one_file (patch : FilePatch) (root msg : string)
    (fs fs' : Disk) :
  apply_patch patch root fs = (Returns (true, msg), fs') ->
  exists fs1 p k content,
    dirs_made fs fs1
    /\ (old_path patch <> "" -> fs1 = fs)
    /\ (p = abs_path root (target_rel patch) \/ p = abs_path root (old_path patch))
    /\ Path.reach fs1 p = inr k
    /\ fs' = Path.put k (RegularFile content) fs1
    /\ Path.lookup fs' p = inr (k, RegularFile content)
    /\ forall q, q <> k -> Path.node_at fs' q = Path.node_at fs1 q.
Proof.
  intros H.
  assert (Hput : forall fs1 p content r,
            Path.write_text p content fs1 = (Returns r, fs') ->
            exists k, Path.reach fs1 p = inr k
                      /\ fs' = Path.put k (RegularFile content) fs1
                      /\ Path.lookup fs' p = inr (k, RegularFile content)
                      /\ forall q, q <> k -> Path.node_at fs' q = Path.node_at fs1 q).
  { intros fs1 p content r Hw.
    destruct (write_text_returns _ _ _ _ _ Hw) as (k & Hres & Hk & ->).
    exists k. split; [exact Hres |]. split; [reflexivity |].
    split; [exact (lookup_put_at _ _ _ _ Hres Hk) |].
    intros q Hq.
    assert (Hne : k <> []) by (intros ->; apply Hk; reflexivity).
    rewrite node_at_put by exact Hne. case_decide; congruence. }
  unfold apply_patch in H.
  destruct (String.eqb (target_rel patch) "") eqn:Hrel; [discriminate H |].
  destruct (String.eqb (old_path patch) "") eqn:Hold.
  - destruct (Path.mkdir _ fs) as [[u|e] fs1] eqn:Hm; [| discriminate H].
    unfold Path.mkdir in Hm. apply mkdir_parents_dirs_made in Hm.
    destruct (Path.write_text _ _ fs1) as [[u'|e] fs2] eqn:Hw; [| discriminate H].
    injection H as _ <-.
    destruct (Hput _ _ _ _ Hw) as (k & H1 & H2 & H3 & H4).
    exists fs1, (abs_path root (target_rel patch)), k, (created_content (hunks patch)).
    split; [exact Hm |]. split; [apply String.eqb_eq in Hold; congruence |].
    split; [left; reflexivity |]. auto.
  - destruct (locate patch root fs) as [[[p rel]|]|e] eqn:Hloc; try discriminate H.
    destruct (Path.read_text p fs); [| discriminate H].
    destruct (apply_hunks _ _) as [[h|ls]|e]; try discriminate H.
    destruct (Path.write_text p _ fs) as [[u|e] fs1] eqn:Hw; [| discriminate H].
    injection H as _ <-.
    destruct (Hput _ _ _ _ Hw) as (k & H1 & H2 & H3 & H4).
    exists fs, p, k, (patched_content ls).
    split; [apply dirs_made_refl |]. split; [reflexivity |].
    split; [| auto].
    unfold locate in Hloc.
    destruct (Path.exists_ (abs_path root (target_rel patch)) fs) as [[|]|];
      [injection Hloc as <- _; left; reflexivity | | discriminate Hloc].
    destruct (Path.exists_ (abs_path root (old_path patch)) fs) as [[|]|];
      [injection Hloc as <- _; right; reflexivity | discriminate Hloc | discriminate Hloc].
Qed.

Lemma apply_patch_success_stores_one_file_witness :
  exists fs1 p k content,
    dirs_made (Scenario.disk Scenario.abc) fs1
    /\ (old_path Scenario.new_file <> "" -> fs1 = Scenario.disk Scenario.abc)
    /\ (p = abs_path Scenario.root (target_rel Scenario.new_file)
        \/ p = abs_path Scenario.root (old_path Scenario.new_file))
    /\ Path.reach fs1 p = inr k
    /\ snd (apply_patch Scenario.new_file Scenario.root (Scenario.disk Scenario.abc))
       = Path.put k (RegularFile content) fs1
    /\ Path.lookup
         (snd (apply_patch Scenario.new_file Scenario.root (Scenario.disk Scenario.abc))) p
       = inr (k, RegularFile content)
    /\ forall q, q <> k ->
         Path.node_at
           (snd (apply_patch Scenario.new_file Scenario.root (Scenario.disk Scenario.abc))) q
         = Path.node_at fs1 q.
Proof.
  apply (apply_patch_success_stores_one_file Scenario.new_file Scenario.root
           "Created new file: new/sub/g.txt" (Scenario.disk Scenario.abc)).
  vm_compute. reflexivity.
Defined.

(** ** [apply_patch]: the file that moved *)

(** X4. When the target path is absent and the old path holds the file,
    [apply_patch] patches the file at the old path and reports it under
    the old name. *)
Theorem apply_patch_falls_back_to_old_path (patch : FilePatch) (root : string) (fs : Disk)
    (k : list string) (t : string) (e : errno) (out : list string) :
  old_path patch <> "" ->
  Path.lookup fs (abs_path root (target_rel patch)) = inl e ->
  stat_err fs !! Path.str (abs_path root (target_rel patch)) = None ->
  Path.lookup fs (abs_path root (old_path patch)) = inr (k, RegularFile t) ->
  stat_err fs !! Path.str (abs_path root (old_path patch)) = None ->
  read_err fs !! Path.str (abs_path root (old_path patch)) = None ->
  open_err fs !! Path.str (abs_path root (old_path patch)) = None ->
  write_err fs !! Path.str (abs_path root (old_path patch)) = None ->
  apply_hunks (rev (hunks patch)) (PyStr.splitlines (PyStr.universal_newlines t))
  = Returns (inr out) ->
  apply_patch patch root fs
  = (Returns (true, "Patched: " +:+ old_path patch),
     Path.put k (RegularFile (patched_content out)) fs).
Proof.
  intros Hold Hnew Hsn Hfile Hso Hr Ho Hw Happ.
  rewrite (apply_patch_located patch root fs (abs_path root (old_path patch))
             (old_path patch) (PyStr.universal_newlines t) Hold).
  - rewrite Happ. rewrite (write_text_stored _ k t _ fs Hfile Ho Hw). reflexivity.
  - unfold locate, Path.exists_. rewrite Hsn, Hnew, Hso, Hfile. reflexivity.
  - exact (read_text_stored _ _ _ _ Hfile Hr).
Qed.

Lemma apply_patch_falls_back_to_old_path_witness :
  apply_patch Extra.renamed Scenario.root Extra.old_disk
  = (Returns (true, "Patched: old.txt"),
     Path.put ["srv"; "code"; "old.txt"] (RegularFile Scenario.aBc) Extra.old_disk).
Proof.
  apply (apply_patch_falls_back_to_old_path Extra.renamed Scenario.root Extra.old_disk
           ["srv"; "code"; "old.txt"] Scenario.abc ENOENT ["a"; "B"; "c"]);
    solve [discriminate | reflexivity].
Defined.

(** ** [apply_diff_to_codebase]: the outcome list and the database *)

Lemma update_file_content_keys (cid : Z) (rel new_content : string) (db : DB) :
  db_keys (snd (update_file_content cid rel new_content db)) = db_keys db
  /\ db_err (snd (update_file_content cid rel new_content db)) = db_err db.
Proof.
  unfold update_file_content, db_keys.
  destruct (db_err db) eqn:E; cbn [snd files_table db_err]; [auto |].
  split; [| reflexivity].
  rewrite map_map. apply map_ext. intros r.
  destruct ((codebase_id r =? cid) && String.eqb (rel_path r) rel); reflexivity.
Qed.

Lemma sync_db_keys (patch : FilePatch) (root : string) (cid : Z) (fs : Disk) (db : DB) :
  db_keys (sync_db patch root cid fs db) = db_keys db
  /\ db_err (sync_db patch root cid fs db) = db_err db.
Proof.
  unfold sync_db.
  destruct (String.eqb (target_rel patch) ""); [auto |].
  destruct (Path.read_text _ fs) as [c|e]; [| auto].
  pose proof (update_file_content_keys cid (target_rel patch) c db) as H.
  destruct (update_file_content cid (target_rel patch) c db) as [[u|e] db']; [exact H | auto].
Qed.

Lemma apply_patches_keys (patches : list FilePatch) (root : string) (cid : Z) :
  forall fs db results,
    db_keys (snd (apply_patches patches root cid fs db results)) = db_keys db
    /\ db_err (snd (apply_patches patches root cid fs db results)) = db_err db.
Proof.
  induction patches as [|patch rest IH]; intros fs db results; [auto |].
  cbn [apply_patches].
  destruct (apply_patch patch root fs) as [[[ok msg]|e] fs']; [| auto].
  destruct (IH fs' (if ok then sync_db patch root cid fs' db else db)
              (results ++ [(ok, msg)])) as [H1 H2].
  rewrite H1, H2. destruct ok; [apply sync_db_keys | auto].
Qed.

(** X5. [apply_diff_to_codebase] never adds a row to the [files] table and
    never removes one: codebase, path and language of every row stay,
    whatever the diff does; a file that a patch creates is not
    registered. *)
Theorem apply_diff_keeps_db_rows (diff_text root : string) (cid : Z) (fs : Disk) (db : DB) :
  db_keys (snd (apply_diff_to_codebase diff_text root cid fs db)) = db_keys db.
Proof.
  unfold apply_diff_to_codebase.
  destruct (parse_diff diff_text) as [[|patch rest]|e]; [reflexivity | | reflexivity].
  apply apply_patches_keys.
Qed.

Lemma apply_patches_length (patches : list FilePatch) (root : string) (cid : Z) :
  forall fs db results rs fs' db',
    apply_patches patches root cid fs db results = (Returns rs, fs', db') ->
    List.length rs = (List.length results + List.length patches)%nat.
Proof.
  induction patches as [|patch rest IH]; intros fs db results rs fs' db' H.
  - cbn in H. injection H as <- _ _. simpl. lia.
  - cbn [apply_patches] in H.
    destruct (apply_patch patch root fs) as [[[ok msg]|e] fs1]; [| discriminate].
    apply IH in H. rewrite H, length_app. simpl. lia.
Qed.

(** X6. When [apply_diff_to_codebase] returns, [parse_diff] has returned,
    and the list has one entry for every patch that it found, and one
    entry when it found none. *)
Theorem apply_diff_one_entry_per_patch (diff_text root : string) (cid : Z)
    (fs fs' : Disk) (db db' : DB) (rs : list (bool * string)) :
  apply_diff_to_codebase diff_text root cid fs db = (Returns rs, fs', db') ->
  exists patches,
    parse_diff diff_text = Returns patches
    /\ List.length rs = Nat.max 1 (List.length patches).
Proof.
  unfold apply_diff_to_codebase.
  destruct (parse_diff diff_text) as [[|patch rest]|e] eqn:E; intros H.
  - injection H as <- _ _. exists []. split; reflexivity.
  - apply apply_patches_length in H. eexists. split; [reflexivity |].
    rewrite H. simpl. lia.
  - discriminate H.
Qed.

Lemma apply_diff_one_entry_per_patch_witness :
  exists patches,
    parse_diff Scenario.diff = Returns patches
    /\ List.length [(true, "Patched: f.txt")] = Nat.max 1 (List.length patches).
Proof.
  apply (apply_diff_one_entry_per_patch Scenario.diff Scenario.root 1
           (Scenario.disk Scenario.abc) (Scenario.disk Scenario.aBc)
           Scenario.no_db Scenario.no_db).
  vm_compute. reflexivity.
Defined.

(** X7. A patch that fails does not hold up the others: its entry is
    recorded, the database is not touched, and the remaining patches are
    processed on the disk as the failed patch left it, which for a patch
    with an old path is the disk as it was. *)
Theorem failed_patch_does_not_block (patch : FilePatch) (rest : list FilePatch)
    (root msg : string) (cid : Z) (fs fs1 : Disk) (db : DB)
    (results : list (bool * string)) :
  apply_patch patch root fs = (Returns (false, msg), fs1) ->
  apply_patches (patch :: rest) root cid fs db results
  = apply_patches rest root cid fs1 db (results ++ [(false, msg)])
  /\ (old_path patch <> "" -> fs1 = fs).
Proof.
  intros H. split.
  - cbn [apply_patches]. rewrite H. reflexivity.
  - intros Hold. exact (modification_failure_keeps_disk _ _ _ _ _ Hold H).
Qed.

Lemma failed_patch_does_not_block_witness :
  apply_patches [Scenario.into_directory; Scenario.new_file] Scenario.root 1
    (Scenario.disk Scenario.abc) Scenario.no_db []
  = apply_patches [Scenario.new_file] Scenario.root 1
      (Path.with_dirs Scenario.new_sub (Scenario.disk Scenario.abc)) Scenario.no_db
      [(false,
        "Failed to create new/sub/..: [Errno 21] Is a directory: '/srv/code/new/sub/..'")].
Proof.
  apply (proj1 (failed_patch_does_not_block Scenario.into_directory [Scenario.new_file]
                  Scenario.root
                  "Failed to create new/sub/..: [Errno 21] Is a directory: '/srv/code/new/sub/..'"
                  1 (Scenario.disk Scenario.abc)
                  (Path.with_dirs Scenario.new_sub (Scenario.disk Scenario.abc))
                  Scenario.no_db [] ltac:(vm_compute; reflexivity))).
Defined.

(** X8. After a patch applied through the old-path fallback, the copy
    into the database reads the target path, which is not there, and the
    database is left as it was: the row of the old name keeps the old
    text. *)
Theorem old_path_fallback_leaves_db (patch : FilePatch) (root : string) (cid : Z)
    (fs : Disk) (db : DB) (k : list string) (t : string) (e : errno) (out : list string) :
  old_path patch <> "" ->
  Path.lookup fs (abs_path root (target_rel patch)) = inl e ->
  stat_err fs !! Path.str (abs_path root (target_rel patch)) = None ->
  Path.lookup fs (abs_path root (old_path patch)) = inr (k, RegularFile t) ->
  stat_err fs !! Path.str (abs_path root (old_path patch)) = None ->
  read_err fs !! Path.str (abs_path root (old_path patch)) = None ->
  open_err fs !! Path.str (abs_path root (old_path patch)) = None ->
  write_err fs !! Path.str (abs_path root (old_path patch)) = None ->
  apply_hunks (rev (hunks patch)) (PyStr.splitlines (PyStr.universal_newlines t))
  = Returns (inr out) ->
  apply_patches [patch] root cid fs db []
  = (Returns [(true, "Patched: " +:+ old_path patch)],
     Path.put k (RegularFile (patched_content out)) fs,
     db).
Proof.
  intros Hold Hnew Hsn Hfile Hso Hr Ho Hw Happ.
  cbn [apply_patches].
  assert (Hpatch : apply_patch patch root fs
                   = (Returns (true, "Patched: " +:+ old_path patch),
                      Path.put k (RegularFile (patched_content out)) fs)).
  { rewrite (apply_patch_located patch root fs (abs_path root (old_path patch))
               (old_path patch) (PyStr.universal_newlines t) Hold).
    - rewrite Happ. rewrite (write_text_stored _ k t _ fs Hfile Ho Hw). reflexivity.
    - unfold locate, Path.exists_. rewrite Hsn, Hnew, Hso, Hfile. reflexivity.
    - exact (read_text_stored _ _ _ _ Hfile Hr). }
  rewrite Hpatch.
  cbn [app]. do 2 f_equal.
  unfold sync_db. rewrite (target_rel_nonempty patch Hold).
  unfold Path.read_text. cbn [Path.put read_err].
  destruct (read_err fs !! Path.str (abs_path root (target_rel patch))); [reflexivity |].
  apply lookup_inr in Hfile as Hfile'. destruct Hfile' as [_ Hnode].
  rewrite (lookup_put_file fs k t _ _ Hnode), Hnew. reflexivity.
Qed.

Lemma old_path_fallback_leaves_db_witness :
  apply_patches [Extra.renamed] Scenario.root 1 Extra.old_disk Extra.two_rows []
  = (Returns [(true, "Patched: old.txt")],
     Path.put ["srv"; "code"; "old.txt"] (RegularFile Scenario.aBc) Extra.old_disk,
     Extra.two_rows).
Proof.
  apply (old_path_fallback_leaves_db Extra.renamed Scenario.root 1 Extra.old_disk
           Extra.two_rows ["srv"; "code"; "old.txt"] Scenario.abc ENOENT ["a"; "B"; "c"]);
    solve [discriminate | reflexivity].
Defined.

(** X9. After a successful patch whose target path can be read back, with
    the database answering, every row of the codebase and path holds the
    text that the file now reads, and every other row is what it was. *)
Theorem patched_file_is_copied_to_db (patch : FilePatch) (root msg c : string) (cid : Z)
    (fs fs' : Disk) (db : DB) :
  apply_patch patch root fs = (Returns (true, msg), fs') ->
  Path.read_text (abs_path root (target_rel patch)) fs' = Returns c ->
  db_err db = None ->
  exists db',
    apply_patches [patch] root cid fs db [] = (Returns [(true, msg)], fs', db')
    /\ db_err db' = None
    /\ files_table db'
       = map (fun r => if row_matches cid (target_rel patch) r
                       then mkRow (codebase_id r) (rel_path r) c (language r)
                       else r)
           (files_table db)
    /\ (forall r, In r (files_table db') ->
                  row_matches cid (target_rel patch) r = true -> content r = c).
Proof.
  intros Hp Hread Hdb.
  assert (Hrel : String.eqb (target_rel patch) "" = false).
  { unfold apply_patch in Hp. destruct (String.eqb (target_rel patch) ""); [discriminate | reflexivity]. }
  eexists. split.
  - cbn [apply_patches]. rewrite Hp. cbn [app].
    unfold sync_db. rewrite Hrel, Hread.
    unfold update_file_content. rewrite Hdb. reflexivity.
  - cbn [db_err files_table]. split; [reflexivity |]. split; [reflexivity |].
    intros r Hin Hm. apply in_map_iff in Hin as (r0 & Hr0 & _).
    unfold row_matches in *.
    destruct ((codebase_id r0 =? cid) && String.eqb (rel_path r0) (target_rel patch)) eqn:E;
      subst r; [reflexivity |].
    rewrite E in Hm. discriminate.
Qed.

Lemma patched_file_is_copied_to_db_witness :
  exists db',
    apply_patches [Scenario.patch] Scenario.root 2 (Scenario.disk Scenario.abc)
      Extra.two_rows []
    = (Returns [(true, "Patched: f.txt")], Scenario.disk Scenario.aBc, db')
    /\ db_err db' = None
    /\ files_table db'
       = map (fun r => if row_matches 2 (target_rel Scenario.patch) r
                       then mkRow (codebase_id r) (rel_path r) Scenario.aBc (language r)
                       else r)
           (files_table Extra.two_rows)
    /\ (forall r, In r (files_table db') ->
                  row_matches 2 (target_rel Scenario.patch) r = true ->
                  content r = Scenario.aBc).
Proof.
  apply (patched_file_is_copied_to_db Scenario.patch Scenario.root "Patched: f.txt"
           Scenario.aBc 2 (Scenario.disk Scenario.abc) (Scenario.disk Scenario.aBc)
           Extra.two_rows);
    vm_compute; reflexivity.
Defined.

(** ** [_apply_hunk]: hunks of one kind of line *)

Lemma emit_context_only (ls : list HunkLine) :
  Forall (fun hl => op hl = " ") ls ->
  old_extent ls = List.length ls
  /\ forall src, (List.length ls <= List.length src)%nat ->
                 emit ls src = firstn (List.length ls) src.
Proof.
  induction 1 as [|hl ls Hop _ [IH1 IH2]]; [split; [reflexivity | intros; reflexivity] |].
  split.
  - rewrite old_extent_cons, IH1. unfold is_old. rewrite Hop. reflexivity.
  - intros src Hlen. simpl emit. rewrite Hop. cbn [String.eqb Ascii.eqb Bool.eqb].
    destruct src as [|x src]; [simpl in Hlen; lia |].
    simpl. rewrite IH2 by (simpl in Hlen; lia). reflexivity.
Qed.

(** X10. A hunk of Context lines only that fits in the buffer returns the
    buffer unchanged, whatever the texts of its lines. *)
Theorem context_only_hunk_is_identity (buf : list string) (h : Hunk) :
  1 <= old_start h ->
  Forall (fun hl => op hl = " ") (lines h) ->
  old_start h - 1 + Z.of_nat (List.length (lines h)) <= Z.of_nat (List.length buf) ->
  _apply_hunk buf h = Returns (Some buf).
Proof.
  intros Hpos Hctx Hfit.
  destruct (emit_context_only _ Hctx) as [Hext Hemit].
  apply apply_hunk_some_iff; [exact Hpos |]. split; [right; lia |].
  unfold splice. rewrite Hext, Hemit by (rewrite length_drop; lia).
  rewrite (app_assoc (firstn _ buf)), take_take_drop, firstn_skipn. reflexivity.
Qed.

Lemma context_only_hunk_is_identity_witness :
  _apply_hunk ["a"; "b"; "c"]
    (mkHunk 2 2 2 2 [mkHunkLine " " "not b"; mkHunkLine " " "not c"])
  = Returns (Some ["a"; "b"; "c"]).
Proof.
  apply (context_only_hunk_is_identity ["a"; "b"; "c"]
           (mkHunk 2 2 2 2 [mkHunkLine " " "not b"; mkHunkLine " " "not c"])).
  - simpl. lia.
  - repeat constructor.
  - simpl. lia.
Defined.

Lemma emit_remove_only (ls : list HunkLine) :
  Forall (fun hl => op hl = "-") ls ->
  old_extent ls = List.length ls /\ forall src, emit ls src = [].
Proof.
  induction 1 as [|hl ls Hop _ [IH1 IH2]]; [split; [reflexivity | intros; reflexivity] |].
  split.
  - rewrite old_extent_cons, IH1. unfold is_old. rewrite Hop. reflexivity.
  - intros src. simpl emit. rewrite Hop. cbn [String.eqb Ascii.eqb Bool.eqb]. apply IH2.
Qed.

(** X11. A hunk of [k] Remove lines only that fits in the buffer deletes
    the [k] lines from line [old_start] on and nothing else, whatever the
    texts of its lines. *)
Theorem remove_only_hunk_deletes_range (buf : list string) (h : Hunk) :
  1 <= old_start h ->
  Forall (fun hl => op hl = "-") (lines h) ->
  old_start h - 1 + Z.of_nat (List.length (lines h)) <= Z.of_nat (List.length buf) ->
  _apply_hunk buf h
  = Returns (Some (firstn (Z.to_nat (old_start h - 1)) buf
                   ++ skipn (Z.to_nat (old_start h - 1) + List.length (lines h)) buf)).
Proof.
  intros Hpos Hrem Hfit.
  destruct (emit_remove_only _ Hrem) as [Hext Hemit].
  apply apply_hunk_some_iff; [exact Hpos |]. split; [right; lia |].
  unfold splice. rewrite Hext, Hemit. reflexivity.
Qed.

Lemma remove_only_hunk_deletes_range_witness :
  _apply_hunk ["a"; "b"; "c"; "d"]
    (mkHunk 2 2 2 0 [mkHunkLine "-" "x"; mkHunkLine "-" "y"])
  = Returns (Some ["a"; "d"]).
Proof.
  apply (remove_only_hunk_deletes_range ["a"; "b"; "c"; "d"]
           (mkHunk 2 2 2 0 [mkHunkLine "-" "x"; mkHunkLine "-" "y"])).
  - simpl. lia.
  - repeat constructor.
  - simpl. lia.
Defined.

(** ** [splitlines] and the text that [apply_patch] writes *)

Lemma splitlines_break_free (s : string) :
  Forall (fun l => break_free l = true) (PyStr.splitlines s).
Proof.
  induction s as [|c s IH]; [constructor |].
  cbn [PyStr.splitlines].
  destruct (PyStr.is_linebreak c) eqn:Hc.
  - constructor; [reflexivity |].
    destruct (nat_of_ascii c =? 13)%nat; [| exact IH].
    destruct s as [|c' s']; [exact IH |].
    destruct (nat_of_ascii c' =? 10)%nat eqn:Hc'; [| exact IH].
    cbn [PyStr.splitlines] in IH.
    assert (Hb : PyStr.is_linebreak c' = true).
    { unfold PyStr.is_linebreak. apply Nat.eqb_eq in Hc'. rewrite Hc'. reflexivity. }
    rewrite Hb in IH. rewrite Nat.eqb_eq in Hc'.
    replace (nat_of_ascii c' =? 13)%nat with false in IH
      by (symmetry; apply Nat.eqb_neq; lia).
    inversion IH; assumption.
  - destruct (PyStr.splitlines s) as [|l ls].
    + constructor; [| constructor]. cbn. rewrite Hc. reflexivity.
    + inversion IH as [|? ? Hl Hls]; subst.
      constructor; [| exact Hls]. cbn. rewrite Hc, Hl. reflexivity.
Qed.

(** A line that is free of boundaries, followed by a terminator, is the
    first line that [splitlines] returns. *)
Lemma splitlines_terminated (t rest : string) :
  break_free t = true ->
  PyStr.splitlines (t +:+ PyStr.LF +:+ rest) = t :: PyStr.splitlines rest.
Proof.
  induction t as [|c t IH]; intros Hb.
  - reflexivity.
  - cbn [break_free] in Hb. apply andb_true_iff in Hb as [Hc Ht].
    apply negb_true_iff in Hc.
    rewrite append_cons. cbn [PyStr.splitlines]. rewrite Hc, (IH Ht). reflexivity.
Qed.

Lemma splitlines_terminated_lines (ls : list string) :
  Forall (fun l => break_free l = true) ls ->
  PyStr.splitlines (terminated_lines ls) = ls.
Proof.
  induction 1 as [|l ls Hl _ IH]; [reflexivity |].
  cbn [terminated_lines fold_right].
  rewrite (splitlines_terminated l _ Hl). f_equal. exact IH.
Qed.

(** Reading leaves a text without carriage returns as it is. *)
Lemma universal_newlines_terminated_lines (ls : list string) :
  Forall (fun l => break_free l = true) ls ->
  PyStr.universal_newlines (terminated_lines ls) = terminated_lines ls.
Proof.
  assert (Hone : forall t rest,
            break_free t = true ->
            PyStr.universal_newlines rest = rest ->
            PyStr.universal_newlines (t +:+ PyStr.LF +:+ rest) = t +:+ PyStr.LF +:+ rest).
  { induction t as [|c t IH]; intros rest Hb Hrest.
    - change (PyStr.universal_newlines (String (ascii_of_nat 10) rest)
              = String (ascii_of_nat 10) rest).
      cbn [PyStr.universal_newlines]. rewrite Hrest. reflexivity.
    - cbn [break_free] in Hb. apply andb_true_iff in Hb as [Hc Ht].
      apply negb_true_iff in Hc.
      rewrite append_cons. cbn [PyStr.universal_newlines].
      assert (Hcr : (nat_of_ascii c =? 13)%nat = false).
      { unfold PyStr.is_linebreak in Hc.
        destruct (nat_of_ascii c =? 13)%nat; [| reflexivity].
        rewrite !orb_true_r in Hc. cbn in Hc. rewrite ?orb_true_r in Hc. discriminate. }
      rewrite Hcr, (IH rest Ht Hrest). reflexivity. }
  induction 1 as [|l ls Hl _ IH]; [reflexivity |].
  cbn [terminated_lines fold_right]. apply Hone; assumption.
Qed.

Lemma last_char_break_free (s : string) (c : ascii) :
  break_free s = true -> last_char s = Some c -> (nat_of_ascii c =? 10)%nat = false.
Proof.
  induction s as [|c0 s IH]; [discriminate |].
  cbn [break_free]. intros Hb Hl. apply andb_true_iff in Hb as [Hc Hs].
  destruct s as [|c1 s1].
  - injection Hl as <-. apply negb_true_iff in Hc. unfold PyStr.is_linebreak in Hc.
    destruct (nat_of_ascii c0 =? 10)%nat; [discriminate | reflexivity].
  - apply IH; assumption.
Qed.

Lemma join_snoc (init : list string) (l : string) :
  init <> [] ->
  PyStr.join PyStr.LF (init ++ [l]) = PyStr.join PyStr.LF init +:+ PyStr.LF +:+ l.
Proof.
  induction init as [|t init IH]; [congruence |]. intros _.
  destruct init as [|t' init].
  - reflexivity.
  - change (PyStr.join PyStr.LF ((t :: t' :: init) ++ [l]))
      with (t +:+ PyStr.LF +:+ PyStr.join PyStr.LF ((t' :: init) ++ [l])).
    rewrite IH by discriminate.
    change (PyStr.join PyStr.LF (t :: t' :: init))
      with (t +:+ PyStr.LF +:+ PyStr.join PyStr.LF (t' :: init)).
    rewrite !append_assoc. reflexivity.
Qed.

Lemma endswith_app_LF (s : string) : PyStr.endswith (s +:+ PyStr.LF) PyStr.LF = true.
Proof. rewrite endswith_LF, last_char_app by discriminate. reflexivity. Qed.

(** The text written for lines whose last one is not empty, and for
    lines whose last one is. *)
Lemma patched_content_last_nonempty (init : list string) (l : string) :
  break_free l = true -> l <> "" ->
  patched_content (init ++ [l]) = terminated_lines (init ++ [l]).
Proof.
  intros Hb Hl. unfold patched_content.
  assert (E : PyStr.endswith (PyStr.join PyStr.LF (init ++ [l])) PyStr.LF = false).
  { rewrite endswith_LF.
    assert (Hlast : last_char (PyStr.join PyStr.LF (init ++ [l])) = last_char l).
    { destruct init as [|t init]; [reflexivity |].
      rewrite join_snoc by discriminate.
      rewrite <- append_assoc. apply last_char_app. exact Hl. }
    rewrite Hlast. destruct (last_char l) as [c|] eqn:El; [| reflexivity].
    exact (last_char_break_free l c Hb El). }
  rewrite E. symmetry. apply terminated_lines_join.
  destruct init; discriminate.
Qed.

Lemma patched_content_last_empty (init : list string) :
  init <> [] -> patched_content (init ++ [""]) = terminated_lines init.
Proof.
  intros Hinit. unfold patched_content.
  rewrite join_snoc by exact Hinit. rewrite append_nil_r.
  rewrite endswith_app_LF. symmetry. apply terminated_lines_join. exact Hinit.
Qed.

(** X12. The text that [apply_patch] writes always ends with a line
    terminator.  For lines free of boundaries whose last one is not
    empty, it is every line followed by one terminator.  A last line that
    is empty and comes after other lines gets no terminator of its own,
    so it is not in the text.  No line at all, and one empty line, are
    both written as a single terminator. *)
Theorem patched_content_shape (ls init : list string) (l : string) :
  PyStr.endswith (patched_content ls) PyStr.LF = true
  /\ (break_free l = true -> l <> "" ->
      patched_content (init ++ [l]) = terminated_lines (init ++ [l]))
  /\ (init <> [] -> patched_content (init ++ [""]) = terminated_lines init)
  /\ patched_content [] = PyStr.LF
  /\ patched_content [""] = PyStr.LF.
Proof.
  split; [| split; [| split; [| split]]].
  - unfold patched_content.
    destruct (PyStr.endswith (PyStr.join PyStr.LF ls) PyStr.LF) eqn:E;
      [exact E | apply endswith_app_LF].
  - intros Hb Hl. exact (patched_content_last_nonempty init l Hb Hl).
  - intros Hinit. exact (patched_content_last_empty init Hinit).
  - reflexivity.
  - reflexivity.
Qed.

Lemma patched_content_shape_witness :
  patched_content (["a"] ++ ["b"]) = terminated_lines (["a"] ++ ["b"])
  /\ patched_content (["a"] ++ [""]) = terminated_lines ["a"].
Proof.
  destruct (patched_content_shape [] ["a"] "b") as (_ & H1 & _).
  destruct (patched_content_shape [] ["a"] "") as (_ & _ & H2 & _).
  split; [apply H1; [reflexivity | discriminate] | apply H2; discriminate].
Defined.

(** X13. Written and read again, a buffer of lines free of boundaries
    whose last line is not empty comes back as it was; a buffer that ends
    with an empty line after other lines comes back without that line;
    the buffer without lines and the buffer of one empty line both come
    back as one empty line. *)
Theorem patched_content_read_back (init : list string) (l : string) :
  Forall (fun t => break_free t = true) init ->
  (break_free l = true -> l <> "" ->
   PyStr.splitlines (PyStr.universal_newlines (patched_content (init ++ [l])))
   = init ++ [l])
  /\ (init <> [] ->
      PyStr.splitlines (PyStr.universal_newlines (patched_content (init ++ [""])))
      = init)
  /\ PyStr.splitlines (PyStr.universal_newlines (patched_content [])) = [""]
  /\ PyStr.splitlines (PyStr.universal_newlines (patched_content [""])) = [""].
Proof.
  intros Hinit.
  split; [| split; [| split]].
  - intros Hb Hl. rewrite (patched_content_last_nonempty init l Hb Hl).
    assert (Hall : Forall (fun t => break_free t = true) (init ++ [l])).
    { apply Forall_app. split; [exact Hinit | constructor; [exact Hb | constructor]]. }
    rewrite (universal_newlines_terminated_lines _ Hall).
    apply splitlines_terminated_lines. exact Hall.
  - intros Hne. rewrite (patched_content_last_empty init Hne).
    rewrite (universal_newlines_terminated_lines _ Hinit).
    apply splitlines_terminated_lines. exact Hinit.
  - reflexivity.
  - reflexivity.
Qed.

Lemma patched_content_read_back_witness :
  PyStr.splitlines (PyStr.universal_newlines (patched_content (["a"; ""] ++ ["b"])))
  = ["a"; ""] ++ ["b"]
  /\ PyStr.splitlines (PyStr.universal_newlines (patched_content (["a"; "b"] ++ [""])))
     = ["a"; "b"].
Proof.
  destruct (patched_content_read_back ["a"; ""] "b" ltac:(repeat constructor))
    as (H1 & _).
  destruct (patched_content_read_back ["a"; "b"] "" ltac:(repeat constructor))
    as (_ & H2 & _).
  split; [apply H1; [reflexivity | discriminate] | apply H2; discriminate].
Defined.

(** ** [parse_diff]: reading back what was written *)

Ltac eval_char_code :=
  repeat match goal with
  | |- context [Z.of_nat (nat_of_ascii ?c)] =>
      let v := eval vm_compute in (Z.of_nat (nat_of_ascii c)) in
      change (Z.of_nat (nat_of_ascii c)) with v
  end.

Lemma int_of_digits_from_acc (d : Decimal.uint) :
  forall acc : positive,
    PyStr.int_of_digits_from (Z.pos acc) (NilEmpty.string_of_uint d)
    = Z.pos (Pos.of_uint_acc d acc).
Proof.
  induction d; intros acc;
    cbn [NilEmpty.string_of_uint PyStr.int_of_digits_from Pos.of_uint_acc];
    [reflexivity | ..].
  all: rewrite <- IHd; f_equal; eval_char_code; lia.
Qed.

Lemma int_of_digits_from_zero (d : Decimal.uint) :
  PyStr.int_of_digits_from 0 (NilEmpty.string_of_uint d) = Z.of_N (Pos.of_uint d).
Proof.
  induction d; cbn [NilEmpty.string_of_uint PyStr.int_of_digits_from Pos.of_uint];
    [reflexivity | exact IHd | ..].
  all: cbn [Z.of_N]; rewrite <- int_of_digits_from_acc; f_equal.
Qed.

(** The decimal form of a non-negative number is the digits of a
    [Decimal.uint]. *)
Lemma of_int_uint (n : Z) :
  0 <= n ->
  exists d, d <> Decimal.Nil /\ PyStr.of_int n = NilEmpty.string_of_uint d.
Proof.
  intros Hn. unfold PyStr.of_int.
  destruct n as [|p|p];
    [exists (Decimal.D0 Decimal.Nil); split; [discriminate | reflexivity] | | lia].
  exists (Pos.to_uint p). split; [apply Unsigned.to_uint_nonnil |].
  cbn [Z.to_int NilZero.string_of_int]. unfold NilZero.string_of_uint.
  destruct (Pos.to_uint p) eqn:E; [exfalso; exact (Unsigned.to_uint_nonnil p E) | ..];
    reflexivity.
Qed.

(** The decimal form of a non-negative [n] writes [n]. *)
Lemma int_of_digits_of_int (n : Z) :
  0 <= n -> PyStr.int_of_digits (PyStr.of_int n) = n.
Proof.
  intros Hn. unfold PyStr.int_of_digits, PyStr.of_int.
  destruct n as [|p|p]; [reflexivity | | lia].
  cbn [Z.to_int NilZero.string_of_int].
  unfold NilZero.string_of_uint.
  destruct (Pos.to_uint p) eqn:E;
    [exfalso; exact (Unsigned.to_uint_nonnil p E) | ..].
  all: rewrite <- E, int_of_digits_from_zero, Unsigned.of_to; reflexivity.
Qed.

(** [int(str(n))] is [n] for a non-negative [n] of no more digits than
    [int] reads. *)
Lemma int_of_int (n : Z) :
  0 <= n -> readable n -> PyStr.int (PyStr.of_int n) = Returns n.
Proof.
  intros Hn Hr. unfold PyStr.int, readable in *.
  destruct (Z.ltb_spec PyStr.int_max_str_digits
              (Z.of_nat (String.length (PyStr.of_int n)))) as [Hlong|_]; [lia |].
  rewrite (int_of_digits_of_int n Hn). reflexivity.
Qed.

(** The digits of a number are read as far as they go. *)
Lemma span_digits_uint (d : Decimal.uint) (r : string) :
  fst (HunkHeader.span_digits r) = "" ->
  HunkHeader.span_digits (NilEmpty.string_of_uint d +:+ r)
  = (NilEmpty.string_of_uint d, r).
Proof.
  intros Hr.
  induction d; cbn [NilEmpty.string_of_uint].
  { change (HunkHeader.span_digits r = ("", r)).
    destruct r as [|c r']; [reflexivity |].
    cbn [HunkHeader.span_digits] in *.
    destruct (PyStr.is_digit c); [| reflexivity].
    destruct (HunkHeader.span_digits r'). discriminate Hr. }
  all: rewrite append_cons; cbn [HunkHeader.span_digits];
    match goal with
    | |- context [PyStr.is_digit ?c] => change (PyStr.is_digit c) with true
    end;
    cbv iota; rewrite IHd; reflexivity.
Qed.

(** [(\d+)] on the decimal form of a non-negative number, followed by
    text that does not start with a digit. *)
Lemma digits_of_int (n : Z) (r : string) :
  0 <= n ->
  fst (HunkHeader.span_digits r) = "" ->
  HunkHeader.digits (PyStr.of_int n +:+ r) = Some (PyStr.of_int n, r).
Proof.
  intros Hn Hr. destruct (of_int_uint n Hn) as (d & Hd & ->).
  unfold HunkHeader.digits. rewrite (span_digits_uint d r Hr).
  destruct d; [congruence | ..]; reflexivity.
Qed.

Lemma startswith_app (l s : string) : PyStr.startswith (l +:+ s) l = true.
Proof.
  unfold PyStr.startswith. induction l as [|c l IH]; [apply prefix_empty |].
  rewrite append_cons, prefix_cons, Ascii.eqb_refl. exact IH.
Qed.

Lemma drop_app (l s : string) : PyStr.drop (String.length l) (l +:+ s) = s.
Proof. induction l as [|c l IH]; [reflexivity | exact IH]. Qed.

Lemma lit_app (l s : string) : HunkHeader.lit l (l +:+ s) = Some s.
Proof. unfold HunkHeader.lit. rewrite startswith_app, drop_app. reflexivity. Qed.

(** X14. The header pattern and [int] read back the four numbers of a
    header written with both counts, whatever follows the closing [@@],
    for numbers from 0 of no more than 4300 digits; a header written
    without counts gives both counts as 1. *)
Theorem hunk_header_numbers (os oc ns nc : Z) (tail : string) :
  0 <= os -> 0 <= oc -> 0 <= ns -> 0 <= nc ->
  readable os -> readable oc -> readable ns -> readable nc ->
  header_numbers (render_header os oc ns nc tail) = Returns (Some (os, oc, ns, nc))
  /\ header_numbers (render_short_header os ns tail) = Returns (Some (os, 1, ns, 1)).
Proof.
  intros Hos Hoc Hns Hnc Ros Roc Rns Rnc.
  unfold header_numbers, HunkHeader.re_match, render_header, render_short_header.
  split.
  - rewrite lit_app. cbn [mbind option_bind].
    rewrite digits_of_int by (try assumption; reflexivity). cbn [mbind option_bind].
    unfold HunkHeader.opt_count.
    rewrite lit_app, digits_of_int by (try assumption; reflexivity).
    rewrite lit_app. cbn [mbind option_bind].
    rewrite digits_of_int by (try assumption; reflexivity). cbn [mbind option_bind].
    rewrite lit_app, digits_of_int by (try assumption; reflexivity).
    rewrite lit_app. cbn [mbind option_bind HunkHeader.count_or_1].
    rewrite !int_of_int by assumption. reflexivity.
  - rewrite lit_app. cbn [mbind option_bind].
    rewrite digits_of_int by (try assumption; reflexivity). cbn [mbind option_bind].
    unfold HunkHeader.opt_count.
    change (HunkHeader.lit "," (" +" +:+ PyStr.of_int ns +:+ " @@" +:+ tail)) with (@None string).
    cbv beta iota. rewrite lit_app. cbn [mbind option_bind].
    rewrite digits_of_int by (try assumption; reflexivity). cbn [mbind option_bind].
    change (HunkHeader.lit "," (" @@" +:+ tail)) with (@None string).
    cbv beta iota. rewrite lit_app. cbn [mbind option_bind HunkHeader.count_or_1].
    rewrite !int_of_int by assumption. reflexivity.
Qed.

Lemma hunk_header_numbers_witness :
  header_numbers (render_header 12 0 7 305 " def f():") = Returns (Some (12, 0, 7, 305))
  /\ header_numbers (render_short_header 12 7 " def f():") = Returns (Some (12, 1, 7, 1)).
Proof.
  apply (hunk_header_numbers 12 0 7 305 " def f():"); try lia;
    unfold readable; vm_compute; discriminate.
Defined.

Lemma re_match_render_header (os oc ns nc : Z) (tail : string) :
  0 <= os -> 0 <= oc -> 0 <= ns -> 0 <= nc ->
  HunkHeader.re_match (render_header os oc ns nc tail)
  = Some (PyStr.of_int os, Some (PyStr.of_int oc), PyStr.of_int ns, Some (PyStr.of_int nc)).
Proof.
  intros Hos Hoc Hns Hnc.
  unfold HunkHeader.re_match, render_header.
  rewrite lit_app. cbn [mbind option_bind].
  rewrite digits_of_int by (try assumption; reflexivity). cbn [mbind option_bind].
  unfold HunkHeader.opt_count.
  rewrite lit_app, digits_of_int by (try assumption; reflexivity).
  rewrite lit_app. cbn [mbind option_bind].
  rewrite digits_of_int by (try assumption; reflexivity). cbn [mbind option_bind].
  rewrite lit_app, digits_of_int by (try assumption; reflexivity).
  rewrite lit_app. reflexivity.
Qed.

(** One turn of the innermost loop on a written hunk line. *)
Lemma parse_hunk_lines_step (hl : HunkLine) (ls : list string) (acc : list HunkLine)
    (a b a' b' : Z) :
  op_ok hl = true -> 0 <= a' -> 0 <= b' ->
  a = a' + (if is_old hl then 1 else 0) ->
  b = b' + (if is_new hl then 1 else 0) ->
  parse_hunk_lines (render_line hl :: ls) acc a b
  = parse_hunk_lines ls (acc ++ [hl]) a' b'.
Proof.
  intros Hop Ha Hb -> ->. destruct hl as [o t]. unfold op_ok in Hop. cbn [op] in Hop.
  unfold is_old, is_new, render_line. cbn [op text parse_hunk_lines].
  destruct (String.eqb_spec o " ") as [->|Hc].
  { cbn [String.eqb Ascii.eqb Bool.eqb orb andb].
    match goal with
    | |- context [(0 <? ?x) || (0 <? ?y)] =>
        replace ((0 <? x) || (0 <? y)) with true
          by (symmetry; apply orb_true_iff; left; apply Z.ltb_lt; lia)
    end.
    change (PyStr.startswith (" " +:+ t) "-") with false.
    change (PyStr.startswith (" " +:+ t) "+") with false.
    change (PyStr.startswith (" " +:+ t) " ") with (String.prefix "" t).
    rewrite prefix_empty. cbn [orb].
    change (String.eqb (" " +:+ t) "") with false. cbv iota.
    change (PyStr.drop 1 (" " +:+ t)) with t.
    f_equal; lia. }
  destruct (String.eqb_spec o "+") as [->|Hadd].
  { cbn [String.eqb Ascii.eqb Bool.eqb orb andb].
    match goal with
    | |- context [(0 <? ?x) || (0 <? ?y)] =>
        replace ((0 <? x) || (0 <? y)) with true
          by (symmetry; apply orb_true_iff; right; apply Z.ltb_lt; lia)
    end.
    change (PyStr.startswith ("+" +:+ t) "-") with false.
    change (PyStr.startswith ("+" +:+ t) "+") with (String.prefix "" t).
    rewrite prefix_empty. cbv iota.
    change (PyStr.drop 1 ("+" +:+ t)) with t.
    f_equal; lia. }
  destruct (String.eqb_spec o "-") as [->|Hr]; [| discriminate Hop].
  cbn [String.eqb Ascii.eqb Bool.eqb orb andb].
  match goal with
  | |- context [(0 <? ?x) || (0 <? ?y)] =>
      replace ((0 <? x) || (0 <? y)) with true
        by (symmetry; apply orb_true_iff; left; apply Z.ltb_lt; lia)
  end.
  change (PyStr.startswith ("-" +:+ t) "-") with (String.prefix "" t).
  rewrite prefix_empty. cbv iota.
  change (PyStr.drop 1 ("-" +:+ t)) with t.
  f_equal; lia.
Qed.

(** The loop on the written lines of a hunk, the counters being the
    numbers of its old and new lines. *)
Lemma parse_hunk_lines_rendered (hls : list HunkLine) (rest : list string) :
  forallb op_ok hls = true ->
  forall hunk_lines a b,
    a = Z.of_nat (old_extent hls) -> b = Z.of_nat (new_extent hls) ->
    parse_hunk_lines (map render_line hls ++ rest) hunk_lines a b
    = (hunk_lines ++ hls, rest).
Proof.
  induction hls as [|hl hls IH]; intros Hok acc a b -> ->.
  { rewrite app_nil_r. destruct rest; reflexivity. }
  cbn [forallb] in Hok. apply andb_true_iff in Hok as [Hop Hok].
  cbn [map app].
  rewrite (parse_hunk_lines_step hl _ acc _ _
             (Z.of_nat (old_extent hls)) (Z.of_nat (new_extent hls)) Hop);
    [| lia | lia
     | rewrite old_extent_cons; destruct (is_old hl); lia
     | rewrite new_extent_cons; destruct (is_new hl); lia].
  rewrite (IH Hok (acc ++ [hl]) _ _ eq_refl eq_refl).
  rewrite <- app_assoc. reflexivity.
Qed.

(** X15. The innermost loop of [parse_diff] reads back the lines of a
    hunk written with the three operations: given the numbers of its old
    and new lines it returns exactly those lines, whatever their texts,
    and stops before the first line after them. *)
Theorem parse_hunk_lines_reads_back (hls : list HunkLine) (rest : list string) :
  forallb op_ok hls = true ->
  forall hunk_lines,
    parse_hunk_lines (map render_line hls ++ rest) hunk_lines
      (Z.of_nat (old_extent hls)) (Z.of_nat (new_extent hls))
    = (hunk_lines ++ hls, rest).
Proof.
  induction hls as [|hl hls IH]; intros Hok acc.
  { rewrite app_nil_r. destruct rest; reflexivity. }
  cbn [forallb] in Hok. apply andb_true_iff in Hok as [Hop Hok].
  cbn [map app].
  rewrite (parse_hunk_lines_step hl _ acc _ _
             (Z.of_nat (old_extent hls)) (Z.of_nat (new_extent hls)) Hop);
    [| lia | lia
     | rewrite old_extent_cons; destruct (is_old hl); lia
     | rewrite new_extent_cons; destruct (is_new hl); lia].
  rewrite (IH Hok (acc ++ [hl])).
  rewrite <- app_assoc. reflexivity.
Qed.

Lemma parse_hunk_lines_reads_back_witness :
  parse_hunk_lines (map render_line (lines Scenario.hunk) ++ ["--- a/g.txt"]) [] 3 3
  = ([] ++ lines Scenario.hunk, ["--- a/g.txt"]).
Proof.
  apply (parse_hunk_lines_reads_back (lines Scenario.hunk) ["--- a/g.txt"]).
  reflexivity.
Defined.

(** *** The lines of a written diff parse back *)

Lemma break_free_app (s t : string) :
  break_free (s +:+ t) = break_free s && break_free t.
Proof.
  induction s as [|c s IH]; [reflexivity |].
  rewrite append_cons. cbn [break_free]. rewrite IH, andb_assoc. reflexivity.
Qed.

Lemma break_free_of_int (n : Z) : 0 <= n -> break_free (PyStr.of_int n) = true.
Proof.
  intros Hn. destruct (of_int_uint n Hn) as (d & _ & ->).
  induction d; cbn [NilEmpty.string_of_uint]; [reflexivity | ..]; exact IHd.
Qed.

Lemma rstrip_cons (c : ascii) (p : string) :
  p <> "" -> PyStr.rstrip p = p -> PyStr.rstrip (String c p) = String c p.
Proof.
  intros Hp Hr. cbn [PyStr.rstrip]. rewrite Hr. destruct p; [congruence | reflexivity].
Qed.

Lemma before_tab_no_tab (p : string) : no_tab p = true -> PyStr.before_tab p = p.
Proof.
  induction p as [|c p IH]; [reflexivity |].
  cbn [no_tab PyStr.before_tab]. intros H. apply andb_true_iff in H as [Hc Hp].
  apply negb_true_iff in Hc. rewrite Hc, (IH Hp). reflexivity.
Qed.

(** The path of a header line, as [parse_diff] reads it. *)
Lemma path_reads_back (marker pre p : string) :
  String.length marker = 4%nat ->
  pre = "a/" \/ pre = "b/" ->
  printable_path p = true ->
  _strip_path_prefix
    (PyStr.before_tab (PyStr.strip (PyStr.drop 4 (marker +:+ render_path pre p))))
  = p.
Proof.
  intros Hm Hpre Hp.
  rewrite <- Hm, drop_app.
  unfold printable_path in Hp.
  apply andb_true_iff in Hp as [Hp Hr]. apply andb_true_iff in Hp as [Hb Ht].
  apply String.eqb_eq in Hr.
  unfold render_path. destruct (String.eqb_spec p "") as [->|Hne]; [reflexivity |].
  assert (Hstrip : PyStr.strip (pre +:+ p) = pre +:+ p).
  { unfold PyStr.strip.
    destruct Hpre as [-> | ->];
      (change (PyStr.lstrip (?x +:+ p)) with (x +:+ p));
      rewrite !append_cons; change ("" +:+ p) with p;
      (rewrite rstrip_cons; [reflexivity | discriminate |]);
      apply rstrip_cons; assumption. }
  rewrite Hstrip.
  assert (Htab : PyStr.before_tab (pre +:+ p) = pre +:+ p).
  { apply before_tab_no_tab.
    destruct Hpre as [-> | ->]; rewrite !append_cons; cbn [no_tab];
      change ("" +:+ p) with p; rewrite Ht; reflexivity. }
  rewrite Htab. unfold _strip_path_prefix.
  destruct Hpre as [-> | ->].
  - rewrite startswith_app. cbn [orb]. exact (drop_app "a/" p).
  - rewrite startswith_app, orb_true_r. exact (drop_app "b/" p).
Qed.

Lemma printable_hunk_counts (h : Hunk) :
  printable_hunk h ->
  0 <= old_count h /\ 0 <= new_count h
  /\ forallb op_ok (lines h) = true
  /\ Forall (fun hl => break_free (render_line hl) = true) (lines h).
Proof.
  intros (_ & _ & [Ho Hn] & Hl & _).
  split; [lia |]. split; [lia |]. clear Ho Hn.
  induction (lines h) as [|hl ls IH]; [split; [reflexivity | constructor] |].
  cbn [forallb] in Hl. apply andb_true_iff in Hl as [Hhl Hls].
  destruct (IH Hls) as [IH1 IH2].
  unfold printable_line in Hhl. apply andb_true_iff in Hhl as [Hop Htext].
  split; [cbn [forallb]; rewrite Hop; exact IH1 |].
  constructor; [| exact IH2].
  unfold render_line. rewrite break_free_app, Htext, andb_true_r.
  unfold op_ok in Hop.
  destruct (String.eqb_spec (op hl) " ") as [->|_]; [reflexivity |].
  destruct (String.eqb_spec (op hl) "+") as [->|_]; [reflexivity |].
  destruct (String.eqb_spec (op hl) "-") as [->|_]; [reflexivity | discriminate Hop].
Qed.

(** The loop over the hunks reads back the hunks of a file block, up to
    the header of the next block or the end of the input. *)
Lemma parse_hunks_reads_back (hs : list Hunk) (rest : list string) :
  Forall printable_hunk hs ->
  rest = [] \/ (exists l r, rest = l :: r /\ PyStr.startswith l "---" = true) ->
  forall fuel acc,
    (List.length (concat (map render_hunk hs) ++ rest) <= fuel)%nat ->
    parse_hunks fuel (concat (map render_hunk hs) ++ rest) acc
    = Returns (acc ++ hs, rest).
Proof.
  intros Hall Hrest. induction Hall as [|h hs Hh _ IH]; intros fuel acc Hfuel.
  - cbn [map concat app] in *. rewrite app_nil_r.
    destruct fuel as [|fuel].
    + destruct rest; [reflexivity | simpl in Hfuel; lia].
    + destruct Hrest as [-> | (l & r & -> & Hl)]; [reflexivity |].
      cbn [parse_hunks]. rewrite Hl. reflexivity.
  - destruct (printable_hunk_counts h Hh) as (Hoc & Hnc & Hops & _).
    destruct Hh as (Hos & Hns & [Hco Hcn] & _ & Ros & Roc & Rns & Rnc).
    cbn [map concat] in *. unfold render_hunk at 1 in Hfuel. unfold render_hunk at 1.
    rewrite <- app_assoc in *. cbn [app] in *.
    destruct fuel as [|fuel]; [simpl in Hfuel; lia |].
    cbn [parse_hunks].
    change (PyStr.startswith (render_header (old_start h) (old_count h) (new_start h)
                                (new_count h) "") "---") with false.
    cbv iota.
    rewrite (re_match_render_header _ _ _ _ "" Hos Hoc Hns Hnc).
    cbn [HunkHeader.count_or_1]. rewrite !int_of_int by assumption.
    cbn [mbind outcome_bind].
    pose proof (parse_hunk_lines_rendered (lines h)
                  (concat (map render_hunk hs) ++ rest) Hops [] _ _ eq_refl eq_refl) as Hbody.
    rewrite Hco, Hcn in Hbody. rewrite Hbody.
    cbn [app].
    rewrite IH by (cbn [List.length] in Hfuel; rewrite length_app in Hfuel;
                   rewrite length_map in Hfuel; lia).
    rewrite <- app_assoc. destruct h. reflexivity.
Qed.

Lemma render_lines_head (ps : list FilePatch) :
  render_lines ps = []
  \/ exists l r, render_lines ps = l :: r /\ PyStr.startswith l "---" = true.
Proof.
  destruct ps as [|p ps]; [left; reflexivity |].
  right. eexists _, _. split; [reflexivity |]. reflexivity.
Qed.

(** The loop over the file blocks reads back the patches. *)
Lemma parse_files_reads_back (ps : list FilePatch) :
  Forall printable_patch ps ->
  forall fuel acc,
    (List.length (render_lines ps) <= fuel)%nat ->
    parse_files fuel (render_lines ps) acc = Returns (acc ++ ps).
Proof.
  induction 1 as [|p ps (Hold & Hnew & Hhs) _ IH]; intros fuel acc Hfuel.
  { rewrite app_nil_r. destruct fuel; reflexivity. }
  change (render_lines (p :: ps))
    with (("--- " +:+ render_path "a/" (old_path p))
          :: ("+++ " +:+ render_path "b/" (new_path p))
          :: (concat (map render_hunk (hunks p)) ++ render_lines ps)) in *.
  destruct fuel as [|fuel]; [simpl in Hfuel; lia |].
  cbn [parse_files].
  change (PyStr.startswith ("--- " +:+ render_path "a/" (old_path p)) "---")
    with (String.prefix "" (" " +:+ render_path "a/" (old_path p))).
  change (PyStr.startswith ("+++ " +:+ render_path "b/" (new_path p)) "+++")
    with (String.prefix "" (" " +:+ render_path "b/" (new_path p))).
  rewrite !prefix_empty. cbn [negb].
  rewrite (path_reads_back "--- " "a/" (old_path p) eq_refl (or_introl eq_refl) Hold).
  rewrite (path_reads_back "+++ " "b/" (new_path p) eq_refl (or_intror eq_refl) Hnew).
  rewrite (parse_hunks_reads_back (hunks p) (render_lines ps) Hhs (render_lines_head ps)
             _ [] (Nat.le_refl _)).
  cbn [app mbind outcome_bind].
  rewrite IH by (cbn [List.length] in Hfuel; rewrite length_app in Hfuel; lia).
  rewrite <- app_assoc. destruct p. reflexivity.
Qed.

Lemma render_lines_break_free (ps : list FilePatch) :
  Forall printable_patch ps ->
  Forall (fun l => break_free l = true) (render_lines ps).
Proof.
  assert (Hpath : forall marker pre p,
            break_free marker = true -> break_free pre = true ->
            printable_path p = true ->
            break_free (marker +:+ render_path pre p) = true).
  { intros marker pre p Hm Hpre Hp. unfold printable_path in Hp.
    apply andb_true_iff in Hp as [Hp _]. apply andb_true_iff in Hp as [Hb _].
    rewrite break_free_app, Hm. unfold render_path.
    destruct (String.eqb p ""); [reflexivity |].
    rewrite break_free_app, Hpre, Hb. reflexivity. }
  induction 1 as [|p ps (Hold & Hnew & Hhs) _ IH]; [constructor |].
  change (render_lines (p :: ps))
    with (("--- " +:+ render_path "a/" (old_path p))
          :: ("+++ " +:+ render_path "b/" (new_path p))
          :: (concat (map render_hunk (hunks p)) ++ render_lines ps)).
  constructor; [apply Hpath; [reflexivity | reflexivity | exact Hold] |].
  constructor; [apply Hpath; [reflexivity | reflexivity | exact Hnew] |].
  apply Forall_app. split; [| exact IH].
  induction Hhs as [|h hs Hh _ IHh]; [constructor |].
  cbn [map concat]. apply Forall_app. split; [| exact IHh].
  destruct (printable_hunk_counts h Hh) as (Hoc & Hnc & _ & Hlines).
  destruct Hh as (Hos & Hns & _ & _).
  unfold render_hunk. constructor.
  - unfold render_header. rewrite !break_free_app, !break_free_of_int by assumption.
    reflexivity.
  - apply Forall_map. exact Hlines.
Qed.

(** X16. Round trip: written as diff text and parsed again, a list of
    printable patches, with numbers of no more than 4300 digits, comes
    back as it was, paths, numbers, operations and texts. *)
Theorem parse_diff_reads_back (ps : list FilePatch) :
  Forall printable_patch ps -> parse_diff (render_diff ps) = Returns ps.
Proof.
  intros Hps. unfold parse_diff, render_diff.
  rewrite (splitlines_terminated_lines _ (render_lines_break_free ps Hps)).
  exact (parse_files_reads_back ps Hps _ [] (Nat.le_refl _)).
Qed.

Lemma parse_diff_reads_back_witness :
  parse_diff (render_diff Written.patches) = Returns Written.patches.
Proof.
  apply (parse_diff_reads_back Written.patches).
  repeat constructor; vm_compute; congruence.
Defined.

(** ** [extract_diff_from_response] *)

Lemma lit_cons_ne (c d : ascii) (l s : string) :
  c <> d -> HunkHeader.lit (String c l) (String d s) = None.
Proof.
  intros H. unfold HunkHeader.lit, PyStr.startswith. rewrite prefix_cons.
  apply Ascii.eqb_neq in H. rewrite H. reflexivity.
Qed.

Lemma no_backquote_match_at (s : string) :
  no_backquote s = true -> Fence.match_at s = None.
Proof.
  intros H. unfold Fence.match_at.
  destruct s as [|c s]; [reflexivity |].
  cbn [no_backquote] in H. apply andb_true_iff in H as [Hc _].
  rewrite lit_cons_ne; [reflexivity |].
  intros <-. discriminate Hc.
Qed.

Lemma no_backquote_search (s : string) :
  no_backquote s = true -> Fence.search s = None.
Proof.
  induction s as [|c s IH]; intros H; [reflexivity |].
  cbn [Fence.search]. rewrite (no_backquote_match_at _ H).
  cbn [no_backquote] in H. apply andb_true_iff in H as [_ Hs]. exact (IH Hs).
Qed.

Lemma collect_diff_lines_closed (ls : list string) :
  forall acc,
    collect_diff_lines true ls acc = acc ++ ls
    /\ collect_diff_lines false ls acc = acc ++ from_first_marker ls.
Proof.
  induction ls as [|line ls IH]; intros acc.
  { cbn. rewrite app_nil_r. auto. }
  cbn [collect_diff_lines from_first_marker].
  destruct (PyStr.startswith line "--- " || PyStr.startswith line "+++ ").
  - destruct (IH (acc ++ [line])) as [H _]. rewrite H, <- app_assoc. auto.
  - destruct (IH (acc ++ [line])) as [H _]. destruct (IH acc) as [_ H'].
    rewrite H, H', <- app_assoc. auto.
Qed.

(** X17. A reply without a backquote has no fenced block: the result is
    the lines from the first one that starts with [--- ] or [+++ ]
    to the end of the reply, whatever the later lines start with, joined
    and stripped; without such a line it is empty. *)
Theorem extract_diff_without_fence (response : string) :
  no_backquote response = true ->
  extract_diff_from_response response
  = PyStr.strip (PyStr.join PyStr.LF (from_first_marker (PyStr.splitlines response)))
  /\ (from_first_marker (PyStr.splitlines response) = [] ->
      extract_diff_from_response response = "").
Proof.
  intros H.
  assert (E : extract_diff_from_response response
              = PyStr.strip (PyStr.join PyStr.LF
                               (from_first_marker (PyStr.splitlines response)))).
  { unfold extract_diff_from_response. rewrite (no_backquote_search _ H).
    destruct (collect_diff_lines_closed (PyStr.splitlines response) []) as [_ Hc].
    rewrite Hc. reflexivity. }
  split; [exact E |]. intros Hnone. rewrite E, Hnone. reflexivity.
Qed.

Lemma extract_diff_without_fence_witness :
  extract_diff_from_response
    (PyStr.join PyStr.LF ["Here is the change:"; "--- a/f.txt"; "+++ b/f.txt";
                          "@@ -1 +1 @@"; "-a"; "+b"; "Hope this helps!  "])
  = PyStr.strip
      (PyStr.join PyStr.LF ["--- a/f.txt"; "+++ b/f.txt"; "@@ -1 +1 @@"; "-a"; "+b";
                            "Hope this helps!  "]).
Proof.
  apply (proj1 (extract_diff_without_fence
                  (PyStr.join PyStr.LF ["Here is the change:"; "--- a/f.txt"; "+++ b/f.txt";
                                        "@@ -1 +1 @@"; "-a"; "+b"; "Hope this helps!  "])
                  eq_refl)).
Defined.

Lemma span_space_spec (s : string) :
  s = fst (Fence.span_space s) +:+ snd (Fence.span_space s)
  /\ all_space (fst (Fence.span_space s)) = true
  /\ PyStr.lstrip s = snd (Fence.span_space s).
Proof.
  induction s as [|c s (IH1 & IH2 & IH3)]; [repeat split; reflexivity |].
  cbn [Fence.span_space PyStr.lstrip].
  destruct (PyStr.is_space c) eqn:Hc; [| repeat split; reflexivity].
  destruct (Fence.span_space s) as [w r]. cbn [fst snd] in *.
  split; [rewrite append_cons; f_equal; exact IH1 |].
  split; [cbn [all_space]; rewrite Hc; exact IH2 | exact IH3].
Qed.

Lemma lstrip_all_space (w x : string) :
  all_space w = true -> PyStr.lstrip (w +:+ x) = PyStr.lstrip x.
Proof.
  induction w as [|c w IH]; [reflexivity |].
  cbn [all_space]. intros H. apply andb_true_iff in H as [Hc Hw].
  rewrite append_cons. cbn [PyStr.lstrip]. rewrite Hc. exact (IH Hw).
Qed.

(** What follows the last newline of a run of white space is a run of
    white space. *)
Lemma after_last_newline_all_space (w t : string) :
  all_space w = true -> Fence.after_last_newline w = Some t -> all_space t = true.
Proof.
  revert t. induction w as [|c w IH]; intros t Hw H; [discriminate |].
  cbn [all_space] in Hw. apply andb_true_iff in Hw as [_ Hw].
  cbn [Fence.after_last_newline] in H.
  destruct (Fence.after_last_newline w) as [r|].
  - injection H as <-. exact (IH r Hw eq_refl).
  - destruct (nat_of_ascii c =? 10)%nat; [| discriminate]. injection H as <-. exact Hw.
Qed.

Lemma after_last_newline_LF (w : string) :
  exists t, Fence.after_last_newline (String (ascii_of_nat 10) w) = Some t.
Proof.
  cbn [Fence.after_last_newline].
  destruct (Fence.after_last_newline w) as [r|]; eauto.
Qed.

Lemma no_backquote_app (s t : string) :
  no_backquote (s +:+ t) = no_backquote s && no_backquote t.
Proof.
  induction s as [|c s IH]; [reflexivity |].
  rewrite append_cons. cbn [no_backquote]. rewrite IH, andb_assoc. reflexivity.
Qed.

Lemma all_space_no_backquote (w : string) : all_space w = true -> no_backquote w = true.
Proof.
  induction w as [|c w IH]; [reflexivity |].
  cbn [all_space no_backquote]. intros H. apply andb_true_iff in H as [Hc Hw].
  rewrite (IH Hw), andb_true_r.
  destruct (Nat.eqb_spec (nat_of_ascii c) 96) as [E|E]; [| reflexivity].
  unfold PyStr.is_space in Hc. rewrite E in Hc. discriminate Hc.
Qed.

(** The shortest text before a fence, when the text holds no backquote. *)
Lemma until_fence_no_backquote (y z : string) :
  no_backquote y = true -> Fence.until_fence (y +:+ "```" +:+ z) = Some y.
Proof.
  induction y as [|c y IH]; intros H.
  - change ("" +:+ "```" +:+ z) with (String "`" (String "`" (String "`" z))).
    cbn [Fence.until_fence]. unfold PyStr.startswith. rewrite !prefix_cons, prefix_empty.
    reflexivity.
  - cbn [no_backquote] in H. apply andb_true_iff in H as [Hc Hy].
    rewrite append_cons. cbn [Fence.until_fence].
    unfold PyStr.startswith. rewrite prefix_cons.
    replace (Ascii.eqb "`" c) with false.
    + cbn [andb]. rewrite (IH Hy). reflexivity.
    + symmetry. apply Ascii.eqb_neq. intros <-. discriminate Hc.
Qed.

(** The pattern at the opening fence of a block whose content holds no
    backquote. *)
Lemma match_at_fence (tag body after : string) :
  tag = "diff" \/ tag = "" ->
  no_backquote body = true ->
  exists g,
    Fence.match_at ("```" +:+ tag +:+ PyStr.LF +:+ body +:+ "```" +:+ after) = Some g
    /\ PyStr.strip g = PyStr.strip body.
Proof.
  intros Htag Hbody.
  assert (Hr1 : Fence.match_at ("```" +:+ tag +:+ PyStr.LF +:+ body +:+ "```" +:+ after)
                = (let '(w, r2) := Fence.span_space (PyStr.LF +:+ body +:+ "```" +:+ after) in
                   tail ← Fence.after_last_newline w;
                   Fence.until_fence (tail +:+ r2))).
  { unfold Fence.match_at. rewrite lit_app. cbn [mbind option_bind].
    destruct Htag as [-> | ->]; [rewrite lit_app; reflexivity | reflexivity]. }
  rewrite Hr1. clear Hr1.
  change (PyStr.LF +:+ body +:+ "```" +:+ after)
    with (String (ascii_of_nat 10) (body +:+ "```" +:+ after)).
  cbn [Fence.span_space]. change (PyStr.is_space (ascii_of_nat 10)) with true. cbv iota.
  destruct (span_space_spec (body +:+ "```" +:+ after)) as (Happ & Hw & _).
  destruct (span_space_spec body) as (Hbapp & Hbw & Hbl).
  (* the run of white space after the newline is the one that [body] starts with *)
  assert (Hsame : Fence.span_space (body +:+ "```" +:+ after)
                  = (fst (Fence.span_space body),
                     snd (Fence.span_space body) +:+ "```" +:+ after)).
  { clear. induction body as [|c b IH].
    - reflexivity.
    - rewrite append_cons. cbn [Fence.span_space].
      destruct (PyStr.is_space c); [| reflexivity].
      rewrite IH. destruct (Fence.span_space b). reflexivity. }
  rewrite Hsame. cbn [mbind option_bind].
  set (w := fst (Fence.span_space body)) in *.
  set (x := snd (Fence.span_space body)) in *.
  destruct (after_last_newline_LF w) as [t Ht]. rewrite Ht. cbn [mbind option_bind].
  assert (Hts : all_space t = true).
  { apply (after_last_newline_all_space (String (ascii_of_nat 10) w) t); [| exact Ht].
    cbn [all_space]. rewrite Hbw. reflexivity. }
  assert (Hx : no_backquote x = true).
  { rewrite Hbapp, no_backquote_app in Hbody. apply andb_true_iff in Hbody as [_ H]. exact H. }
  exists (t +:+ x). split.
  - rewrite <- append_assoc. apply until_fence_no_backquote.
    rewrite no_backquote_app, (all_space_no_backquote t Hts), Hx. reflexivity.
  - unfold PyStr.strip. rewrite (lstrip_all_space t x Hts).
    pose proof (lstrip_all_space w x Hbw) as Hl. rewrite <- Hbapp in Hl.
    rewrite Hl. reflexivity.
Qed.

Lemma match_at_not_fence (s : string) :
  PyStr.startswith s "```" = false -> Fence.match_at s = None.
Proof. intros H. unfold Fence.match_at, HunkHeader.lit. rewrite H. reflexivity. Qed.

(** Four backquotes: the pattern does not match at the first. *)
Lemma match_at_backquote4 (x : string) : Fence.match_at ("````" +:+ x) = None.
Proof.
  change ("````" +:+ x) with ("```" +:+ "`" +:+ x).
  unfold Fence.match_at.
  rewrite (lit_app "```" ("`" +:+ x)). cbn [mbind option_bind].
  change ("`" +:+ x) with (String "`" x).
  rewrite lit_cons_ne by discriminate. reflexivity.
Qed.

(** Before the opening fence the pattern matches nowhere, when no fence
    lies in the text before it. *)
Lemma search_skips_prose (before tag rest : string) :
  Fence.until_fence before = None ->
  Fence.search (before +:+ "```" +:+ tag +:+ PyStr.LF +:+ rest)
  = Fence.search ("```" +:+ tag +:+ PyStr.LF +:+ rest).
Proof.
  induction before as [|c b IH]; intros Hnone; [reflexivity |].
  cbn [Fence.until_fence] in Hnone.
  destruct (PyStr.startswith (String c b) "```") eqn:Hsw; [discriminate |].
  assert (Hb : Fence.until_fence b = None)
    by (destruct (Fence.until_fence b); [discriminate | reflexivity]).
  rewrite append_cons. cbn [Fence.search].
  assert (Hm : Fence.match_at (String c (b +:+ "```" +:+ tag +:+ PyStr.LF +:+ rest)) = None).
  { destruct (Ascii.eqb_spec "`" c) as [<-|Hc].
    2:{ apply match_at_not_fence. unfold PyStr.startswith. rewrite prefix_cons.
        apply Ascii.eqb_neq in Hc. rewrite Hc. reflexivity. }
    destruct b as [|c1 b1]; [exact (match_at_backquote4 (tag +:+ PyStr.LF +:+ rest)) |].
    destruct (Ascii.eqb_spec "`" c1) as [<-|Hc1].
    2:{ apply match_at_not_fence. unfold PyStr.startswith.
        rewrite append_cons, !prefix_cons.
        apply Ascii.eqb_neq in Hc1. rewrite Hc1, andb_false_r. reflexivity. }
    destruct b1 as [|c2 b2];
      [exact (match_at_backquote4 ("`" +:+ tag +:+ PyStr.LF +:+ rest)) |].
    apply match_at_not_fence. unfold PyStr.startswith in *.
    rewrite !append_cons, !prefix_cons, prefix_empty.
    rewrite !prefix_cons, prefix_empty in Hsw. exact Hsw. }
  rewrite Hm. exact (IH Hb).
Qed.

Lemma search_match_at (s g : string) :
  Fence.match_at s = Some g -> Fence.search s = Some g.
Proof. intros H. destruct s; cbn [Fence.search]; rewrite H; reflexivity. Qed.

(** X18. A reply that holds one fenced block, opened by [```diff] or by
    [```] and a newline, gives the content of the block, stripped,
    whatever stands before and after it: provided that no fence lies in
    the text before and that the content holds no backquote. *)
Theorem extract_diff_from_fence (before tag body after : string) :
  tag = "diff" \/ tag = "" ->
  Fence.until_fence before = None ->
  no_backquote body = true ->
  extract_diff_from_response
    (before +:+ "```" +:+ tag +:+ PyStr.LF +:+ body +:+ "```" +:+ after)
  = PyStr.strip body.
Proof.
  intros Htag Hbefore Hbody. unfold extract_diff_from_response.
  rewrite (search_skips_prose before tag _ Hbefore).
  destruct (match_at_fence tag body after Htag Hbody) as (g & Hg & Hstrip).
  rewrite (search_match_at _ _ Hg). exact Hstrip.
Qed.

Lemma extract_diff_from_fence_witness :
  extract_diff_from_response
    ("Use `git apply`:" +:+ PyStr.LF +:+ "```" +:+ "diff" +:+ PyStr.LF
     +:+ (PyStr.LF +:+ "--- a/f.txt" +:+ PyStr.LF +:+ "+++ b/f.txt" +:+ PyStr.LF)
     +:+ "```" +:+ " and ```more```")
  = PyStr.strip (PyStr.LF +:+ "--- a/f.txt" +:+ PyStr.LF +:+ "+++ b/f.txt" +:+ PyStr.LF).
Proof.
  apply (extract_diff_from_fence ("Use `git apply`:" +:+ PyStr.LF) "diff"
           (PyStr.LF +:+ "--- a/f.txt" +:+ PyStr.LF +:+ "+++ b/f.txt" +:+ PyStr.LF)
           " and ```more```");
    [left; reflexivity | reflexivity | reflexivity].
Defined.

(** ** From the reply to the patches *)









(** ** [parse_diff]: what it skips *)

Lemma parse_files_skips (junk : list string) :
  Forall (fun l => PyStr.startswith l "---" = false) junk ->
  forall ls fuel patches,
    (List.length (junk ++ ls) <= fuel)%nat ->
    parse_files fuel (junk ++ ls) patches = parse_files (List.length ls) ls patches.
Proof.
  induction 1 as [|l junk Hl _ IH]; intros ls fuel patches Hfuel.
  - apply parse_files_fuel; [exact Hfuel | reflexivity].
  - destruct fuel as [|fuel]; [simpl in Hfuel; lia |].
    cbn [app parse_files]. rewrite Hl. cbn [negb].
    apply IH. simpl in Hfuel. lia.
Qed.

Lemma parse_hunks_skips (junk : list string) :
  Forall (fun l => PyStr.startswith l "---" = false /\ HunkHeader.re_match l = None) junk ->
  forall ls fuel hs,
    (List.length (junk ++ ls) <= fuel)%nat ->
    parse_hunks fuel (junk ++ ls) hs = parse_hunks (List.length ls) ls hs.
Proof.
  induction 1 as [|l junk [Hl Hm] _ IH]; intros ls fuel hs Hfuel.
  - apply parse_hunks_fuel; [exact Hfuel | reflexivity].
  - destruct fuel as [|fuel]; [simpl in Hfuel; lia |].
    cbn [app parse_hunks]. rewrite Hl, Hm.
    apply IH. simpl in Hfuel. lia.
Qed.

(** One iteration of the loop over the file blocks, at a file header. *)
Lemma parse_files_header (fuel : nat) (l1 l2 : string) (rest : list string)
    (patches : list FilePatch) :
  PyStr.startswith l1 "---" = true ->
  PyStr.startswith l2 "+++" = true ->
  parse_files (S fuel) (l1 :: l2 :: rest) patches
  = match parse_hunks (List.length rest) rest [] with
    | Raises e => Raises e
    | Returns (hs, rest') =>
        parse_files fuel rest'
          (patches
           ++ [mkFilePatch
                 (_strip_path_prefix (PyStr.before_tab (PyStr.strip (PyStr.drop 4 l1))))
                 (_strip_path_prefix (PyStr.before_tab (PyStr.strip (PyStr.drop 4 l2))))
                 hs])
    end.
Proof.
  intros H1 H2. cbn [parse_files]. rewrite H1, H2. cbn [negb].
  destruct (parse_hunks (List.length rest) rest []) as [[hs rest']|e]; reflexivity.
Qed.

(** X20. Lines that [parse_diff] skips: lines before the first file
    header that do not start with [---], and lines between the two
    header lines of a file and its first hunk header that neither start
    with [---] nor are a hunk header, change nothing in the result. *)
Theorem parse_diff_skips_other_lines (text text' : string)
    (before between rest : list string) (l1 l2 : string) :
  PyStr.splitlines text = l1 :: l2 :: rest ->
  PyStr.splitlines text' = before ++ l1 :: l2 :: between ++ rest ->
  PyStr.startswith l1 "---" = true ->
  PyStr.startswith l2 "+++" = true ->
  Forall (fun l => PyStr.startswith l "---" = false) before ->
  Forall (fun l => PyStr.startswith l "---" = false /\ HunkHeader.re_match l = None)
    between ->
  parse_diff text' = parse_diff text.
Proof.
  intros Ht Ht' H1 H2 Hbefore Hbetween.
  unfold parse_diff. rewrite Ht, Ht'.
  rewrite (parse_files_skips before Hbefore _ _ [] (Nat.le_refl _)).
  change (List.length (l1 :: l2 :: between ++ rest))
    with (S (List.length (l2 :: between ++ rest))).
  change (List.length (l1 :: l2 :: rest)) with (S (List.length (l2 :: rest))).
  rewrite !parse_files_header by assumption.
  rewrite (parse_hunks_skips between Hbetween rest _ [] (Nat.le_refl _)).
  destruct (parse_hunks (List.length rest) rest []) as [[hs rest']|e] eqn:E;
    [| reflexivity].
  apply parse_hunks_length in E.
  apply parse_files_fuel; cbn [List.length]; rewrite ?length_app; lia.
Qed.

Lemma parse_diff_skips_other_lines_witness :
  parse_diff
    (PyStr.join PyStr.LF
       ["Sure, here it is:"; "diff --git a/f.txt b/f.txt"; "--- a/f.txt"; "+++ b/f.txt";
        "index 83db48f..bf269f4 100644"; "@@ -1,3 +1,3 @@"; " a"; "-b"; "+B"; " c"; ""])
  = parse_diff Scenario.diff.
Proof.
  apply (parse_diff_skips_other_lines Scenario.diff _
           ["Sure, here it is:"; "diff --git a/f.txt b/f.txt"]
           ["index 83db48f..bf269f4 100644"]
           ["@@ -1,3 +1,3 @@"; " a"; "-b"; "+B"; " c"] "--- a/f.txt" "+++ b/f.txt");
    try reflexivity.
  - repeat constructor.
  - repeat constructor.
Defined.

(** ** [parse_diff]: a number too long for [int] *)

(** X28. A hunk header whose first number has more than 4300 digits makes
    [int] raise ValueError in [parse_diff], which has no handler: for a
    diff that starts with the two header lines of a file and such a hunk
    header, [parse_diff] raises, and so does [apply_diff_to_codebase],
    with the disk and the database as they were and no entry returned. *)
Theorem parse_diff_raises_on_long_number (text l1 l2 hdr : string) (rest : list string)
    (g1 g3 : string) (g2 g4 : option string) :
  PyStr.splitlines text = l1 :: l2 :: hdr :: rest ->
  PyStr.startswith l1 "---" = true ->
  PyStr.startswith l2 "+++" = true ->
  PyStr.startswith hdr "---" = false ->
  HunkHeader.re_match hdr = Some (g1, g2, g3, g4) ->
  PyStr.int_max_str_digits < Z.of_nat (String.length g1) ->
  exists msg,
    PyStr.int g1 = Raises (ValueError msg)
    /\ parse_diff text = Raises (ValueError msg)
    /\ forall root cid fs db,
         apply_diff_to_codebase text root cid fs db = (Raises (ValueError msg), fs, db).
Proof.
  intros Hlines H1 H2 Hh Hm Hlong.
  assert (Hint : exists msg, PyStr.int g1 = Raises (ValueError msg)).
  { unfold PyStr.int. apply Z.ltb_lt in Hlong. rewrite Hlong. eauto. }
  destruct Hint as [msg Hint]. exists msg.
  assert (Hp : parse_diff text = Raises (ValueError msg)).
  { unfold parse_diff. rewrite Hlines.
    cbn [List.length parse_files]. rewrite H1, H2. cbn [negb].
    cbn [parse_hunks]. rewrite Hh, Hm, Hint. reflexivity. }
  split; [exact Hint |]. split; [exact Hp |].
  intros root cid fs db. unfold apply_diff_to_codebase. rewrite Hp. reflexivity.
Qed.

Lemma parse_diff_raises_on_long_number_witness :
  exists msg,
    PyStr.int Extra.long_number = Raises (ValueError msg)
    /\ parse_diff Extra.long_number_diff = Raises (ValueError msg)
    /\ forall root cid fs db,
         apply_diff_to_codebase Extra.long_number_diff root cid fs db
         = (Raises (ValueError msg), fs, db).
Proof.
  apply (parse_diff_raises_on_long_number Extra.long_number_diff
           "--- a/f.txt" "+++ b/f.txt" ("@@ -" +:+ Extra.long_number +:+ ",3 +1,3 @@")
           [" a"; "-b"; "+B"; " c"] Extra.long_number "1" (Some "3") (Some "3"));
    vm_compute; reflexivity.
Defined.

(** ** [indexer.py]: languages and symbols *)

(** Decide every comparison of [ext] with a literal, replacing [ext] where
    they are equal. *)
Ltac case_ext ext :=
  repeat match goal with
  | |- context [String.eqb ?k ext] =>
      destruct (String.eqb_spec k ext) as [<- | ?]
  end.

(** X21. The two tables of [indexer.py] agree but for two entries: every
    extension that [_detect_language] knows is a supported one, and of
    the supported extensions only [.sass] and [.env] get the default
    language [text]. *)
Theorem detect_language_and_supported (ext : string) :
  (Indexer._detect_language ext <> "text" ->
   Indexer.mem ext Indexer.SUPPORTED_EXTENSIONS = true)
  /\ (Indexer.mem ext Indexer.SUPPORTED_EXTENSIONS = true ->
      (Indexer._detect_language ext = "text" <-> ext = ".sass" \/ ext = ".env")).
Proof.
  split.
  - unfold Indexer._detect_language, Indexer.languages. cbn [Indexer.get].
    case_ext ext; intros H; try reflexivity. congruence.
  - unfold Indexer.mem, Indexer.SUPPORTED_EXTENSIONS. cbn [existsb].
    rewrite !(String.eqb_sym ext).
    unfold Indexer._detect_language, Indexer.languages. cbn [Indexer.get].
    case_ext ext; intros H; try discriminate H;
      (split; [intros E; try discriminate E; auto | intros [E | E]; try discriminate E; reflexivity]).
Qed.

Lemma detect_language_and_supported_witness :
  Indexer.mem ".sass" Indexer.SUPPORTED_EXTENSIONS = true
  /\ Indexer._detect_language ".sass" = "text".
Proof.
  split; [reflexivity |].
  apply (proj2 (detect_language_and_supported ".sass") eq_refl). left. reflexivity.
Defined.

Section SymbolFacts.

Variable re_match : string -> string -> option string.

Lemma match_patterns_spec (patterns : list string) (line : string) :
  forall symbols s,
    In s (Indexer.match_patterns re_match patterns line symbols) ->
    In s symbols
    \/ exists pat, In pat patterns /\ re_match pat (PyStr.strip line) = Some s.
Proof.
  induction patterns as [|pat rest IH]; intros symbols s H; [left; exact H |].
  cbn [Indexer.match_patterns] in H.
  destruct (re_match pat (PyStr.strip line)) as [g|] eqn:E.
  - apply IH in H as [H | (p & Hp & Hm)].
    + apply in_app_or in H as [H | [<- | []]]; [left; exact H |].
      right. exists pat. split; [left; reflexivity | exact E].
    + right. exists p. split; [right; exact Hp | exact Hm].
  - apply IH in H as [H | (p & Hp & Hm)]; [left; exact H |].
    right. exists p. split; [right; exact Hp | exact Hm].
Qed.

(** X22. [_extract_symbols] returns at most 30 symbols; each is group 1
    of a match of a pattern of the language on a stripped line of the
    content; and a language without patterns gives none. *)
Theorem extract_symbols_bounds (content language : string) :
  (List.length (Indexer._extract_symbols re_match content language) <= 30)%nat
  /\ (forall s,
        In s (Indexer._extract_symbols re_match content language) ->
        exists line pats pat,
          In line (PyStr.splitlines content)
          /\ Indexer.get Indexer.symbol_patterns language = Some pats
          /\ In pat pats
          /\ re_match pat (PyStr.strip line) = Some s)
  /\ (Indexer.get Indexer.symbol_patterns language = None ->
      Indexer._extract_symbols re_match content language = []).
Proof.
  unfold Indexer._extract_symbols.
  set (patterns := match Indexer.get Indexer.symbol_patterns language with
                   | Some ps => ps
                   | None => []
                   end).
  assert (Hfold : forall ls acc s,
            In s (fold_left (fun symbols line =>
                               Indexer.match_patterns re_match patterns line symbols) ls acc) ->
            In s acc
            \/ exists line pat, In line ls /\ In pat patterns
                                /\ re_match pat (PyStr.strip line) = Some s).
  { induction ls as [|line ls IH]; intros acc s H; [left; exact H |].
    cbn [fold_left] in H. apply IH in H as [H | (l & p & Hl & Hp & Hm)].
    - apply match_patterns_spec in H as [H | (p & Hp & Hm)]; [left; exact H |].
      right. exists line, p. split; [left; reflexivity | split; assumption].
    - right. exists l, p. split; [right; exact Hl | split; assumption]. }
  split; [rewrite length_take; lia |]. split.
  - intros s Hs.
    assert (Hin : In s (fold_left (fun symbols line =>
                                     Indexer.match_patterns re_match patterns line symbols)
                          (PyStr.splitlines content) [])).
    { clear -Hs. revert Hs.
      generalize (fold_left (fun symbols line =>
                               Indexer.match_patterns re_match patterns line symbols)
                    (PyStr.splitlines content) []).
      intros l. revert l. generalize 30%nat.
      induction n as [|n IH]; intros [|x l] H; try contradiction.
      cbn in H. destruct H as [<- | H]; [left; reflexivity | right; exact (IH l H)]. }
    apply Hfold in Hin as [[] | (line & pat & Hl & Hp & Hm)].
    unfold patterns in Hp.
    destruct (Indexer.get Indexer.symbol_patterns language) as [pats|]; [| contradiction].
    exists line, pats, pat. auto.
  - intros Hnone. unfold patterns. rewrite Hnone.
    assert (Hnil : forall ls, fold_left (fun symbols line =>
                                           Indexer.match_patterns re_match [] line symbols)
                                ls [] = []).
    { induction ls as [|l ls IH]; [reflexivity | exact IH]. }
    rewrite Hnil. reflexivity.
Qed.

End SymbolFacts.

Lemma extract_symbols_bounds_witness :
  Indexer._extract_symbols (fun _ _ => Some "f") "x" "markdown" = [].
Proof.
  apply (proj2 (proj2 (extract_symbols_bounds (fun _ _ => Some "f") "x" "markdown"))).
  reflexivity.
Defined.

(** ** [indexer.py]: the walk *)

Lemma substring_length_le (m : nat) :
  forall s, (String.length (String.substring 0 m s) <= m)%nat.
Proof.
  induction m as [|m IH]; intros [|c s]; cbn; try lia.
  specialize (IH s). lia.
Qed.

(** Induction on a tree, with the entries of a directory. *)
Lemma entry_induction (P : Indexer.entry -> Prop) :
  (forall name text, P (Indexer.File name text)) ->
  (forall name children, Forall P children -> P (Indexer.Dir name children)) ->
  forall e, P e.
Proof.
  intros HF HD.
  exact (fix F (e : Indexer.entry) : P e :=
           match e with
           | Indexer.File name text => HF name text
           | Indexer.Dir name children =>
               HD name children
                 ((fix G (l : list Indexer.entry) : Forall P l :=
                     match l with
                     | [] => @List.Forall_nil _ P
                     | x :: l' => @List.Forall_cons _ P x l' (F x) (G l')
                     end) children)
           end).
Qed.

(** What the body of the loop collects for one file. *)
Lemma in_collect_file (dir_rel name : string) (text : outcome string)
    (f : Indexer.indexed_file) :
  In f (Indexer.collect_file dir_rel name text) <->
  exists c,
    text = Returns c
    /\ Indexer.mem (Indexer.lower (Indexer.suffix name)) Indexer.SUPPORTED_EXTENSIONS = true
    /\ f = Indexer.mkIndexed
             (Indexer.replace_backslash (dir_rel +:+ name))
             (if Indexer.MAX_FILE_CHARS <? Indexer.len c
              then String.substring 0 (Z.to_nat Indexer.MAX_FILE_CHARS) c
                   +:+ PyStr.LF +:+ "... [truncated]"
              else c)
             (Indexer._detect_language (Indexer.lower (Indexer.suffix name))).
Proof.
  unfold Indexer.collect_file.
  destruct (Indexer.mem (Indexer.lower (Indexer.suffix name)) Indexer.SUPPORTED_EXTENSIONS)
    eqn:Hext; cbn [negb].
  - destruct text as [c|e].
    + split.
      * intros [<- | []]. exists c. auto.
      * intros (c' & [= <-] & _ & ->). left. reflexivity.
    + split; [contradiction | intros (c' & [=] & _)].
  - split; [contradiction | intros (c' & _ & [=] & _)].
Qed.

(** The content of a collected file is within the limit, the mark of the
    truncation included. *)
Lemma truncated_length (c : string) :
  Indexer.len (if Indexer.MAX_FILE_CHARS <? Indexer.len c
               then String.substring 0 (Z.to_nat Indexer.MAX_FILE_CHARS) c
                    +:+ PyStr.LF +:+ "... [truncated]"
               else c)
  <= Indexer.MAX_FILE_CHARS + 16.
Proof.
  unfold Indexer.len, Indexer.MAX_FILE_CHARS in *.
  destruct (Z.ltb_spec 50000 (Z.of_nat (String.length c))) as [Hlong|Hshort]; [| lia].
  rewrite !string_length_app.
  pose proof (substring_length_le (Z.to_nat 50000) c).
  change (String.length PyStr.LF) with 1%nat.
  change (String.length "... [truncated]") with 15%nat. lia.
Qed.

Lemma in_insert_by_name (x y : string * outcome string) (l : list (string * outcome string)) :
  In y (Indexer.insert_by_name x l) <-> y = x \/ In y l.
Proof.
  induction l as [|z l IH]; cbn.
  - split; [intros [<- | []]; auto | intros [-> | []]; auto].
  - destruct (String.leb (fst x) (fst z)); cbn.
    + split; [intros [<- | H]; auto | intros [-> | H]; auto].
    + rewrite IH. split; [intros [<- | [-> | H]]; auto | intros [-> | [<- | H]]; auto].
Qed.

(** Sorting the names keeps the files. *)
Lemma in_sorted_by_name (y : string * outcome string) (l : list (string * outcome string)) :
  In y (Indexer.sorted_by_name l) <-> In y l.
Proof.
  unfold Indexer.sorted_by_name.
  induction l as [|x l IH]; cbn [fold_right]; [reflexivity |].
  rewrite in_insert_by_name, IH. cbn. split; intros [H | H]; auto.
Qed.

Lemma in_filenames (name : string) (text : outcome string) (children : list Indexer.entry) :
  In (name, text) (Indexer.filenames children) <-> In (Indexer.File name text) children.
Proof.
  induction children as [|[n t | n cs] children IH]; cbn; [reflexivity | |].
  - rewrite IH. split; (intros [H | H]; [left | right; exact H]); congruence.
  - rewrite IH. split; [auto | intros [H | H]; [discriminate | exact H]].
Qed.

Lemma in_collect_files (dir_rel : string) (children : list Indexer.entry)
    (f : Indexer.indexed_file) :
  In f (Indexer.collect_files dir_rel children) <->
  exists name text,
    In (Indexer.File name text) children
    /\ In f (Indexer.collect_file dir_rel name text).
Proof.
  unfold Indexer.collect_files. rewrite in_flat_map. split.
  - intros ([name text] & Hin & Hf).
    apply in_sorted_by_name, in_filenames in Hin. exists name, text. auto.
  - intros (name & text & Hin & Hf). exists (name, text).
    split; [apply in_sorted_by_name, in_filenames; exact Hin | exact Hf].
Qed.

(** What the walk collects in a directory and below it: the files that
    [file_at] finds there. *)
Lemma in_walk_entry (e : Indexer.entry) :
  forall prefix f,
    In f (Indexer.walk_entry prefix e) <->
    exists d kids dir_rel name text,
      e = Indexer.Dir d kids
      /\ Indexer.pruned d = false
      /\ Indexer.file_at kids dir_rel name text
      /\ In f (Indexer.collect_file (prefix +:+ d +:+ "/" +:+ dir_rel) name text).
Proof.
  induction e as [name text | name children IH] using entry_induction; intros prefix f.
  - split; [contradiction | intros (d & kids & ? & ? & ? & [=] & _)].
  - rewrite List.Forall_forall in IH. cbn [Indexer.walk_entry]. split.
    + destruct (Indexer.pruned name) eqn:Hp; [contradiction |].
      intros H. apply in_app_or in H as [H | H].
      * apply in_collect_files in H as (n & t & Hin & Hf).
        exists name, children, "", n, t.
        split; [reflexivity |]. split; [exact Hp |].
        split; [apply Indexer.file_here; exact Hin |].
        rewrite append_nil_r. exact Hf.
      * apply in_flat_map in H as (e & He & H).
        apply (IH e He) in H as (d & kids & dir_rel & n & t & -> & Hd & Hat & Hf).
        exists name, children, (d +:+ "/" +:+ dir_rel), n, t.
        split; [reflexivity |]. split; [exact Hp |].
        split; [exact (Indexer.file_below _ _ _ _ _ _ He Hd Hat) |].
        rewrite ?append_assoc in Hf. rewrite ?append_assoc. exact Hf.
    + intros (d & kids & dir_rel & n & t & [= <- <-] & Hp & Hat & Hf).
      rewrite Hp. apply in_or_app.
      inversion Hat as [? ? ? Hin | ? d' kids' dir_rel' ? ? Hin Hd' Hat']; subst.
      * left. apply in_collect_files. exists n, t.
        rewrite append_nil_r in Hf. auto.
      * right. apply in_flat_map. exists (Indexer.Dir d' kids').
        split; [exact Hin |].
        apply (IH _ Hin). exists d', kids', dir_rel', n, t.
        split; [reflexivity |]. split; [exact Hd' |]. split; [exact Hat' |].
        rewrite ?append_assoc in Hf. rewrite ?append_assoc. exact Hf.
Qed.

(** X23. [walk_codebase] collects exactly the readable files of the tree
    that lie under no pruned directory and whose name has a supported
    extension (the suffix of the name, in lower case): the collected file
    carries the path of the file relative to the root, with [/] for
    every backslash, the language of that extension, and the text of the
    file, cut at [MAX_FILE_CHARS] characters and marked when it is
    longer, so that its content has at most [MAX_FILE_CHARS] characters
    and the 16 of the mark. *)
Theorem walk_codebase_well_indexed (root : list Indexer.entry) (f : Indexer.indexed_file) :
  In f (Indexer.walk_codebase root) <->
  exists dir_rel name c,
    Indexer.file_at root dir_rel name (Returns c)
    /\ Indexer.mem (Indexer.lower (Indexer.suffix name)) Indexer.SUPPORTED_EXTENSIONS = true
    /\ Indexer.rel_path f = Indexer.replace_backslash (dir_rel +:+ name)
    /\ Indexer.language f = Indexer._detect_language (Indexer.lower (Indexer.suffix name))
    /\ Indexer.content f
       = (if Indexer.MAX_FILE_CHARS <? Indexer.len c
          then String.substring 0 (Z.to_nat Indexer.MAX_FILE_CHARS) c
               +:+ PyStr.LF +:+ "... [truncated]"
          else c)
    /\ Indexer.len (Indexer.content f) <= Indexer.MAX_FILE_CHARS + 16.
Proof.
  unfold Indexer.walk_codebase. split.
  - intros H. apply in_app_or in H as [H | H].
    + apply in_collect_files in H as (n & t & Hin & Hf).
      apply in_collect_file in Hf as (c & -> & Hext & ->).
      exists "", n, c. cbn [Indexer.rel_path Indexer.language Indexer.content].
      split; [apply Indexer.file_here; exact Hin |].
      repeat (split; [first [exact Hext | reflexivity] |]).
      apply truncated_length.
    + apply in_flat_map in H as (e & He & H).
      apply in_walk_entry in H as (d & kids & dir_rel & n & t & -> & Hd & Hat & Hf).
      apply in_collect_file in Hf as (c & -> & Hext & ->).
      exists (d +:+ "/" +:+ dir_rel), n, c.
      cbn [Indexer.rel_path Indexer.language Indexer.content].
      split; [exact (Indexer.file_below _ _ _ _ _ _ He Hd Hat) |].
      split; [exact Hext |].
      split; [reflexivity |].
      split; [reflexivity |].
      split; [reflexivity | apply truncated_length].
  - intros (dir_rel & n & c & Hat & Hext & Hrel & Hlang & Hcontent & _).
    assert (Hf : forall prefix,
               In f (Indexer.collect_file prefix n (Returns c))
               <-> Indexer.replace_backslash (prefix +:+ n) = Indexer.rel_path f).
    { intros prefix. rewrite in_collect_file. split.
      - intros (c' & [= <-] & _ & ->). reflexivity.
      - intros Hp. exists c. split; [reflexivity |]. split; [exact Hext |].
        destruct f as [r k l]. cbn in *. congruence. }
    apply in_or_app.
    inversion Hat as [? ? ? Hin | ? d' kids' dir_rel' ? ? Hin Hd' Hat']; subst.
    + left. apply in_collect_files. exists n, (Returns c).
      split; [exact Hin |]. apply Hf. symmetry. exact Hrel.
    + right. apply in_flat_map. exists (Indexer.Dir d' kids').
      split; [exact Hin |].
      apply in_walk_entry. exists d', kids', dir_rel', n, (Returns c).
      split; [reflexivity |]. split; [exact Hd' |]. split; [exact Hat' |].
      apply Hf. symmetry. exact Hrel.
Qed.

Lemma walk_codebase_well_indexed_witness :
  In (Indexer.mkIndexed "src/a.py" "def f(): pass" "python")
     (Indexer.walk_codebase Indexer.sample_tree).
Proof.
  apply (proj2 (walk_codebase_well_indexed Indexer.sample_tree
                  (Indexer.mkIndexed "src/a.py" "def f(): pass" "python"))).
  exists "src/", "a.py", "def f(): pass".
  split.
  - apply (Indexer.file_below Indexer.sample_tree "src"
             [Indexer.File "a.py" (Returns "def f(): pass");
              Indexer.File "locked.py" (Raises (OSError "denied"));
              Indexer.Dir ".hidden" [Indexer.File "h.py" (Returns "x")]]
             "" "a.py" (Returns "def f(): pass")).
    + vm_compute. auto 10.
    + reflexivity.
    + apply Indexer.file_here. left. reflexivity.
  - vm_compute. repeat split; discriminate.
Defined.

Lemma filenames_app (l1 l2 : list Indexer.entry) :
  Indexer.filenames (l1 ++ l2) = Indexer.filenames l1 ++ Indexer.filenames l2.
Proof.
  induction l1 as [|[n t | n cs] l1 IH]; [reflexivity | |]; cbn; rewrite IH; reflexivity.
Qed.

(** X24. A directory that is pruned (a name of [SKIP_DIRS], or a name that
    starts with a dot) contributes nothing, whatever it holds: the result
    is that of the tree without it, at the root and at any depth. *)
Theorem walk_ignores_pruned_directory (d : string) (kids pre post : list Indexer.entry)
    (dir_rel name : string) :
  Indexer.pruned d = true ->
  Indexer.walk_codebase (pre ++ Indexer.Dir d kids :: post)
  = Indexer.walk_codebase (pre ++ post)
  /\ Indexer.walk_entry dir_rel (Indexer.Dir name (pre ++ Indexer.Dir d kids :: post))
     = Indexer.walk_entry dir_rel (Indexer.Dir name (pre ++ post)).
Proof.
  intros Hd.
  assert (Hfiles : forall rel,
            Indexer.collect_files rel (pre ++ Indexer.Dir d kids :: post)
            = Indexer.collect_files rel (pre ++ post)).
  { intros rel. unfold Indexer.collect_files. rewrite !filenames_app. reflexivity. }
  assert (Hdirs : forall rel,
            flat_map (Indexer.walk_entry rel) (pre ++ Indexer.Dir d kids :: post)
            = flat_map (Indexer.walk_entry rel) (pre ++ post)).
  { intros rel. rewrite !flat_map_app. cbn [flat_map Indexer.walk_entry].
    rewrite Hd. reflexivity. }
  split.
  - unfold Indexer.walk_codebase. rewrite Hfiles, Hdirs. reflexivity.
  - cbn [Indexer.walk_entry]. rewrite Hfiles, Hdirs. reflexivity.
Qed.

Lemma walk_ignores_pruned_directory_witness :
  Indexer.pruned ".git" = true
  /\ Indexer.walk_codebase
       ([Indexer.File "a.py" (Returns "x")]
        ++ Indexer.Dir ".git" [Indexer.File "hook.py" (Returns "y")] :: [])
     = Indexer.walk_codebase ([Indexer.File "a.py" (Returns "x")] ++ []).
Proof.
  split; [reflexivity |].
  exact (proj1 (walk_ignores_pruned_directory ".git"
                  [Indexer.File "hook.py" (Returns "y")]
                  [Indexer.File "a.py" (Returns "x")] [] "src" "pkg" eq_refl)).
Defined.

(** X25. A file whose name has no dot after its first character has no
    suffix and is never collected: [.env] is a supported extension, but
    a file named [.env] is not indexed. *)
Theorem file_without_suffix_is_skipped (dir_rel name : string) (text : outcome string) :
  Indexer.from_last_dot (PyStr.drop 1 name) = None ->
  Indexer.collect_file dir_rel name text = [].
Proof.
  intros H. unfold Indexer.collect_file.
  assert (Hs : Indexer.suffix name = "").
  { destruct name as [|c rest]; [reflexivity |]. cbn [PyStr.drop] in H.
    cbn [Indexer.suffix]. rewrite H. reflexivity. }
  rewrite Hs. reflexivity.
Qed.

Lemma file_without_suffix_is_skipped_witness :
  Indexer.collect_file "" ".env" (Returns "KEY=1") = [].
Proof. apply (file_without_suffix_is_skipped "" ".env" (Returns "KEY=1")). reflexivity. Defined.

(** ** [indexer.py]: the context *)

Section ContextFacts.

Variable re_match : string -> string -> option string.
Variable omitted_notice : string.

Lemma add_blocks_spec (files : list Indexer.indexed_file) :
  forall (lines : list string) (total_chars : Z),
  exists k : nat,
    (k <= List.length files)%nat
    /\ Indexer.add_blocks omitted_notice files lines total_chars
       = lines ++ map Indexer.block (firstn k files)
         ++ (if (k <? List.length files)%nat then [omitted_notice] else [])
    /\ (k = 0%nat
        \/ total_chars + Indexer.blocks_len (firstn k files) <= Indexer.MAX_CONTEXT_CHARS)
    /\ ((k < List.length files)%nat ->
        Indexer.MAX_CONTEXT_CHARS < total_chars + Indexer.blocks_len (firstn (S k) files)).
Proof.
  induction files as [|f rest IH]; intros lines total_chars.
  - exists 0%nat. cbn. rewrite app_nil_r.
    split; [lia |]. split; [reflexivity |]. split; [now left |]. intros H. lia.
  - cbn [Indexer.add_blocks].
    destruct (Z.ltb_spec Indexer.MAX_CONTEXT_CHARS (total_chars + Indexer.len (Indexer.block f)))
      as [Hover | Hfits].
    + exists 0%nat. split; [cbn [List.length]; lia |]. split; [reflexivity |].
      split; [now left |]. intros _.
      change (firstn 1 (f :: rest)) with [f]. cbn [Indexer.blocks_len fold_right]. lia.
    + destruct (IH (lines ++ [Indexer.block f]) (total_chars + Indexer.len (Indexer.block f)))
        as (k & Hk & Heq & Hin & Hout).
      exists (S k). split; [cbn; lia |]. split; [| split].
      * rewrite Heq. rewrite <- app_assoc. reflexivity.
      * right. cbn [firstn Indexer.blocks_len fold_right].
        destruct Hin as [-> | Hin]; [rewrite List.firstn_O; cbn [fold_right]; lia |].
        unfold Indexer.blocks_len in Hin. lia.
      * intros Hlt. cbn [List.length] in Hlt.
        assert (Hlt' : (k < List.length rest)%nat) by lia.
        specialize (Hout Hlt'). 
        change (firstn (S (S k)) (f :: rest)) with (f :: firstn (S k) rest).
        cbn [Indexer.blocks_len fold_right]. unfold Indexer.blocks_len in Hout. lia.
Qed.

(** X26. The file contents of the context are the blocks of a prefix of
    the files: the blocks are added in order while the running total
    stays within [MAX_CONTEXT_CHARS], and the first block that does not
    fit ends the contents with the notice, also for the smaller files
    that follow it. *)
Theorem build_context_blocks_of_a_prefix (root : string) (files : list Indexer.indexed_file) :
  let header := Indexer.header_lines re_match root files in
  let total_chars := Indexer.len (PyStr.join PyStr.LF header) in
  exists k : nat,
    (k <= List.length files)%nat
    /\ Indexer.build_context re_match omitted_notice root files
       = PyStr.join PyStr.LF
           (header ++ map Indexer.block (firstn k files)
            ++ (if (k <? List.length files)%nat then [omitted_notice] else []))
    /\ (k = 0%nat
        \/ total_chars + Indexer.blocks_len (firstn k files) <= Indexer.MAX_CONTEXT_CHARS)
    /\ ((k < List.length files)%nat ->
        Indexer.MAX_CONTEXT_CHARS
        < total_chars + Indexer.blocks_len (firstn (S k) files)).
Proof.
  intros header total_chars.
  destruct (add_blocks_spec files header total_chars) as (k & Hk & Heq & Hin & Hout).
  exists k. split; [exact Hk |]. split; [| split; assumption].
  unfold Indexer.build_context. fold header. fold total_chars. rewrite Heq. reflexivity.
Qed.

Lemma len_join_app (xs : list string) :
  forall lines : list string,
  lines <> [] ->
  Indexer.len (PyStr.join PyStr.LF (lines ++ xs))
  = Indexer.len (PyStr.join PyStr.LF lines)
    + fold_right (fun x n => 1 + Indexer.len x + n) 0 xs.
Proof.
  induction xs as [|x xs IH]; intros lines Hne.
  - rewrite app_nil_r. cbn. lia.
  - change (lines ++ x :: xs) with (lines ++ [x] ++ xs). rewrite app_assoc.
    rewrite IH by (destruct lines; discriminate).
    rewrite join_snoc by exact Hne.
    unfold Indexer.len. rewrite !string_length_app.
    change (String.length PyStr.LF) with 1%nat. cbn [fold_right]. unfold Indexer.len. lia.
Qed.

Lemma blocks_sum (fs : list Indexer.indexed_file) :
  fold_right (fun x n => 1 + Indexer.len x + n) 0 (map Indexer.block fs)
  = Z.of_nat (List.length fs) + Indexer.blocks_len fs.
Proof.
  induction fs as [|f fs IH]; [reflexivity |].
  cbn [map fold_right List.length Indexer.blocks_len]. unfold Indexer.blocks_len in IH.
  rewrite IH. lia.
Qed.

(** X27. When the header lines fit in [MAX_CONTEXT_CHARS], the context
    exceeds the budget by no more than one character for every file and
    the length of the notice: the running total leaves out the line
    breaks that join the blocks, and the notice. *)
Theorem build_context_within_budget (root : string) (files : list Indexer.indexed_file) :
  Indexer.len (PyStr.join PyStr.LF (Indexer.header_lines re_match root files))
  <= Indexer.MAX_CONTEXT_CHARS ->
  Indexer.len (Indexer.build_context re_match omitted_notice root files)
  <= Indexer.MAX_CONTEXT_CHARS + Z.of_nat (List.length files)
     + Indexer.len omitted_notice.
Proof.
  intros Hheader.
  destruct (add_blocks_spec files (Indexer.header_lines re_match root files)
              (Indexer.len (PyStr.join PyStr.LF (Indexer.header_lines re_match root files))))
    as (k & Hk & Heq & Hin & _).
  unfold Indexer.build_context. rewrite Heq.
  rewrite len_join_app by discriminate.
  rewrite fold_right_app.
  assert (Hsum : forall (ys : list string) (z : Z),
             fold_right (fun x n => 1 + Indexer.len x + n) z ys
             = fold_right (fun x n => 1 + Indexer.len x + n) 0 ys + z).
  { induction ys as [|y ys IHy]; intros z; cbn [fold_right]; [lia |]. rewrite IHy. lia. }
  rewrite Hsum, blocks_sum.
  assert (Hlen : List.length (firstn k files) = k) by (apply List.firstn_length_le; exact Hk).
  rewrite Hlen.
  assert (Hnotice : 0 <= Indexer.len omitted_notice) by (unfold Indexer.len; lia).
  assert (Hblocks : Indexer.len (PyStr.join PyStr.LF (Indexer.header_lines re_match root files))
                    + Indexer.blocks_len (firstn k files) <= Indexer.MAX_CONTEXT_CHARS).
  { destruct Hin as [-> | Hin]; [| exact Hin].
    rewrite List.firstn_O. cbn [Indexer.blocks_len fold_right]. lia. }
  destruct (Nat.ltb_spec k (List.length files)) as [Hlt | Hge]; cbn [fold_right]; lia.
Qed.

End ContextFacts.

Lemma build_context_within_budget_witness :
  Indexer.len
    (Indexer.build_context (fun _ _ => None) "[omitted]" "/srv/code"
       [Indexer.mkIndexed "a.py" "x = 1" "python"])
  <= Indexer.MAX_CONTEXT_CHARS + 1 + Indexer.len "[omitted]".
Proof.
  apply (build_context_within_budget (fun _ _ => None) "[omitted]" "/srv/code"
           [Indexer.mkIndexed "a.py" "x = 1" "python"]).
  vm_compute. discriminate.
Defined.
